(** * Lintelligence: the job-processing and coordination layer

    A shallow embedding of the queue, lock manager, rate limiter, job
    processors, metrics, health classification, autoscaler and code
    analyzer of the Lintelligence code review agent, together with the
    properties its specification states about them.

    Conventions of the embedding.
    - JavaScript numbers that hold counts, identifiers and millisecond
      timestamps are [Z]; rates and averages are [Q] (comparison of a
      finite double with an integer literal is exact).
    - Redis is the shared store of locks and rate counters; it is a finite
      map from key to value and optional expiry, and every command takes
      the current time [now] (milliseconds) as an argument.
    - [await]ed calls are sequenced in a state-and-exception monad over
      the [World]; a thrown exception keeps the state changes made
      before it.
    - Storage clients (Redis, the SQL repositories) are taken to be
      reachable: their calls complete. Exceptions come from Redis
      rejecting a command, from the database refusing a review row that
      leaves a column without a value, and from the collaborators
      (GitHub, OpenAI, the pipeline).
    - Time passes during the calls to the collaborators only; a round
      trip to Redis or to the database takes none, so durations are
      stated as differences of clock readings. *)

From Stdlib Require Import ZArith QArith Qround Lia Lqa String Ascii List.
From Stdlib Require Import DecimalString.
From stdpp Require Import gmap strings list.
Import ListNotations.

Local Open Scope string_scope.
Local Open Scope list_scope.
Local Open Scope Z_scope.

(** ** JavaScript values and exceptions *)

(** The values that occur in a job payload. *)
Inductive JsVal :=
| JsStr (s : string)
| JsNum (n : Z).

(** A JavaScript object used as a record: property name to value; a
    missing property reads as [undefined], here [None]. *)
Abbreviation JsObj := (gmap string JsVal).

(** [String(n)] for an integer [n]. *)
Definition toString (n : Z) : string :=
  NilZero.string_of_int (Z.to_int n).

(** Interpolation [`${v}`] inside a template literal. *)
Definition tpl (v : option JsVal) : string :=
  match v with
  | Some (JsStr s) => s
  | Some (JsNum n) => toString n
  | None => "undefined"
  end.

(** [new Error(message)]. *)
Inductive exn :=
| Error (message : string).

(** The outcome of a call: a value, or a thrown exception. *)
Inductive res (A : Type) :=
| Ok (a : A)
| Throw (e : exn).
Arguments Ok {A} a.
Arguments Throw {A} e.

(** ** Redis *)

Module Redis.

(** A stored string with its expiry (absolute time in ms).  Every value
    this program stores is a decimal integer: the lock value is
    [Date.now().toString()] and counters are written by INCR. *)
Record entry := Entry { value : Z; expireAt : option Z }.

Abbreviation Store := (gmap string entry).

(** A key is expired once the clock is past its expiry time. *)
Definition expired (now : Z) (e : entry) : bool :=
  match expireAt e with
  | Some t => t <? now
  | None => false
  end.

(** What a command sees at [key]: expired keys read as absent. *)
Definition live (now : Z) (s : Store) (key : string) : option entry :=
  match s !! key with
  | Some e => if expired now e then None else Some e
  | None => None
  end.

Inductive reply := OK | Nil.

(** [SET key value PX ttl NX]: rejected when [ttl] is not positive;
    otherwise sets the key only if it does not exist. *)
Definition set_px_nx (now : Z) (key : string) (v ttl : Z) (s : Store)
  : res reply * Store :=
  if ttl <=? 0 then
    (Throw (Error "ERR invalid expire time in 'set' command"), s)
  else
    match live now s key with
    | Some _ => (Ok Nil, s)
    | None => (Ok OK, <[key := Entry v (Some (now + ttl))]> s)
    end.

(** [DEL key]: the number of keys removed. *)
Definition del (now : Z) (key : string) (s : Store) : Z * Store :=
  (match live now s key with Some _ => 1 | None => 0 end, delete key s).

(** [INCR key]: a missing key counts from 0 and gets no expiry; an
    existing key keeps its expiry. Counters are unbounded here: the
    64-bit overflow of INCR is out of reach of any actual run. *)
Definition incr (now : Z) (key : string) (s : Store) : Z * Store :=
  match live now s key with
  | Some e => (value e + 1, <[key := Entry (value e + 1) (expireAt e)]> s)
  | None => (1, <[key := Entry 1 None]> s)
  end.

(** [EXPIRE key seconds]: a timeout that is not in the future deletes
    the key. *)
Definition expire (now : Z) (key : string) (seconds : Z) (s : Store)
  : Z * Store :=
  match live now s key with
  | Some e =>
      if seconds <=? 0 then (1, delete key s)
      else (1, <[key := Entry (value e) (Some (now + seconds * 1000))]> s)
  | None => (0, s)
  end.

(** [GET key]. *)
Definition get (now : Z) (key : string) (s : Store) : option Z :=
  value <$> live now s key.

End Redis.

(** ** ConcurrencyManagerService (concurrency-manager.service.ts) *)

Module ConcurrencyManagerService.
Import Redis.

Definition lockKey (resource : string) : string := "lock:" +:+ resource.
Definition rateKey (identifier : string) : string :=
  "rate_limit:" +:+ identifier.

Definition acquireLock (now : Z) (resource : string) (ttl : Z) (s : Store)
  : res bool * Store :=
  let lockKey := lockKey resource in
  let lockValue := now in
  match set_px_nx now lockKey lockValue ttl s with
  | (Ok OK, s') => (Ok true, s')
  | (Ok Nil, s') => (Ok false, s')
  | (Throw e, s') => (Throw e, s')
  end.

Definition releaseLock (now : Z) (resource : string) (s : Store) : Store :=
  snd (del now (lockKey resource) s).

Definition checkRateLimit (now : Z) (identifier : string) (limit window : Z)
    (s : Store) : bool * Store :=
  let key := rateKey identifier in
  let (current, s1) := incr now key s in
  let s2 := if current =? 1 then snd (expire now key window s1) else s1 in
  (current <=? limit, s2).

Definition getCurrentUsage (now : Z) (identifier : string) (s : Store) : Z :=
  match get now (rateKey identifier) s with
  | Some current => current
  | None => 0
  end.

End ConcurrencyManagerService.

(** ** Bull: the job queue (external library)

    [queue.add(name, data, opts)] stores the job under a fresh id; nothing
    in it inspects [data]. *)

Module Bull.

Record Backoff := { type : string; delay : Z }.

(** What the callers pass as priority and attempts: a number, or a member
    of [Object.prototype] that a lookup by key found in an object
    literal. *)
Inductive Setting :=
| Number (n : Z)
| Member (key : string).
Coercion Number : Z >-> Setting.

Record JobOptions := {
  priority : option Setting;
  attempts : option Setting;
  backoff : option Backoff;
  removeOnComplete : option Z;
  removeOnFail : option Z
}.

Record Job := {
  id : Z;
  name : string;
  data : JsObj;
  opts : JobOptions
}.

Record Queue := { jobs : list Job; nextId : Z }.

Definition empty : Queue := {| jobs := []; nextId := 1 |}.

Definition add (name : string) (data : JsObj) (opts : JobOptions)
    (q : Queue) : Job * Queue :=
  let job := {| id := nextId q; name := name; data := data; opts := opts |} in
  (job, {| jobs := jobs q ++ [job]; nextId := nextId q + 1 |}).

End Bull.

(** The keys the specification requires of a payload. *)
Definition requiredKeys : list string :=
  ["owner"; "repo"; "pullNumber"; "headSha"; "baseSha"].

Definition missingKey (data : JsObj) : bool :=
  existsb (fun k => match data !! k with Some _ => false | None => true end)
          requiredKeys.

(** ** QueueService (queue.service.ts) *)

Module QueueService.

Definition addCodeReviewJob (data : JsObj) (q : Bull.Queue)
  : res unit * Bull.Queue :=
  let (_, q') :=
    Bull.add "analyze-pull-request" data
      {| Bull.priority := None;
         Bull.attempts := Some (Bull.Number 3);
         Bull.backoff := Some {| Bull.type := "exponential"; Bull.delay := 2000 |};
         Bull.removeOnComplete := None;
         Bull.removeOnFail := None |} q in
  (Ok tt, q').

End QueueService.

(** ** PriorityQueueService (priority-queue.service.ts) *)

Module PriorityQueueService.

(** The members every object literal inherits from [Object.prototype]. *)
Definition objectPrototype : list string :=
  [ "constructor"; "__defineGetter__"; "__defineSetter__"; "hasOwnProperty";
    "__lookupGetter__"; "__lookupSetter__"; "isPrototypeOf";
    "propertyIsEnumerable"; "toString"; "valueOf"; "__proto__";
    "toLocaleString" ].

(** A key that is not an own property of the literal: the lookup goes on
    to the prototype. *)
Definition inherited (key : string) : option Bull.Setting :=
  if existsb (String.eqb key) objectPrototype then Some (Bull.Member key)
  else None.

(** [priorityMap[p]]: the own properties of the literal, then the
    inherited members; a number or undefined as key names no property. *)
Definition priorityMap (p : option JsVal) : option Bull.Setting :=
  match p with
  | Some (JsStr "low") => Some (Bull.Number 1)
  | Some (JsStr "normal") => Some (Bull.Number 5)
  | Some (JsStr "high") => Some (Bull.Number 10)
  | Some (JsStr "critical") => Some (Bull.Number 20)
  | Some (JsStr key) => inherited key
  | _ => None
  end.

Definition attemptMap (p : option JsVal) : option Bull.Setting :=
  match p with
  | Some (JsStr "low") => Some (Bull.Number 2)
  | Some (JsStr "normal") => Some (Bull.Number 3)
  | Some (JsStr "high") => Some (Bull.Number 5)
  | Some (JsStr "critical") => Some (Bull.Number 10)
  | Some (JsStr key) => inherited key
  | _ => None
  end.

(** [attemptMap[priority] || 3]: an inherited member is truthy. *)
Definition getAttemptsForPriority (p : option JsVal) : Bull.Setting :=
  match attemptMap p with
  | Some (Bull.Number n) => if n =? 0 then Bull.Number 3 else Bull.Number n
  | Some (Bull.Member key) => Bull.Member key
  | None => Bull.Number 3
  end.

Definition addPriorityJob (data : JsObj) (q : Bull.Queue)
  : res unit * Bull.Queue :=
  let jobOptions :=
    {| Bull.priority := priorityMap (data !! "priority");
       Bull.attempts := Some (getAttemptsForPriority (data !! "priority"));
       Bull.backoff := Some {| Bull.type := "exponential"; Bull.delay := 2000 |};
       Bull.removeOnComplete := Some 100;
       Bull.removeOnFail := Some 50 |} in
  let (_, q') := Bull.add "analyze-pull-request" data jobOptions q in
  (Ok tt, q').

End PriorityQueueService.

(** ** JavaScript strings as code units

    The diff text is a sequence of UTF-16 code units, so that the white
    space of [trim] and of the regular expression class [\s] is the
    whole ECMAScript set. *)

Abbreviation jsstring := (list N).

Definition lit (s : string) : jsstring :=
  map N_of_ascii (list_ascii_of_string s).

Module JsString.

(** WhiteSpace and LineTerminator code units. *)
Definition isWhiteSpace (c : N) : bool :=
  ((9 <=? c) && (c <=? 13) || (c =? 32) || (c =? 160) || (c =? 5760)
   || (8192 <=? c) && (c <=? 8202) || (c =? 8232) || (c =? 8233)
   || (c =? 8239) || (c =? 8287) || (c =? 12288) || (c =? 65279))%N.

Fixpoint dropWhile (p : N -> bool) (s : jsstring) : jsstring :=
  match s with
  | [] => []
  | c :: t => if p c then dropWhile p t else s
  end.

Definition trimStart (s : jsstring) : jsstring := dropWhile isWhiteSpace s.
Definition trimEnd (s : jsstring) : jsstring :=
  rev (dropWhile isWhiteSpace (rev s)).
Definition trim (s : jsstring) : jsstring := trimEnd (trimStart s).

Fixpoint startsWith (p s : jsstring) : bool :=
  match p, s with
  | [], _ => true
  | _ :: _, [] => false
  | a :: p', b :: s' => (a =? b)%N && startsWith p' s'
  end.

(** The rest of [s] after the prefix [p]. *)
Fixpoint stripPrefix (p s : jsstring) : option jsstring :=
  match p, s with
  | [], _ => Some s
  | _ :: _, [] => None
  | a :: p', b :: s' => if (a =? b)%N then stripPrefix p' s' else None
  end.

Fixpoint includes (p s : jsstring) : bool :=
  startsWith p s ||
  match s with
  | [] => false
  | _ :: t => includes p t
  end.

(** [s.split(sep)] for a one-unit separator: always at least one piece. *)
Fixpoint split (sep : N) (s : jsstring) : list jsstring :=
  match s with
  | [] => [[]]
  | c :: t =>
      if (c =? sep)%N then [] :: split sep t
      else match split sep t with
           | l :: ls => (c :: l) :: ls
           | [] => [[c]]
           end
  end.

(** [s.substring(n)] *)
Definition substring (n : nat) (s : jsstring) : jsstring := drop n s.

(** The regular expressions of the service: a literal, or two literals
    with [\s*] between them. The second literal never starts with white
    space, so skipping all white space first loses no match. *)
Inductive regex :=
| Literal (s : jsstring)
| Spaced (before after : jsstring).

Definition matchHere (r : regex) (s : jsstring) : bool :=
  match r with
  | Literal l => startsWith l s
  | Spaced b a =>
      match stripPrefix b s with
      | Some rest => startsWith a (dropWhile isWhiteSpace rest)
      | None => false
      end
  end.

(** [r.test(s)]: a match at some position. *)
Fixpoint test (r : regex) (s : jsstring) : bool :=
  matchHere r s ||
  match s with
  | [] => false
  | _ :: t => test r t
  end.

End JsString.

(** ** CodeAnalysisService: types and heuristics (code-analysis.service.ts) *)

Inductive IssueType := bug | security | performance | style | best_practice.
Inductive Severity := low | medium | high | critical.

Record CodeIssue := {
  type : IssueType;
  severity : Severity;
  message : jsstring;
  line : option jsstring;
  suggestion : jsstring
}.

Record CodeAnalysisResult := {
  summary : jsstring;
  issues : list CodeIssue;
  positives : list jsstring
}.

Module Heuristics.
Import JsString.

Definition securityPatterns : list regex :=
  [ Spaced (lit "eval") (lit "(");
    Spaced (lit "innerHTML") (lit "=");
    Spaced (lit "document.write") (lit "(");
    Spaced (lit ".exec") (lit "(");
    Literal (lit "process.env.");
    Literal (lit "localStorage.");
    Literal (lit "sessionStorage.") ].

Definition containsSecurityRisk (content : jsstring) : bool :=
  existsb (fun pattern => test pattern content) securityPatterns.

Definition hasErrorHandling (lines : list jsstring) (currentIndex : nat)
  : bool :=
  let searchRange := 10%nat in
  let start := Nat.max 0 (currentIndex - searchRange) in
  let end_ := Nat.min (length lines) (currentIndex + searchRange) in
  existsb
    (fun l =>
       let line := trim l in
       includes (lit "try {") line || includes (lit "catch") line)
    (take (end_ - start) (drop start lines)).

(** [(i + 1).toString()] *)
Definition lineNumber (i : nat) : jsstring :=
  lit (toString (Z.of_nat (i + 1))).

(** One turn of the loop body: the issues pushed for [lines[i]]. *)
Definition checkLine (lines : list jsstring) (i : nat) (line : jsstring)
  : list CodeIssue :=
  if negb (startsWith (lit "+") line) then []
  else
    let content := trim (substring 1 line) in
    (if containsSecurityRisk content then
       [ {| type := security; severity := high;
            message := lit "Potential security risk detected";
            line := Some (lineNumber i);
            suggestion :=
              lit "Review for security implications and add proper validation" |} ]
     else [])
    ++
    (if includes (lit "TODO") content || includes (lit "FIXME") content then
       [ {| type := best_practice; severity := low;
            message := lit "TODO/FIXME comment found";
            line := Some (lineNumber i);
            suggestion := lit "Consider creating a proper issue tracker item" |} ]
     else [])
    ++
    (if includes (lit "console.log") content then
       [ {| type := best_practice; severity := low;
            message := lit "Console.log statement found";
            line := Some (lineNumber i);
            suggestion :=
              lit "Use proper logging framework instead of console.log" |} ]
     else [])
    ++
    (if includes (lit "await ") content && negb (hasErrorHandling lines i) then
       [ {| type := bug; severity := medium;
            message := lit "Async operation without error handling";
            line := Some (lineNumber i);
            suggestion := lit "Add try-catch block or proper error handling" |} ]
     else []).

(** The [for] loop, at index [i] with [rest = lines.slice(i)]. *)
Fixpoint scan (lines : list jsstring) (i : nat) (rest : list jsstring)
  : list CodeIssue :=
  match rest with
  | [] => []
  | line :: rest' => checkLine lines i line ++ scan lines (S i) rest'
  end.

Definition performHeuristicAnalysis (diff : jsstring) : list CodeIssue :=
  let lines := split 10%N diff in
  scan lines 0 lines.

End Heuristics.

(** ** The world the services run in *)

Inductive MetricStatus := success | error | timeout.

(** JobMetric entity (monitoring/entities/job-metric.entity). *)
Record JobMetric := {
  duration : Z;
  status : MetricStatus;
  metadata : option JsObj;
  timestamp : Z
}.

(** Review entity (review.entity.ts); [status] is one of pending,
    in_progress, completed, failed. *)
Record Review := {
  owner : option JsVal;
  repo : option JsVal;
  pullNumber : option JsVal;
  commitSha : option JsVal;
  reviewSummary : string;
  reviewStatus : string
}.

Definition withStatus (st : string) (r : Review) : Review :=
  {| owner := owner r; repo := repo r; pullNumber := pullNumber r;
     commitSha := commitSha r; reviewSummary := reviewSummary r;
     reviewStatus := st |}.

(** The stores shared by all workers, and the wall clock. A review's id is
    its position in the table (the generated uuid is opaque); a comment
    row is kept as the issue it was made from. [externalCalls] counts the
    calls made to the methods of the external services (OpenAIService,
    GithubService); a method may send more than one request. *)
Record World := {
  clock : Z;
  redis : gmap string Redis.entry;
  jobMetrics : list JobMetric;
  reviews : list Review;
  reviewComments : list (nat * CodeIssue);
  jobProgress : gmap Z Z;
  externalCalls : nat
}.

Definition setRedis (s : gmap string Redis.entry) (w : World) : World :=
  {| clock := clock w; redis := s; jobMetrics := jobMetrics w;
     reviews := reviews w; reviewComments := reviewComments w;
     jobProgress := jobProgress w; externalCalls := externalCalls w |}.

Definition setJobMetrics (ms : list JobMetric) (w : World) : World :=
  {| clock := clock w; redis := redis w; jobMetrics := ms;
     reviews := reviews w; reviewComments := reviewComments w;
     jobProgress := jobProgress w; externalCalls := externalCalls w |}.

Definition setReviews (rs : list Review) (w : World) : World :=
  {| clock := clock w; redis := redis w; jobMetrics := jobMetrics w;
     reviews := rs; reviewComments := reviewComments w;
     jobProgress := jobProgress w; externalCalls := externalCalls w |}.

Definition setReviewComments (cs : list (nat * CodeIssue)) (w : World) : World :=
  {| clock := clock w; redis := redis w; jobMetrics := jobMetrics w;
     reviews := reviews w; reviewComments := cs;
     jobProgress := jobProgress w; externalCalls := externalCalls w |}.

Definition setJobProgress (p : gmap Z Z) (w : World) : World :=
  {| clock := clock w; redis := redis w; jobMetrics := jobMetrics w;
     reviews := reviews w; reviewComments := reviewComments w;
     jobProgress := p; externalCalls := externalCalls w |}.

(** ** Asynchronous code: state and exceptions *)

Definition M (A : Type) : Type := World -> res A * World.

Definition ret {A} (a : A) : M A := fun w => (Ok a, w).

Definition bind {A B} (m : M A) (k : A -> M B) : M B :=
  fun w =>
    match m w with
    | (Ok a, w') => k a w'
    | (Throw e, w') => (Throw e, w')
    end.

Definition throw {A} (e : exn) : M A := fun w => (Throw e, w).

(** [try { m } catch (error) { h error }] *)
Definition tryCatch {A} (m : M A) (h : exn -> M A) : M A :=
  fun w =>
    match m w with
    | (Ok a, w') => (Ok a, w')
    | (Throw e, w') => h e w'
    end.

(** [try { m } finally { f }]: [f] runs on every exit; the completion of
    [m] stands unless [f] itself throws. *)
Definition tryFinally {A} (m : M A) (f : M unit) : M A :=
  fun w =>
    let (r, w') := m w in
    match f w' with
    | (Ok _, w'') => (r, w'')
    | (Throw e, w'') => (Throw e, w'')
    end.

Declare Scope js_scope.
Delimit Scope js_scope with js.
Notation "'let*' x ':=' m 'in' k" := (bind m (fun x => k))
  (at level 10, x name, m at level 100, k at level 200) : js_scope.
Notation "m ;; k" := (bind m (fun _ => k))
  (at level 100, k at level 200, right associativity) : js_scope.
Local Open Scope js_scope.

(** [Date.now()] *)
Definition dateNow : M Z := fun w => (Ok (clock w), w).

(** A call to a method of an external service: its outcome and the time
    it took, over all the requests the method sends. It reads the world
    but writes none of our stores. *)
Definition Ext (A : Type) : Type := World -> res A * N.

Definition requested (dt : N) (w : World) : World :=
  {| clock := clock w + Z.of_N dt; redis := redis w;
     jobMetrics := jobMetrics w; reviews := reviews w;
     reviewComments := reviewComments w; jobProgress := jobProgress w;
     externalCalls := S (externalCalls w) |}.

Definition call {A} (f : Ext A) : M A :=
  fun w => let (r, dt) := f w in (r, requested dt w).

(** [job.progress(n)] *)
Definition jobProgressTo (job : Bull.Job) (n : Z) : M unit :=
  fun w => (Ok tt, setJobProgress (<[Bull.id job := n]> (jobProgress w)) w).

(** The methods of ConcurrencyManagerService against the shared Redis.
    A command is carried out at the time of the call and the clock of the
    world stands still over it: the time a round trip to Redis takes is
    not part of the model, so durations are only ever stated as the
    difference of two clock readings. *)
Module Concurrency.
Import ConcurrencyManagerService.

Definition acquireLock (resource : string) (ttl : Z) : M bool :=
  fun w =>
    let (r, s) := acquireLock (clock w) resource ttl (redis w) in
    (r, setRedis s w).

Definition releaseLock (resource : string) : M unit :=
  fun w => (Ok tt, setRedis (releaseLock (clock w) resource (redis w)) w).

Definition checkRateLimit (identifier : string) (limit window : Z) : M bool :=
  fun w =>
    let (r, s) := checkRateLimit (clock w) identifier limit window (redis w) in
    (Ok r, setRedis s w).

End Concurrency.

(** ** CodeAnalysisService.analyzeCode (code-analysis.service.ts) *)

(** What [analysis.issues] can be: falsy, an array, or a truthy value
    that cannot be spread. *)
Inductive IssuesField :=
| IssuesFalsy
| IssuesArray (l : list CodeIssue)
| IssuesNotIterable.

(** The object returned by [OpenAIService.analyzeCodeDiff] (typed [any]). *)
Record AiAnalysis := {
  aiSummary : option jsstring;
  aiIssues : IssuesField;
  aiPositives : option (list jsstring)
}.

Module CodeAnalysisService.
Import JsString Heuristics.

Section WithOpenAI.

(** [this.openaiService.analyzeCodeDiff] *)
Variable analyzeCodeDiff : jsstring -> Ext AiAnalysis.

(** [[...(analysis.issues || []), ...heuristicIssues]] *)
Definition combine (analysis : AiAnalysis) (heuristicIssues : list CodeIssue)
  : M (list CodeIssue) :=
  match aiIssues analysis with
  | IssuesFalsy => ret ([] ++ heuristicIssues)
  | IssuesArray l => ret (l ++ heuristicIssues)
  | IssuesNotIterable => throw (Error "analysis.issues is not iterable")
  end.

(** [analysis.summary || 'Code analysis completed'] *)
Definition summaryOr (analysis : AiAnalysis) : jsstring :=
  match aiSummary analysis with
  | Some (c :: s) => c :: s
  | _ => lit "Code analysis completed"
  end.

Definition analyzeCode (diff : jsstring) : M CodeAnalysisResult :=
  tryCatch
    (if (length (trim diff) =? 0)%nat then
       ret {| summary := lit "No code changes detected";
              issues := [];
              positives := [] |}
     else
       let* analysis := call (analyzeCodeDiff diff) in
       let heuristicIssues := performHeuristicAnalysis diff in
       let* combinedIssues := combine analysis heuristicIssues in
       ret {| summary := summaryOr analysis;
              issues := combinedIssues;
              positives := default [] (aiPositives analysis) |})
    (fun caught =>
       let heuristicIssues := performHeuristicAnalysis diff in
       ret {| summary :=
                lit "Analysis completed with basic checks only (AI analysis unavailable)";
              issues := heuristicIssues;
              positives := [] |}).

End WithOpenAI.

End CodeAnalysisService.

(** ** DatabaseService (database.service.ts) *)

Module DatabaseService.

(** The error of PostgreSQL for a row without a value in a column that
    is declared without [nullable], as the QueryFailedError of
    [repository.save] carries it. *)
Definition quoted (s : string) : string :=
  String "034"%char s +:+ String "034"%char EmptyString.

Definition notNull (column : string) : exn :=
  Error ("null value in column " +:+ quoted column +:+ " of relation "
         +:+ quoted "reviews" +:+ " violates not-null constraint").

(** The review is saved with the column default [pending]; its id is
    returned. The columns owner, repo, pullNumber and commitSha of the
    entity are plain [@Column()], so not nullable: a row in which one of
    them is undefined is refused by the database, the first such column
    in the order of the entity being reported, and nothing is stored. A
    value that is present is stored as it is given; its conversion to the
    type of the column is not part of the model. *)
Definition createReview (owner repo pullNumber commitSha : option JsVal)
    (summary : string) : M nat :=
  fun w =>
    let review :=
      {| owner := owner; repo := repo; pullNumber := pullNumber;
         commitSha := commitSha; reviewSummary := summary;
         reviewStatus := "pending" |} in
    match owner, repo, pullNumber, commitSha with
    | None, _, _, _ => (Throw (notNull "owner"), w)
    | _, None, _, _ => (Throw (notNull "repo"), w)
    | _, _, None, _ => (Throw (notNull "pullNumber"), w)
    | _, _, _, None => (Throw (notNull "commitSha"), w)
    | Some _, Some _, Some _, Some _ =>
        (Ok (length (reviews w)), setReviews (reviews w ++ [review]) w)
    end.

(** [UPDATE reviews SET status = ... WHERE id = ...] *)
Definition updateReviewStatus (id : nat) (status : string) : M unit :=
  fun w => (Ok tt, setReviews (alter (withStatus status) id (reviews w)) w).

Definition addReviewComments (reviewId : nat) (issues : list CodeIssue)
  : M unit :=
  fun w =>
    (Ok tt,
     setReviewComments
       (reviewComments w ++ map (fun issue => (reviewId, issue)) issues) w).

Definition count (p : Review -> bool) (w : World) : Z :=
  Z.of_nat (length (List.filter p (reviews w))).

Record ReviewStats := {
  total : Z; completed : Z; failed : Z; successRate : Q
}.

Definition getReviewStats : M ReviewStats :=
  fun w =>
    let total := count (fun _ => true) w in
    let completed := count (fun r => String.eqb (reviewStatus r) "completed") w in
    let failed := count (fun r => String.eqb (reviewStatus r) "failed") w in
    (Ok {| total := total; completed := completed; failed := failed;
           successRate :=
             if 0 <? total
             then (inject_Z completed / inject_Z total * 100)%Q
             else 0%Q |}, w).

End DatabaseService.

(** ** MetricsService (monitoring/metrics.service.ts) *)

Module MetricsService.

Definition recordJobCompletion (duration : Z) (status : MetricStatus)
    (metadata : option JsObj) : M unit :=
  fun w =>
    let metric :=
      {| duration := duration; status := status; metadata := metadata;
         timestamp := clock w |} in
    (Ok tt, setJobMetrics (jobMetrics w ++ [metric]) w).

(** [new Date(Date.now() - hours * 60 * 60 * 1000)] *)
Definition since (now : Z) (hours : Q) : Q :=
  (inject_Z now - hours * 60 * 60 * 1000)%Q.

(** [timestamp: { $gte: since }] *)
Definition inWindow (now : Z) (hours : Q) (m : JobMetric) : bool :=
  Qle_bool (since now hours) (inject_Z (timestamp m)).

Definition isSuccess (m : JobMetric) : bool :=
  match status m with success => true | _ => false end.

Definition countTotal (now : Z) (hours : Q) (ms : list JobMetric) : Z :=
  Z.of_nat (length (List.filter (inWindow now hours) ms)).

Definition countSuccessful (now : Z) (hours : Q) (ms : list JobMetric) : Z :=
  Z.of_nat
    (length (List.filter (fun m => inWindow now hours m && isSuccess m) ms)).

(** The value computed by [getSuccessRate] from the two counts; the
    quotient is the exact rational, the rounding of the double division
    is not modelled. *)
Definition successRateOf (now : Z) (hours : Q) (ms : list JobMetric) : Q :=
  let total := countTotal now hours ms in
  let successful := countSuccessful now hours ms in
  if 0 <? total
  then (inject_Z successful / inject_Z total * 100)%Q
  else 0%Q.

Definition getSuccessRate (hours : Q) : M Q :=
  fun w => (Ok (successRateOf (clock w) hours (jobMetrics w)), w).

End MetricsService.

(** ** CodeReviewProcessor (queue/code-review.processor.ts) *)

Module CodeReviewProcessor.
Import DatabaseService.

Section WithCollaborators.

(** OpenAIService and GithubService, the external collaborators. *)
Variable analyzeCodeDiff : jsstring -> Ext AiAnalysis.
Variable getPullRequestDiff :
  option JsVal -> option JsVal -> option JsVal -> Ext jsstring.
Variable postReviewComments :
  option JsVal -> option JsVal -> option JsVal -> option JsVal ->
  list CodeIssue -> Ext unit.
Variable postReviewSummary :
  option JsVal -> option JsVal -> option JsVal -> option JsVal ->
  jsstring -> Ext unit.

(** The body of the [try] block, for the review record [review]. *)
Definition pipeline (job : Bull.Job) (review : nat) : M unit :=
  let data := Bull.data job in
  let owner := data !! "owner" in
  let repo := data !! "repo" in
  let pullNumber := data !! "pullNumber" in
  let headSha := data !! "headSha" in
  updateReviewStatus review "in_progress" ;;
  let* diff := call (getPullRequestDiff owner repo pullNumber) in
  let* analysis := CodeAnalysisService.analyzeCode analyzeCodeDiff diff in
  (match issues analysis with
   | [] => ret tt
   | _ :: _ =>
       addReviewComments review (issues analysis) ;;
       call (postReviewComments owner repo pullNumber headSha
               (issues analysis))
   end) ;;
  updateReviewStatus review "completed" ;;
  call (postReviewSummary owner repo pullNumber headSha (summary analysis)).

Definition handleCodeReview (job : Bull.Job) : M unit :=
  let data := Bull.data job in
  let owner := data !! "owner" in
  let repo := data !! "repo" in
  let pullNumber := data !! "pullNumber" in
  let headSha := data !! "headSha" in
  let* review :=
    createReview owner repo pullNumber headSha "Processing..." in
  tryCatch
    (pipeline job review)
    (fun caught =>
       updateReviewStatus review "failed" ;;
       throw caught).

End WithCollaborators.

End CodeReviewProcessor.

(** ** EnhancedCodeReviewProcessor (queue/enhanced-processor.service.ts) *)

Module EnhancedCodeReviewProcessor.

(** The body [processCodeReview] has in the article: a placeholder for
    the analysis logic of the earlier processor. *)
Definition placeholder (job : Bull.Job) : M (option JsObj) :=
  ret (Some {[ "status" := JsStr "completed" ]}).

Definition repoIdentifier (job : Bull.Job) : string :=
  tpl (Bull.data job !! "owner") +:+ "/" +:+ tpl (Bull.data job !! "repo").

(** [`pr:${repoIdentifier}:${pullNumber}`] *)
Definition lockResource (job : Bull.Job) : string :=
  "pr:" +:+ repoIdentifier job +:+ ":" +:+ tpl (Bull.data job !! "pullNumber").

(** [`github:${owner}`] *)
Definition rateIdentifier (job : Bull.Job) : string :=
  "github:" +:+ tpl (Bull.data job !! "owner").

Definition duplicate : JsObj :=
  {[ "status" := JsStr "duplicate";
     "message" := JsStr "Job already in progress" ]}.

Section WithPipeline.

Variable processCodeReview : Bull.Job -> M (option JsObj).

Definition handleCodeReview (job : Bull.Job) : M (option JsObj) :=
  let* startTime := dateNow in
  tryFinally
    (tryCatch
       (let* canProceed :=
          Concurrency.checkRateLimit (rateIdentifier job) 100 3600 in
        if negb canProceed then throw (Error "Rate limit exceeded")
        else
          let* lockAcquired :=
            Concurrency.acquireLock (lockResource job) 300000 in
          if negb lockAcquired then ret (Some duplicate)
          else
            jobProgressTo job 10 ;;
            let* result := processCodeReview job in
            let* finished := dateNow in
            let duration := finished - startTime in
            MetricsService.recordJobCompletion duration success None ;;
            jobProgressTo job 100 ;;
            ret result)
       (fun caught =>
          let* finished := dateNow in
          let duration := finished - startTime in
          MetricsService.recordJobCompletion duration error None ;;
          throw caught))
    (Concurrency.releaseLock (lockResource job)).

End WithPipeline.

End EnhancedCodeReviewProcessor.

(** ** DashboardService.calculateHealthScore (monitoring/dashboard.service.ts) *)

Inductive Health := healthy | warning | critical_health.

Record QueueStats := {
  waiting : Z; active : Z; completedJobs : Z; failedJobs : Z; delayed : Z
}.

(** [x < y] on numbers. *)
Definition Qltb (x y : Q) : bool := negb (Qle_bool y x).

Module DashboardService.

Definition calculateHealthScore (successRate avgProcessingTime : Q)
    (queueStats : QueueStats) : Health :=
  if Qltb successRate 80 || Qltb 300000 avgProcessingTime
     || (100 <? waiting queueStats)
  then critical_health
  else if Qltb successRate 95 || Qltb 120000 avgProcessingTime
          || (50 <? waiting queueStats)
  then warning
  else healthy.

End DashboardService.

(** ** AutoScalerService (scaling/auto-scaler.service.ts) *)

Module AutoScalerService.

Definition maxWorkers : Z := 10.
Definition minWorkers : Z := 1.

Definition calculateOptimalWorkers (currentWorkers : Z)
    (queueDepth avgProcessingTime : Z) : Z :=
  if 50 <? queueDepth then
    Z.min (currentWorkers + 2) maxWorkers
  else if (180000 <? avgProcessingTime) && (10 <? queueDepth) then
    Z.min (currentWorkers + 1) maxWorkers
  else if (queueDepth =? 0) && (minWorkers <? currentWorkers) then
    Z.max (currentWorkers - 1) minWorkers
  else
    currentWorkers.

(** One scheduled evaluation: [scaleWorkers] stores the recommendation
    (storing an unchanged count is the skipped call). *)
Definition evaluateScaling (currentWorkers : Z)
    (queueDepth avgProcessingTime : Z) : Z :=
  let recommendedWorkers :=
    calculateOptimalWorkers currentWorkers queueDepth avgProcessingTime in
  if negb (recommendedWorkers =? currentWorkers) then recommendedWorkers
  else currentWorkers.

End AutoScalerService.

(** ** Workers sharing the lock manager

    Runs of the lock manager as a sequence of timed calls issued by any
    number of workers. Besides the Redis store, the state records who was
    told [true] by [acquireLock] and until when that lock lives; a
    release of the resource, by anyone, ends the holding. *)

Module LockSystem.
Import Redis ConcurrencyManagerService.

(** A worker whose acquire returned true and who has not released since:
    it takes itself to hold the resource until its TTL has elapsed. *)
Record Holder := { worker : nat; resource : string; until : Z }.

Record State := {
  store : gmap string entry;
  now : Z;
  holders : list Holder
}.

(** The calls of the workers. releaseLock takes the resource only: the
    worker is named to tell whose holding ends, Redis does not see it. *)
Inductive Op :=
| Acquire (w : nat) (r : string) (ttl : Z)
| Release (w : nat) (r : string)
| CheckRate (identifier : string) (limit window : Z).

Definition step (t : Z) (o : Op) (st : State) : State :=
  match o with
  | Acquire w r ttl =>
      match acquireLock t r ttl (store st) with
      | (Ok true, s') =>
          {| store := s'; now := t;
             holders := {| worker := w; resource := r; until := t + ttl |}
                          :: holders st |}
      | (_, s') => {| store := s'; now := t; holders := holders st |}
      end
  | Release w r =>
      {| store := releaseLock t r (store st); now := t;
         holders :=
           List.filter
             (fun h => negb ((worker h =? w)%nat && String.eqb (resource h) r))
             (holders st) |}
  | CheckRate identifier limit window =>
      {| store := snd (checkRateLimit t identifier limit window (store st));
         now := t; holders := holders st |}
  end.

(** States reached from an empty Redis by calls whose times never go
    back. *)
Inductive reachable : State -> Prop :=
| reach_init t0 :
    reachable {| store := ∅; now := t0; holders := [] |}
| reach_step st t o :
    reachable st -> now st <= t -> reachable (step t o st).

(** Who holds resource [r] at time [t]. *)
Definition holdersOf (t : Z) (r : string) (hs : list Holder) : list Holder :=
  List.filter (fun h => String.eqb (resource h) r && (t <=? until h)) hs.

(** A release is the holder's own when the worker that calls it holds
    the resource at that time. *)
Definition ownRelease (t : Z) (o : Op) (st : State) : Prop :=
  match o with
  | Release w r =>
      exists h, In h (holdersOf t r (holders st)) /\ worker h = w
  | _ => True
  end.

(** States reached when workers release only what they hold. *)
Inductive orderly : State -> Prop :=
| orderly_init t0 :
    orderly {| store := ∅; now := t0; holders := [] |}
| orderly_step st t o :
    orderly st -> now st <= t -> ownRelease t o st -> orderly (step t o st).

(** Every recorded holding that is still alive has its lock record in
    the store. *)
Definition recorded (st : State) : Prop :=
  forall h, In h (holders st) -> now st <= until h ->
    exists v,
      store st !! lockKey (resource h) = Some (Entry v (Some (until h))).

(** Runs on the bare store, for calls between two acquisitions. *)
Definition releases (r : string) (o : Op) : bool :=
  match o with
  | Release _ r' => String.eqb r' r
  | _ => false
  end.

Fixpoint run (calls : list (Z * Op)) (s : gmap string entry)
  : gmap string entry :=
  match calls with
  | [] => s
  | (t, o) :: rest =>
      run rest (store (step t o {| store := s; now := t; holders := [] |}))
  end.

End LockSystem.

(** ** Vocabulary of the specification *)

(** The two threshold conditions of the health classification. *)
Definition isCritical (sr avg : Q) (qs : QueueStats) : Prop :=
  (sr < 80)%Q \/ (300000 < avg)%Q \/ 100 < waiting qs.

Definition isWarning (sr avg : Q) (qs : QueueStats) : Prop :=
  (sr < 95)%Q \/ (120000 < avg)%Q \/ 50 < waiting qs.

(** A queue with nothing in it. *)
Definition idle : QueueStats :=
  {| waiting := 0; active := 0; completedJobs := 0; failedJobs := 0;
     delayed := 0 |}.

(** A world with empty stores at time [t]. *)
Definition freshWorld (t : Z) : World :=
  {| clock := t; redis := ∅; jobMetrics := []; reviews := [];
     reviewComments := []; jobProgress := ∅; externalCalls := 0 |}.

(** [checkRateLimit] called once at each of [times], oldest first: the
    answers and the final store. *)
Fixpoint checkRateLimitAt (times : list Z) (identifier : string)
    (limit window : Z) (s : gmap string Redis.entry)
  : list bool * gmap string Redis.entry :=
  match times with
  | [] => ([], s)
  | t :: rest =>
      let (r, s') :=
        ConcurrencyManagerService.checkRateLimit t identifier limit window s in
      let (rs, s'') := checkRateLimitAt rest identifier limit window s' in
      (r :: rs, s'')
  end.

(** A diff that is empty or holds white space only. *)
Definition blank (diff : jsstring) : Prop :=
  Forall (fun c => JsString.isWhiteSpace c = true) diff.

(** The two fixed results of [analyzeCode]. *)
Definition noChanges : CodeAnalysisResult :=
  {| summary := lit "No code changes detected"; issues := []; positives := [] |}.

Definition basicChecksOnly (diff : jsstring) : CodeAnalysisResult :=
  {| summary :=
       lit "Analysis completed with basic checks only (AI analysis unavailable)";
     issues := Heuristics.performHeuristicAnalysis diff;
     positives := [] |}.

(** An action leaves the observation [f] of the world as it found it. *)
Definition preserves {A B} (f : World -> B) (m : M A) : Prop :=
  forall w, f (snd (m w)) = f w.

(** The metric an enhanced handler started at [started] records when it
    catches an exception at [caughtAt]. *)
Definition errorMetric (started caughtAt : Z) : JobMetric :=
  {| duration := caughtAt - started; status := error; metadata := None;
     timestamp := caughtAt |}.

(** The enhanced processor with the earlier processor as its pipeline, as
    the placeholder's comment proposes. *)
Definition composedHandler
    (analyzeCodeDiff : jsstring -> Ext AiAnalysis)
    (getPullRequestDiff :
       option JsVal -> option JsVal -> option JsVal -> Ext jsstring)
    (postReviewComments :
       option JsVal -> option JsVal -> option JsVal -> option JsVal ->
       list CodeIssue -> Ext unit)
    (postReviewSummary :
       option JsVal -> option JsVal -> option JsVal -> option JsVal ->
       jsstring -> Ext unit)
    (job : Bull.Job) : M (option JsObj) :=
  EnhancedCodeReviewProcessor.handleCodeReview
    (fun job =>
       bind (CodeReviewProcessor.handleCodeReview analyzeCodeDiff
               getPullRequestDiff postReviewComments postReviewSummary job)
            (fun _ => ret None))
    job.

(** A job and collaborators for the sample runs: GitHub refuses the diff. *)
Definition sampleJob : Bull.Job :=
  {| Bull.id := 2; Bull.name := "analyze-pull-request";
     Bull.data := {[ "owner" := JsStr "octo"; "repo" := JsStr "app";
                     "pullNumber" := JsNum 7; "headSha" := JsStr "abc";
                     "baseSha" := JsStr "def" ]};
     Bull.opts := {| Bull.priority := None; Bull.attempts := Some (Bull.Number 3);
                     Bull.backoff := None; Bull.removeOnComplete := None;
                     Bull.removeOnFail := None |} |}.

Definition fetchError : exn := Error "Failed to fetch pull request diff".

Definition diffUnavailable
  : option JsVal -> option JsVal -> option JsVal -> Ext jsstring :=
  fun _ _ _ _ => (Throw fetchError, 40%N).

Definition aiUnavailable : jsstring -> Ext AiAnalysis :=
  fun _ _ => (Throw (Error "Failed to analyze code with OpenAI"), 250%N).

Definition postNothing
  : option JsVal -> option JsVal -> option JsVal -> option JsVal ->
    list CodeIssue -> Ext unit :=
  fun _ _ _ _ _ _ => (Ok tt, 30%N).

Definition postNoSummary
  : option JsVal -> option JsVal -> option JsVal -> option JsVal ->
    jsstring -> Ext unit :=
  fun _ _ _ _ _ _ => (Ok tt, 30%N).

(** A world in which the review of the sample pull request is under way. *)
Definition reviewUnderWay : World :=
  {| clock := 1000; redis := ∅; jobMetrics := [];
     reviews :=
       [ {| owner := Some (JsStr "octo"); repo := Some (JsStr "app");
            pullNumber := Some (JsNum 7); commitSha := Some (JsStr "abc");
            reviewSummary := "Processing..."; reviewStatus := "in_progress" |} ];
     reviewComments := []; jobProgress := ∅; externalCalls := 0 |}.

Definition sampleDiff : jsstring := lit "+ console.log(1)".

Definition diffAvailable
  : option JsVal -> option JsVal -> option JsVal -> Ext jsstring :=
  fun _ _ _ _ => (Ok sampleDiff, 40%N).

(** ** Further vocabulary *)

(** The world in which the enhanced processor starts its pipeline, when
    the rate limit lets the job through and the lock is free: the request
    is counted, the lock is taken for five minutes, progress is 10. *)
Definition admitted (job : Bull.Job) (w : World) : World :=
  let counted :=
    snd (ConcurrencyManagerService.checkRateLimit (clock w)
           (EnhancedCodeReviewProcessor.rateIdentifier job) 100 3600 (redis w)) in
  let locked :=
    <[ConcurrencyManagerService.lockKey
        (EnhancedCodeReviewProcessor.lockResource job)
      := Redis.Entry (clock w) (Some (clock w + 300000))]> counted in
  setJobProgress (<[Bull.id job := 10]> (jobProgress w)) (setRedis locked w).

(** A payload whose review row the table takes: owner, repo and head
    commit are strings and the pull request number is an integer of the
    32 bits of the column. *)
Definition isString (v : option JsVal) : bool :=
  match v with Some (JsStr _) => true | _ => false end.

Definition isInt32 (v : option JsVal) : bool :=
  match v with
  | Some (JsNum n) => (-2147483648 <=? n) && (n <=? 2147483647)
  | _ => false
  end.

Definition storable (data : JsObj) : bool :=
  isString (data !! "owner") && isString (data !! "repo")
  && isInt32 (data !! "pullNumber") && isString (data !! "headSha").

(** A payload that lacks one of the four values of the review row. *)
Definition incomplete (data : JsObj) : Prop :=
  data !! "owner" = None \/ data !! "repo" = None
  \/ data !! "pullNumber" = None \/ data !! "headSha" = None.

(** The metric recorded for a job started at [started] that succeeded at
    [finished]. *)
Definition successMetric (started finished : Z) : JobMetric :=
  {| duration := finished - started; status := success; metadata := None;
     timestamp := finished |}.

(** A world in which the owner of the sample job has used up the hourly
    budget. *)
Definition budgetSpent : World :=
  {| clock := 1000;
     redis := {[ "rate_limit:github:octo" := Redis.Entry 100 (Some 3600500) ]};
     jobMetrics := []; reviews := []; reviewComments := [];
     jobProgress := ∅; externalCalls := 0 |}.

(** GitHub answers with a diff of two spaces. *)
Definition diffBlank
  : option JsVal -> option JsVal -> option JsVal -> Ext jsstring :=
  fun _ _ _ _ => (Ok (lit "  "), 40%N).

(** An AI answer with one issue of its own. *)
Definition aiIssue : CodeIssue :=
  {| type := performance; severity := medium;
     message := lit "Loop allocates on every turn";
     line := Some (lit "1");
     suggestion := lit "Hoist the allocation" |}.

Definition aiAnswers : jsstring -> Ext AiAnalysis :=
  fun _ _ =>
    (Ok {| aiSummary := Some (lit "Looks fine");
           aiIssues := IssuesArray [aiIssue];
           aiPositives := None |}, 250%N).

(** ** MetricsService: the other queries (monitoring/metrics.service.ts) *)

Module MetricsQueries.
Import MetricsService.

(** [metric.timestamp > :since] *)
Definition after (now : Z) (hours : Q) (m : JobMetric) : bool :=
  negb (Qle_bool (inject_Z (timestamp m)) (since now hours)).

(** The rows [AVG(metric.duration)] ranges over. *)
Definition successfulDurations (now : Z) (hours : Q) (ms : list JobMetric)
  : list Z :=
  map duration (List.filter (fun m => after now hours m && isSuccess m) ms).

Definition sum (ds : list Z) : Z := fold_right Z.add 0 ds.

(** [AVG]: NULL over no row. *)
Definition avg (ds : list Z) : option Q :=
  match ds with
  | [] => None
  | _ :: _ => Some (inject_Z (sum ds) / inject_Z (Z.of_nat (length ds)))%Q
  end.

(** [parseFloat(result.avgDuration) || 0] *)
Definition averageOf (now : Z) (hours : Q) (ms : list JobMetric) : Q :=
  match avg (successfulDurations now hours ms) with
  | Some a => a
  | None => 0%Q
  end.

Definition getAverageProcessingTime (hours : Q) : M Q :=
  fun w => (Ok (averageOf (clock w) hours (jobMetrics w)), w).

(** [count / hours]; [None] stands for the Infinity or NaN of a division
    by zero. *)
Definition throughputOf (now : Z) (hours : Q) (ms : list JobMetric)
  : option Q :=
  if Qeq_bool hours 0 then None
  else Some (inject_Z (countTotal now hours ms) / hours)%Q.

Definition getThroughput (hours : Q) : M (option Q) :=
  fun w => (Ok (throughputOf (clock w) hours (jobMetrics w)), w).

End MetricsQueries.

(** [Math.round(x)]: the nearest integer, halves upwards. *)
Definition mathRound (x : Q) : Z := Qfloor (x + (1 # 2)).

(** ** DashboardService.getSystemHealth (monitoring/dashboard.service.ts) *)

Module Dashboard.

(** What Bull answers to getWaiting, getActive, getCompleted, getFailed
    and getDelayed. *)
Record JobLists := {
  waitingList : list Bull.Job;
  activeList : list Bull.Job;
  completedList : list Bull.Job;
  failedList : list Bull.Job;
  delayedList : list Bull.Job
}.

(** The object of getQueueStatistics: the five counts and [total]. *)
Record QueueStatistics := { counts : QueueStats; total : Z }.

Definition getQueueStatistics (q : JobLists) : QueueStatistics :=
  let waiting := Z.of_nat (length (waitingList q)) in
  let active := Z.of_nat (length (activeList q)) in
  let completed := Z.of_nat (length (completedList q)) in
  let failed := Z.of_nat (length (failedList q)) in
  let delayed := Z.of_nat (length (delayedList q)) in
  {| counts := {| waiting := waiting; active := active;
                  completedJobs := completed; failedJobs := failed;
                  delayed := delayed |};
     total := waiting + active + completed + failed |}.

Record Performance := {
  avgProcessingTime : Z;
  successRate : Q;
  throughput : Q
}.

(** The object of getSystemHealth; [checkedAt] is the instant its ISO
    timestamp renders. *)
Record SystemHealth := {
  checkedAt : Z;
  queue : QueueStatistics;
  performance : Performance;
  reviewStats : DatabaseService.ReviewStats;
  health : Health
}.

Definition getSystemHealth (q : JobLists) : M SystemHealth :=
  fun w =>
    let queueStats := getQueueStatistics q in
    let avgProcessingTime :=
      MetricsQueries.averageOf (clock w) 24 (jobMetrics w) in
    let successRate :=
      MetricsService.successRateOf (clock w) 24 (jobMetrics w) in
    let throughput :=
      match MetricsQueries.throughputOf (clock w) 1 (jobMetrics w) with
      | Some t => t
      | None => 0%Q
      end in
    match DatabaseService.getReviewStats w with
    | (Ok reviewStats, _) =>
        (Ok {| checkedAt := clock w;
               queue := queueStats;
               performance :=
                 {| avgProcessingTime := mathRound avgProcessingTime;
                    successRate :=
                      (inject_Z (mathRound (successRate * 100)) / 100)%Q;
                    throughput :=
                      (inject_Z (mathRound (throughput * 100)) / 100)%Q |};
               reviewStats := reviewStats;
               health :=
                 DashboardService.calculateHealthScore successRate
                   avgProcessingTime (counts queueStats) |}, w)
    | (Throw e, _) => (Throw e, w)
    end.

End Dashboard.

(** ** AlertingService (monitoring/alerting.service.ts) *)

Module AlertingService.
Import Dashboard.

(** The severities 'info', 'warning' and 'critical'. *)
Inductive Level := levelInfo | levelWarning | levelCritical.

(** An alert as sendAlert receives it; the message text, which renders
    the numbers, is left out. *)
Record Alert := { title : string; level : Level }.

Definition checkSpecificThresholds (h : SystemHealth) : list Alert :=
  (if 200 <? waiting (counts (queue h))
   then [ {| title := "High queue depth"; level := levelWarning |} ] else [])
  ++ (if 300000 <? avgProcessingTime (performance h)
      then [ {| title := "Slow processing"; level := levelWarning |} ] else [])
  ++ (if Qltb (successRate (performance h)) 90
      then [ {| title := "Low success rate"; level := levelCritical |} ] else []).

(** The alerts one health check sends, in order. *)
Definition alertsFor (h : SystemHealth) : list Alert :=
  match health h with
  | critical_health => [ {| title := "System Critical"; level := levelCritical |} ]
  | warning => [ {| title := "System Warning"; level := levelWarning |} ]
  | healthy => []
  end ++ checkSpecificThresholds h.

Definition checkSystemHealth (q : JobLists) : M (list Alert) :=
  tryCatch
    (let* h := getSystemHealth q in ret (alertsFor h))
    (fun _ =>
       ret [ {| title := "Health check failure"; level := levelCritical |} ]).

End AlertingService.

(** ** AutoScalerService over time *)

(** The worker count after the scheduled evaluations have seen, one
    after the other, the given queue depths and average times. *)
Fixpoint scalingRun (currentWorkers : Z) (observations : list (Z * Z)) : Z :=
  match observations with
  | [] => currentWorkers
  | (queueDepth, avgProcessingTime) :: rest =>
      scalingRun
        (AutoScalerService.evaluateScaling currentWorkers queueDepth
           avgProcessingTime)
        rest
  end.

(** One evaluation as the service runs it, from the health snapshot. *)
Definition evaluateScalingOn (h : Dashboard.SystemHealth) (currentWorkers : Z)
  : Z :=
  AutoScalerService.evaluateScaling currentWorkers
    (waiting (Dashboard.counts (Dashboard.queue h)))
    (Dashboard.avgProcessingTime (Dashboard.performance h)).

(** ** WebhookService (webhook/webhook.service.ts) *)

(** [crypto.timingSafeEqual(Buffer.from(a), Buffer.from(b))]: a missing
    first argument and buffers of different length are errors. *)
Definition timingSafeEqual (a : option string) (b : string) : res bool :=
  match a with
  | None =>
      Throw (Error "The first argument must be of type string or an instance of Buffer, ArrayBuffer, or Array or an Array-like Object. Received undefined")
  | Some a =>
      if Nat.eqb (String.length a) (String.length b)
      then Ok (String.eqb a b)
      else Throw (Error "Input buffers must have the same byte length")
  end.

(** Reading property [prop] of [undefined]. *)
Definition typeError (prop : string) : exn :=
  Error ("Cannot read properties of undefined (reading '" +:+ prop +:+ "')").

Module WebhookService.

(** The parts of a GitHub pull request event the service reads; a part
    that is missing is [None]. *)
Record Ref := { sha : option JsVal }.
Record PullRequest := {
  number : option JsVal;
  head : option Ref;
  base : option Ref
}.
Record Owner := { login : option JsVal }.
Record Repository := { owner : option Owner; name : option JsVal }.
Record Payload := {
  action : option string;
  pull_request : option PullRequest;
  repository : option Repository
}.

(** The object literal as Bull stores it: a property whose value is
    undefined is not stored. *)
Fixpoint object (props : list (string * option JsVal)) : JsObj :=
  match props with
  | [] => ∅
  | (k, Some v) :: rest => <[k := v]> (object rest)
  | (_, None) :: rest => object rest
  end.

(** [queue.add(name, data)] without options. *)
Definition noOptions : Bull.JobOptions :=
  {| Bull.priority := None; Bull.attempts := None; Bull.backoff := None;
     Bull.removeOnComplete := None; Bull.removeOnFail := None |}.

Definition handlePullRequestEvent (payload : Payload) (q : Bull.Queue)
  : res unit * Bull.Queue :=
  let pullRequest := pull_request payload in
  match repository payload with
  | None => (Throw (typeError "owner"), q)
  | Some repository =>
      match owner repository with
      | None => (Throw (typeError "login"), q)
      | Some owner =>
          match pullRequest with
          | None => (Throw (typeError "number"), q)
          | Some pullRequest =>
              match head pullRequest with
              | None => (Throw (typeError "sha"), q)
              | Some head =>
                  match base pullRequest with
                  | None => (Throw (typeError "sha"), q)
                  | Some base =>
                      let data :=
                        object [ ("owner", login owner);
                                 ("repo", name repository);
                                 ("pullNumber", number pullRequest);
                                 ("headSha", sha head);
                                 ("baseSha", sha base) ] in
                      let (_, q') :=
                        Bull.add "analyze-pull-request" data noOptions q in
                      (Ok tt, q')
                  end
              end
          end
      end
  end.

(** [payload.action === 'opened' || payload.action === 'synchronize'] *)
Definition isPullRequestEvent (action : option string) : bool :=
  match action with
  | Some a => String.eqb a "opened" || String.eqb a "synchronize"
  | None => false
  end.

Section WithSecret.

(** [process.env.GITHUB_WEBHOOK_SECRET], and the hex HMAC-SHA256 of
    [JSON.stringify(payload)] under a secret. *)
Variable secret : option string.
Variable hmac : string -> Payload -> string.

Definition verifySignature (payload : Payload) (signature : option string)
  : res bool :=
  match secret with
  | None | Some EmptyString => Ok true
  | Some secret =>
      let digest := "sha256=" +:+ hmac secret payload in
      timingSafeEqual signature digest
  end.

Definition processGithubWebhook (payload : Payload)
    (signature : option string) (q : Bull.Queue)
  : res string * Bull.Queue :=
  match verifySignature payload signature with
  | Throw e => (Throw e, q)
  | Ok false => (Throw (Error "Invalid webhook signature"), q)
  | Ok true =>
      if isPullRequestEvent (action payload) then
        match handlePullRequestEvent payload q with
        | (Ok _, q') => (Ok "Webhook processed successfully", q')
        | (Throw e, q') => (Throw e, q')
        end
      else (Ok "Webhook processed successfully", q)
  end.

End WithSecret.

End WebhookService.

(** ** SecurityService (security/security.service.ts) *)

Module SecurityService.

Section WithSecret.

Variable secret : option string.
(** The hex HMAC-SHA256 of a text under a secret. *)
Variable hmac : string -> string -> string.

Definition validateWebhookSignature (payload : string)
    (signature : option string) : res bool :=
  match secret with
  | None | Some EmptyString => Ok false
  | Some secret =>
      let expectedSignature := "sha256=" +:+ hmac secret payload in
      timingSafeEqual signature expectedSignature
  end.

End WithSecret.

(** The five characters of the class in the regular expression: less
    than, greater than, double quote, apostrophe and ampersand. *)
Definition dangerous (c : N) : bool :=
  ((c =? 60) || (c =? 62) || (c =? 34) || (c =? 39) || (c =? 38))%N.

(** [input.replace] with the global regular expression of that class and
    the empty replacement. *)
Definition sanitizeUserInput (input : jsstring) : jsstring :=
  List.filter (fun c => negb (dangerous c)) input.

End SecurityService.

(** A pull request event and a stand-in for the HMAC, for the sample
    runs. *)
Definition sampleEvent : WebhookService.Payload :=
  {| WebhookService.action := Some "opened";
     WebhookService.pull_request :=
       Some {| WebhookService.number := Some (JsNum 7);
               WebhookService.head :=
                 Some {| WebhookService.sha := Some (JsStr "abc") |};
               WebhookService.base :=
                 Some {| WebhookService.sha := Some (JsStr "def") |} |};
     WebhookService.repository :=
       Some {| WebhookService.owner :=
                 Some {| WebhookService.login := Some (JsStr "octo") |};
               WebhookService.name := Some (JsStr "app") |} |}.

Definition closedEvent : WebhookService.Payload :=
  {| WebhookService.action := Some "closed";
     WebhookService.pull_request := WebhookService.pull_request sampleEvent;
     WebhookService.repository := WebhookService.repository sampleEvent |}.

Definition sampleHmac : string -> WebhookService.Payload -> string :=
  fun secret _ => "5f2b" +:+ secret.

(** ** GithubService (github/github.service.ts) *)

Module GithubService.
Import JsString.

Definition isDigit (c : N) : bool := ((48 <=? c) && (c <=? 57))%N.

Fixpoint takeWhile (p : N -> bool) (s : jsstring) : jsstring :=
  match s with
  | [] => []
  | c :: t => if p c then c :: takeWhile p t else []
  end.

(** The value of a digit in a radix, if it is one. *)
Definition digitValue (radix : Z) (c : N) : option Z :=
  let v :=
    if ((48 <=? c) && (c <=? 57))%N then Some (Z.of_N c - 48)
    else if ((97 <=? c) && (c <=? 122))%N then Some (Z.of_N c - 87)
    else if ((65 <=? c) && (c <=? 90))%N then Some (Z.of_N c - 55)
    else None in
  match v with
  | Some d => if d <? radix then Some d else None
  | None => None
  end.

Definition isDigitIn (radix : Z) (c : N) : bool :=
  match digitValue radix c with Some _ => true | None => false end.

Definition numberOf (radix : Z) (ds : jsstring) : Z :=
  fold_left
    (fun acc c =>
       acc * radix + match digitValue radix c with Some d => d | None => 0 end)
    ds 0.

(** [parseInt(s)]: leading white space, a sign, then hexadecimal digits
    after 0x or 0X and decimal digits otherwise; [None] is NaN. Integers
    are exact: the rounding of values beyond 2^53 is not modelled. *)
Definition parseInt (s : jsstring) : option Z :=
  let s := dropWhile isWhiteSpace s in
  let '(negative, s) :=
    match s with
    | 45%N :: t => (true, t)
    | 43%N :: t => (false, t)
    | _ => (false, s)
    end in
  let '(radix, s) :=
    match s with
    | 48%N :: x :: t =>
        if ((x =? 120) || (x =? 88))%N then (16, t) else (10, s)
    | _ => (10, s)
    end in
  match takeWhile (isDigitIn radix) s with
  | [] => None
  | ds => Some (if negative then - numberOf radix ds else numberOf radix ds)
  end.

(** The group captured by the match of a plus sign followed by one or
    more decimal digits, at its first occurrence in the line. *)
Fixpoint plusDigits (line : jsstring) : option jsstring :=
  match line with
  | [] => None
  | c :: t =>
      if ((c =? 43)%N && match t with d :: _ => isDigit d | [] => false end)
      then Some (takeWhile isDigit t)
      else plusDigits t
  end.

(** The loop of isLineInFile over the lines of the patch; a number that
    is [None] is NaN. *)
Fixpoint walk (lines : list jsstring) (currentLine : option Z)
    (lineNumber : option Z) : bool :=
  match lines with
  | [] => false
  | line :: rest =>
      if startsWith (lit "@@") line then
        match plusDigits line with
        | Some digits => walk rest (parseInt digits) lineNumber
        | None => walk rest currentLine lineNumber
        end
      else if startsWith (lit "+") line || startsWith (lit " ") line then
        let currentLine := Z.succ <$> currentLine in
        if match currentLine, lineNumber with
           | Some c, Some n => c =? n
           | _, _ => false
           end
        then true
        else walk rest currentLine lineNumber
      else walk rest currentLine lineNumber
  end.

Definition isLineInFile (patch : jsstring) (lineNumber : option Z) : bool :=
  let lines := split 10 patch in
  walk lines (Some 0) lineNumber.

(** [issue.type.toUpperCase()] and [issue.severity] as text. *)
Definition typeUpper (t : IssueType) : jsstring :=
  match t with
  | bug => lit "BUG"
  | security => lit "SECURITY"
  | performance => lit "PERFORMANCE"
  | style => lit "STYLE"
  | best_practice => lit "BEST-PRACTICE"
  end.

Definition severityText (s : Severity) : jsstring :=
  match s with
  | low => lit "low"
  | medium => lit "medium"
  | high => lit "high"
  | critical => lit "critical"
  end.

Definition formatReviewComment (issue : CodeIssue) : jsstring :=
  lit "**" ++ typeUpper (type issue) ++ lit "** ("
  ++ severityText (severity issue) ++ lit ")" ++ [10; 10]%N
  ++ message issue ++ [10; 10]%N
  ++ lit "**Suggestion:** " ++ suggestion issue.

(** A changed file as listFiles reports it; binary files have no patch. *)
Record File := { filename : jsstring; patch : option jsstring }.

Record Comment := { path : jsstring; commentLine : option Z; body : jsstring }.

(** [issue.line && issue.type !== 'style'] *)
Definition commentable (issue : CodeIssue) : bool :=
  match line issue with
  | Some (_ :: _) => match type issue with style => false | _ => true end
  | _ => false
  end.

(** [files.data.find(f => f.patch && isLineInFile(f.patch, n))] *)
Definition findFile (files : list File) (n : option Z) : option File :=
  List.find
    (fun f =>
       match patch f with
       | Some (c :: p) => isLineInFile (c :: p) n
       | _ => false
       end)
    files.

(** The comments collected by the loop over the issues. *)
Fixpoint collectComments (files : list File) (issues : list CodeIssue)
  : list Comment :=
  match issues with
  | [] => []
  | issue :: rest =>
      (if commentable issue then
         match findFile files (parseInt (default (lit "0") (line issue))) with
         | Some file =>
             [ {| path := filename file;
                  commentLine := parseInt (default [] (line issue));
                  body := formatReviewComment issue |} ]
         | None => []
         end
       else [])
      ++ collectComments files rest
  end.

(** What is sent to [octokit.pulls.createReview]. *)
Inductive ReviewRequest :=
| RequestChanges (comments : list Comment)
| CommentOnly (body : jsstring).

Definition summaryBody (summary : jsstring) : jsstring :=
  lit "## AI Code Review Summary" ++ [10; 10]%N ++ summary ++ [10; 10]%N
  ++ lit "---" ++ [10]%N
  ++ lit "*This review was generated automatically by the AI Code Review Agent*".

Section WithOctokit.

(** The three Octokit requests. *)
Variable pullsGet :
  option JsVal -> option JsVal -> option JsVal -> Ext jsstring.
Variable listFiles :
  option JsVal -> option JsVal -> option JsVal -> Ext (list File).
Variable createReview :
  option JsVal -> option JsVal -> option JsVal -> option JsVal ->
  ReviewRequest -> Ext unit.

Definition getPullRequestDiff (owner repo pullNumber : option JsVal)
  : Ext jsstring :=
  fun w =>
    match pullsGet owner repo pullNumber w with
    | (Ok data, dt) => (Ok data, dt)
    | (Throw _, dt) => (Throw (Error "Failed to fetch pull request diff"), dt)
    end.

Definition postReviewComments (owner repo pullNumber commitSha : option JsVal)
    (issues : list CodeIssue) : Ext unit :=
  fun w =>
    match listFiles owner repo pullNumber w with
    | (Throw _, dt) => (Throw (Error "Failed to post review comments"), dt)
    | (Ok files, dt) =>
        match collectComments files issues with
        | [] => (Ok tt, dt)
        | comments =>
            match createReview owner repo pullNumber commitSha
                    (RequestChanges comments) (requested dt w) with
            | (Ok _, dt') => (Ok tt, (dt + dt')%N)
            | (Throw _, dt') =>
                (Throw (Error "Failed to post review comments"), (dt + dt')%N)
            end
        end
    end.

Definition postReviewSummary (owner repo pullNumber commitSha : option JsVal)
    (summary : jsstring) : Ext unit :=
  fun w =>
    match createReview owner repo pullNumber commitSha
            (CommentOnly (summaryBody summary)) w with
    | (Ok _, dt) => (Ok tt, dt)
    | (Throw _, dt) => (Throw (Error "Failed to post review summary"), dt)
    end.

End WithOctokit.

End GithubService.

(** The lines of a patch that isLineInFile counts: added and context
    lines. *)
Definition counted (line : jsstring) : bool :=
  JsString.startsWith (lit "+") line || JsString.startsWith (lit " ") line.

(** A patch of one hunk, for the sample runs: header, a context line, a
    removed line and two added lines. *)
Definition samplePatch : jsstring :=
  lit "@@ -3,3 +5,4 @@" ++ [10%N] ++ lit " keep" ++ [10%N] ++ lit "-old"
  ++ [10%N] ++ lit "+new" ++ [10%N] ++ lit "+more".

(** Octokit requests for the sample runs: the pull request cannot be
    fetched, one patched file is listed, and no review can be created. *)
Definition pullsGetFails
  : option JsVal -> option JsVal -> option JsVal -> Ext jsstring :=
  fun _ _ _ _ => (Throw (Error "Not Found"), 40%N).

Definition listsSampleFile
  : option JsVal -> option JsVal -> option JsVal ->
    Ext (list GithubService.File) :=
  fun _ _ _ _ =>
    (Ok [ {| GithubService.filename := lit "src/app.ts";
             GithubService.patch := Some samplePatch |} ], 35%N).

Definition createReviewFails
  : option JsVal -> option JsVal -> option JsVal -> option JsVal ->
    GithubService.ReviewRequest -> Ext unit :=
  fun _ _ _ _ _ _ => (Throw (Error "Unprocessable Entity"), 60%N).

(** A style issue on line 7 of the sample patch. *)
Definition styleIssue : CodeIssue :=
  {| type := style; severity := low; message := lit "Line too long";
     suggestion := lit "Break the line"; line := Some (lit "7") |}.

(** * Properties *)

(** ** Sample runs *)

Example heuristics_sample :
  map (fun i => (type i, line i))
      (Heuristics.performHeuristicAnalysis
         (lit "+ eval (x) // TODO" ++ [10%N] ++ lit "- console.log" ++ [10%N]
          ++ lit "+await f(); console.log(1)"))
  = [ (security, Some (lit "1")); (best_practice, Some (lit "1"));
      (best_practice, Some (lit "3")); (bug, Some (lit "3")) ].
Proof. vm_compute. reflexivity. Qed.

Example heuristics_try_nearby :
  Heuristics.performHeuristicAnalysis
    (lit "+try {" ++ [10%N] ++ lit "+  await f();" ++ [10%N] ++ lit "+}")
  = [].
Proof. vm_compute. reflexivity. Qed.

(** The lock lives up to and including the millisecond of its expiry; a
    TTL that is not positive is rejected by Redis. *)
Example lock_ttl_boundary :
  let s1 := snd (ConcurrencyManagerService.acquireLock 0 "pr:o/r:1" 1000 ∅) in
  fst (ConcurrencyManagerService.acquireLock 0 "pr:o/r:1" 1000 ∅) = Ok true
  /\ fst (ConcurrencyManagerService.acquireLock 1000 "pr:o/r:1" 1000 s1)
     = Ok false
  /\ fst (ConcurrencyManagerService.acquireLock 1001 "pr:o/r:1" 1000 s1)
     = Ok true
  /\ fst (ConcurrencyManagerService.acquireLock 5 "pr:o/r:1" 0 s1)
     = Throw (Error "ERR invalid expire time in 'set' command").
Proof. vm_compute. repeat split. Qed.

Example priority_job_options :
  map (fun priority =>
         (PriorityQueueService.priorityMap priority,
          PriorityQueueService.getAttemptsForPriority priority))
      [ Some (JsStr "critical"); Some (JsStr "urgent"); None;
        Some (JsNum 5); Some (JsStr "constructor") ]
  = [ (Some (Bull.Number 20), Bull.Number 10);
      (None, Bull.Number 3);
      (None, Bull.Number 3);
      (None, Bull.Number 3);
      (Some (Bull.Member "constructor"), Bull.Member "constructor") ].
Proof. vm_compute. reflexivity. Qed.

(** The enhanced processor on a free pull request, with the placeholder
    as pipeline: completed, one success metric, progress 100, one request
    counted against the owner, and the lock released. *)
Example enhanced_success_run :
  let run :=
    EnhancedCodeReviewProcessor.handleCodeReview
      EnhancedCodeReviewProcessor.placeholder sampleJob (freshWorld 1000) in
  fst run = Ok (Some {[ "status" := JsStr "completed" ]})
  /\ map status (jobMetrics (snd run)) = [success]
  /\ jobProgress (snd run) !! 2 = Some 100
  /\ ConcurrencyManagerService.getCurrentUsage 1000 "github:octo"
       (redis (snd run)) = 1
  /\ redis (snd run) !! "lock:pr:octo/app:7" = None.
Proof. vm_compute. repeat split. Qed.

(** The basic processor when the AI service is down: the review is
    completed with the heuristic finding, after four calls to the
    external services. *)
Example basic_degraded_run :
  let run :=
    CodeReviewProcessor.handleCodeReview aiUnavailable diffAvailable
      postNothing postNoSummary sampleJob (freshWorld 1000) in
  fst run = Ok tt
  /\ map reviewStatus (reviews (snd run)) = ["completed"]
  /\ map (fun c => type (snd c)) (reviewComments (snd run)) = [best_practice]
  /\ externalCalls (snd run) = 4%nat
  /\ clock (snd run) = 1350.
Proof. vm_compute. repeat split. Qed.

(** ** Numbers *)

Lemma Qltb_lt (x y : Q) : Qltb x y = true <-> (x < y)%Q.
Proof.
  unfold Qltb. rewrite negb_true_iff. split.
  - intros H. apply Qnot_le_lt. intros Hle.
    apply Qle_bool_iff in Hle. congruence.
  - intros H. destruct (Qle_bool y x) eqn:E; [|reflexivity].
    apply Qle_bool_iff in E. exfalso. exact (Qlt_not_le _ _ H E).
Qed.

(** ** Health classification *)

Section Health.
Import DashboardService.

Lemma critical_test sr avg qs :
  Qltb sr 80 || Qltb 300000 avg || (100 <? waiting qs) = true
  <-> isCritical sr avg qs.
Proof.
  unfold isCritical.
  rewrite !orb_true_iff, !Qltb_lt, Z.ltb_lt. tauto.
Qed.

Lemma warning_test sr avg qs :
  Qltb sr 95 || Qltb 120000 avg || (50 <? waiting qs) = true
  <-> isWarning sr avg qs.
Proof.
  unfold isWarning.
  rewrite !orb_true_iff, !Qltb_lt, Z.ltb_lt. tauto.
Qed.

(** C5. The health class is critical exactly when successRate < 80 or
    avgProcessingTime > 300000 or waiting > 100; otherwise warning
    exactly when successRate < 95 or avgProcessingTime > 120000 or
    waiting > 50; otherwise healthy.  So the most severe matching class
    wins, and (70, 1000, 0) is critical, (96, 1000, 0) healthy and
    (90, 1000, 0) warning. *)
Theorem C5_health_classification :
  forall (successRate avgProcessingTime : Q) (queueStats : QueueStats),
    (calculateHealthScore successRate avgProcessingTime queueStats
       = critical_health
     <-> isCritical successRate avgProcessingTime queueStats)
    /\ (calculateHealthScore successRate avgProcessingTime queueStats
          = warning
        <-> ~ isCritical successRate avgProcessingTime queueStats
            /\ isWarning successRate avgProcessingTime queueStats)
    /\ (calculateHealthScore successRate avgProcessingTime queueStats
          = healthy
        <-> ~ isCritical successRate avgProcessingTime queueStats
            /\ ~ isWarning successRate avgProcessingTime queueStats)
    /\ calculateHealthScore 70 1000 idle = critical_health
    /\ calculateHealthScore 96 1000 idle = healthy
    /\ calculateHealthScore 90 1000 idle = warning.
Proof.
  intros sr avg qs.
  pose proof (critical_test sr avg qs) as Hc.
  pose proof (warning_test sr avg qs) as Hw.
  unfold calculateHealthScore.
  destruct (Qltb sr 80 || Qltb 300000 avg || (100 <? waiting qs)) eqn:Ec;
    [| destruct (Qltb sr 95 || Qltb 120000 avg || (50 <? waiting qs)) eqn:Ew ].
  - assert (isCritical sr avg qs) by (apply Hc; reflexivity).
    repeat split; try (intros; tauto); try discriminate;
      try (intros [? ?]; tauto); reflexivity.
  - assert (~ isCritical sr avg qs)
      by (intros Hn; apply Hc in Hn; discriminate).
    assert (isWarning sr avg qs) by (apply Hw; reflexivity).
    repeat split; try (intros; tauto); try discriminate;
      try (intros [? ?]; tauto); reflexivity.
  - assert (~ isCritical sr avg qs)
      by (intros Hn; apply Hc in Hn; discriminate).
    assert (~ isWarning sr avg qs)
      by (intros Hn; apply Hw in Hn; discriminate).
    repeat split; try (intros; tauto); try discriminate;
      try (intros [? ?]; tauto); reflexivity.
Qed.

End Health.

(** ** Autoscaler *)

Section AutoScaler.
Import AutoScalerService.

(** C6. For a worker count within [minWorkers, maxWorkers] = [1, 10]
    the recommendation follows the first rule that applies, in this
    order: queueDepth > 50 gives min(current + 2, max); else
    avgProcessingTime > 180000 and queueDepth > 10 gives
    min(current + 1, max); else queueDepth = 0 and current > min gives
    max(current - 1, min); else the count is unchanged.  The result
    stays within [minWorkers, maxWorkers]; queueDepth 60 gives
    current + 2 capped at max, and queueDepth 0 with 3 workers gives 2. *)
Theorem C6_autoscaler_rules :
  forall currentWorkers queueDepth avgProcessingTime : Z,
    minWorkers <= currentWorkers <= maxWorkers ->
    let recommended :=
      calculateOptimalWorkers currentWorkers queueDepth avgProcessingTime in
    let slow := 180000 < avgProcessingTime /\ 10 < queueDepth in
    let spare := queueDepth = 0 /\ minWorkers < currentWorkers in
    (50 < queueDepth ->
       recommended = Z.min (currentWorkers + 2) maxWorkers)
    /\ (~ 50 < queueDepth -> slow ->
          recommended = Z.min (currentWorkers + 1) maxWorkers)
    /\ (~ 50 < queueDepth -> ~ slow -> spare ->
          recommended = Z.max (currentWorkers - 1) minWorkers)
    /\ (~ 50 < queueDepth -> ~ slow -> ~ spare ->
          recommended = currentWorkers)
    /\ minWorkers <= recommended <= maxWorkers
    /\ (queueDepth = 60 ->
          recommended = Z.min (currentWorkers + 2) maxWorkers)
    /\ (queueDepth = 0 -> currentWorkers = 3 -> recommended = 2).
Proof.
  intros c q a Hc. unfold calculateOptimalWorkers, minWorkers, maxWorkers in *.
  cbv zeta.
  destruct (50 <? q) eqn:E1;
    [| destruct ((180000 <? a) && (10 <? q)) eqn:E2;
       [| destruct ((q =? 0) && (1 <? c)) eqn:E3 ] ];
    repeat match goal with
           | H : (_ && _) = true |- _ => apply andb_true_iff in H; destruct H
           | H : (_ && _) = false |- _ => apply andb_false_iff in H
           | H : (_ <? _) = true |- _ => apply Z.ltb_lt in H
           | H : (_ <? _) = false |- _ => apply Z.ltb_ge in H
           | H : (_ =? _) = true |- _ => apply Z.eqb_eq in H
           | H : (_ =? _) = false |- _ => apply Z.eqb_neq in H
           end;
    repeat split; intros; lia.
Qed.

Lemma C6_autoscaler_rules_witness :
  minWorkers <= 3 <= maxWorkers
  /\ calculateOptimalWorkers 3 0 1000 = 2
  /\ calculateOptimalWorkers 3 60 1000 = Z.min (3 + 2) maxWorkers.
Proof.
  assert (H : minWorkers <= 3 <= maxWorkers) by (unfold minWorkers, maxWorkers; lia).
  split; [exact H|]. split.
  - pose proof (C6_autoscaler_rules 3 0 1000 H) as T. cbv zeta in T.
    apply T; reflexivity.
  - pose proof (C6_autoscaler_rules 3 60 1000 H) as T. cbv zeta in T.
    destruct T as (T & _). apply T. lia.
Defined.

(** The scheduled evaluation keeps the worker count within bounds. *)
Lemma evaluateScaling_bounds (currentWorkers queueDepth avgProcessingTime : Z) :
  minWorkers <= currentWorkers <= maxWorkers ->
  minWorkers
  <= evaluateScaling currentWorkers queueDepth avgProcessingTime
  <= maxWorkers.
Proof.
  intros Hc. unfold evaluateScaling, calculateOptimalWorkers,
    minWorkers, maxWorkers in *.
  repeat match goal with
         | |- context [if ?b then _ else _] => destruct b
         end; lia.
Qed.

End AutoScaler.

(** ** Success rate *)

Section SuccessRate.
Import MetricsService.

Lemma countSuccessful_le now hours ms :
  0 <= countSuccessful now hours ms <= countTotal now hours ms.
Proof.
  unfold countSuccessful, countTotal. split; [lia|].
  apply inj_le. induction ms as [|m ms IH]; simpl; [lia|].
  destruct (inWindow now hours m); simpl; [|exact IH].
  destruct (isSuccess m); simpl; lia.
Qed.

(** C4, as stated, fails: with no sample in the window the rate
    returned is 0, not 100. *)
Lemma C4_zero_samples_counterexample :
  countTotal 0 24 [] = 0
  /\ ~ (successRateOf 0 24 [] == 100)%Q
  /\ exists w r, getSuccessRate 24 w = (Ok r, w) /\ (r == 0)%Q.
Proof.
  split; [reflexivity|]. split.
  - vm_compute. discriminate.
  - exists {| clock := 0; redis := ∅; jobMetrics := []; reviews := [];
              reviewComments := []; jobProgress := ∅;
              externalCalls := 0 |}.
    eexists. split; [reflexivity|]. reflexivity.
Qed.

(** C4, amended. getSuccessRate(windowHours) returns 0 when there is no
    JobMetric sample in the window; when samples exist it returns
    (samples with status success / all samples) * 100, a value between
    0 and 100. *)
Theorem C4_success_rate :
  forall (w : World) (hours : Q),
    exists rate,
      getSuccessRate hours w = (Ok rate, w)
      /\ (countTotal (clock w) hours (jobMetrics w) = 0 -> (rate == 0)%Q)
      /\ (0 < countTotal (clock w) hours (jobMetrics w) ->
          (rate ==
             inject_Z (countSuccessful (clock w) hours (jobMetrics w))
             / inject_Z (countTotal (clock w) hours (jobMetrics w)) * 100)%Q
          /\ (0 <= rate <= 100)%Q).
Proof.
  intros w hours. eexists. split; [reflexivity|].
  unfold successRateOf.
  pose proof (countSuccessful_le (clock w) hours (jobMetrics w)) as [Hs Hle].
  set (t := countTotal (clock w) hours (jobMetrics w)) in *.
  set (s := countSuccessful (clock w) hours (jobMetrics w)) in *.
  split.
  - intros Ht. rewrite Ht. simpl. reflexivity.
  - intros Ht. apply Z.ltb_lt in Ht as Hb. rewrite Hb.
    split; [reflexivity|].
    assert (Hq : (0 < inject_Z t)%Q) by (unfold Qlt; simpl; lia).
    split.
    + apply Qmult_le_0_compat; [|discriminate].
      apply Qle_shift_div_l; [exact Hq|].
      rewrite Qmult_0_l. unfold Qle; simpl; lia.
    + apply Qle_trans with (1 * 100)%Q; [|vm_compute; discriminate].
      apply Qmult_le_compat_r; [|discriminate].
      apply Qle_shift_div_r; [exact Hq|].
      rewrite Qmult_1_l. unfold Qle; simpl; lia.
Qed.

Lemma C4_success_rate_witness :
  exists rate,
    getSuccessRate 24
      {| clock := 1000; redis := ∅;
         jobMetrics :=
           [ {| duration := 5; status := success; metadata := None;
                timestamp := 900 |};
             {| duration := 7; status := error; metadata := None;
                timestamp := 950 |} ];
         reviews := []; reviewComments := []; jobProgress := ∅;
         externalCalls := 0 |}
    = (Ok rate,
       {| clock := 1000; redis := ∅;
         jobMetrics :=
           [ {| duration := 5; status := success; metadata := None;
                timestamp := 900 |};
             {| duration := 7; status := error; metadata := None;
                timestamp := 950 |} ];
         reviews := []; reviewComments := []; jobProgress := ∅;
         externalCalls := 0 |})
    /\ (rate == 50)%Q.
Proof.
  destruct (C4_success_rate
      {| clock := 1000; redis := ∅;
         jobMetrics :=
           [ {| duration := 5; status := success; metadata := None;
                timestamp := 900 |};
             {| duration := 7; status := error; metadata := None;
                timestamp := 950 |} ];
         reviews := []; reviewComments := []; jobProgress := ∅;
         externalCalls := 0 |} 24)
    as (rate & Hrun & _ & Hpos).
  exists rate. split; [exact Hrun|].
  destruct Hpos as [Heq _]; [vm_compute; reflexivity|].
  rewrite Heq. vm_compute. reflexivity.
Defined.

End SuccessRate.

(** ** Enqueueing *)

Section Enqueue.

(** C7, as stated, fails: a payload with none of the required keys is
    accepted by both enqueue operations and ends up in the queue. *)
Lemma C7_missing_keys_counterexample :
  missingKey ∅ = true
  /\ (exists q,
        QueueService.addCodeReviewJob ∅ Bull.empty = (Ok tt, q)
        /\ map Bull.data (Bull.jobs q) = [∅])
  /\ (exists q,
        PriorityQueueService.addPriorityJob ∅ Bull.empty = (Ok tt, q)
        /\ map Bull.data (Bull.jobs q) = [∅]).
Proof.
  split; [reflexivity|].
  split; eexists; (split; [reflexivity|reflexivity]).
Qed.

(** C7, amended. addCodeReviewJob and addPriorityJob check nothing: for
    every payload, whether or not it has the keys owner, repo,
    pullNumber, headSha and baseSha, the call completes without an
    exception and exactly one job carrying that payload is appended to
    the queue. *)
Theorem C7_enqueue_accepts_every_payload :
  forall (data : JsObj) (q : Bull.Queue),
    (exists job,
        QueueService.addCodeReviewJob data q
        = (Ok tt, {| Bull.jobs := Bull.jobs q ++ [job];
                     Bull.nextId := Bull.nextId q + 1 |})
        /\ Bull.data job = data /\ Bull.id job = Bull.nextId q
        /\ Bull.attempts (Bull.opts job) = Some (Bull.Number 3))
    /\ (exists job,
        PriorityQueueService.addPriorityJob data q
        = (Ok tt, {| Bull.jobs := Bull.jobs q ++ [job];
                     Bull.nextId := Bull.nextId q + 1 |})
        /\ Bull.data job = data /\ Bull.id job = Bull.nextId q
        /\ Bull.priority (Bull.opts job)
           = PriorityQueueService.priorityMap (data !! "priority")).
Proof.
  intros data q. split; eexists; (split; [reflexivity|]); repeat split.
Qed.

End Enqueue.

(** ** Redis keys and commands *)

Section Keys.
Import Redis ConcurrencyManagerService.

Lemma lockKey_inj r r' : lockKey r = lockKey r' -> r = r'.
Proof. unfold lockKey. intros H. cbn in H. injection H as H. exact H. Qed.

Lemma lockKey_rateKey r i : lockKey r <> rateKey i.
Proof. unfold lockKey, rateKey. intros H. cbn in H. discriminate H. Qed.

Lemma live_delete t (s : gmap string entry) k : live t (delete k s) k = None.
Proof. unfold live. rewrite lookup_delete_eq. reflexivity. Qed.

Lemma releaseLock_delete t r (s : gmap string entry) :
  releaseLock t r s = delete (lockKey r) s.
Proof. reflexivity. Qed.

Lemma acquireLock_free t r ttl (s : gmap string entry) :
  0 < ttl -> live t s (lockKey r) = None ->
  acquireLock t r ttl s
  = (Ok true, <[lockKey r := Entry t (Some (t + ttl))]> s).
Proof.
  intros Httl Hfree. unfold acquireLock, set_px_nx.
  destruct (ttl <=? 0) eqn:E; [apply Z.leb_le in E; lia|].
  rewrite Hfree. reflexivity.
Qed.

Lemma acquireLock_held t r ttl (s : gmap string entry) e :
  0 < ttl -> live t s (lockKey r) = Some e ->
  acquireLock t r ttl s = (Ok false, s).
Proof.
  intros Httl Hheld. unfold acquireLock, set_px_nx.
  destruct (ttl <=? 0) eqn:E; [apply Z.leb_le in E; lia|].
  rewrite Hheld. reflexivity.
Qed.

Lemma acquireLock_rejected t r ttl (s : gmap string entry) :
  ttl <= 0 -> exists e, acquireLock t r ttl s = (Throw e, s).
Proof.
  intros Httl. unfold acquireLock, set_px_nx.
  destruct (ttl <=? 0) eqn:E; [|apply Z.leb_gt in E; lia].
  eexists. reflexivity.
Qed.

End Keys.

(** ** Releasing a lock *)

Section Release.
Import Redis ConcurrencyManagerService.

(** C8. release(resourceKey) deletes the lock record whatever value and
    expiry it holds, that is whoever set it; it completes without an
    exception; releasing an absent key leaves the store unchanged and a
    second release changes nothing more; and after a release an acquire
    on the same key (with a positive TTL) returns true at once. *)
Theorem C8_release :
  forall (t t' : Z) (r : string) (s : gmap string entry),
    releaseLock t r s !! lockKey r = None
    /\ (forall e, releaseLock t r (<[lockKey r := e]> s) = releaseLock t r s)
    /\ (forall k, k <> lockKey r -> releaseLock t r s !! k = s !! k)
    /\ (forall w, exists w', Concurrency.releaseLock r w = (Ok tt, w'))
    /\ (s !! lockKey r = None -> releaseLock t r s = s)
    /\ releaseLock t' r (releaseLock t r s) = releaseLock t r s
    /\ (forall ttl, 0 < ttl ->
          fst (acquireLock t' r ttl (releaseLock t r s)) = Ok true).
Proof.
  intros t t' r s. rewrite !releaseLock_delete.
  split; [apply lookup_delete_eq|].
  split; [intros e; rewrite ?releaseLock_delete; apply delete_insert_eq|].
  split; [intros k Hk; apply lookup_delete_ne; congruence|].
  split; [intros w; eexists; reflexivity|].
  split; [intros H; apply delete_id; exact H|].
  split; [rewrite ?releaseLock_delete; apply delete_delete_eq|].
  intros ttl Httl. rewrite acquireLock_free; [reflexivity|exact Httl|].
  apply live_delete.
Qed.

Lemma C8_release_witness :
  fst (acquireLock 20 "pr:o/r:1" 300000
         (releaseLock 10 "pr:o/r:1"
            (<[lockKey "pr:o/r:1" := Entry 5 (Some 300005)]> ∅)))
  = Ok true.
Proof.
  apply (C8_release 10 20 "pr:o/r:1"
           (<[lockKey "pr:o/r:1" := Entry 5 (Some 300005)]> ∅)).
  lia.
Defined.

End Release.

(** ** Rate limiter *)

Section RateLimit.
Import Redis ConcurrencyManagerService.

Lemma live_Some t (s : gmap string entry) k e :
  live t s k = Some e -> s !! k = Some e /\ expired t e = false.
Proof.
  unfold live. destruct (s !! k) as [e'|]; [|discriminate].
  destruct (expired t e') eqn:Ex; [discriminate|].
  intros H. injection H as ->. split; [reflexivity|exact Ex].
Qed.

Lemma live_insert t (s : gmap string entry) k e :
  live t (<[k := e]> s) k = if expired t e then None else Some e.
Proof. unfold live. rewrite lookup_insert_eq. reflexivity. Qed.

Lemma live_lookup t (s : gmap string entry) k v until :
  s !! k = Some (Entry v (Some until)) -> t <= until ->
  live t s k = Some (Entry v (Some until)).
Proof.
  intros Hs Ht. unfold live. rewrite Hs. unfold expired. simpl.
  destruct (until <? t) eqn:E; [apply Z.ltb_lt in E; lia|reflexivity].
Qed.

Lemma live_lapsed t (s : gmap string entry) k v until :
  s !! k = Some (Entry v (Some until)) -> until < t -> live t s k = None.
Proof.
  intros Hs Ht. unfold live. rewrite Hs. unfold expired. simpl.
  destruct (until <? t) eqn:E; [reflexivity|apply Z.ltb_ge in E; lia].
Qed.

(** The count a call finds: the live counter, or 0. *)
Lemma getCurrentUsage_live t i (s : gmap string entry) :
  getCurrentUsage t i s
  = match live t s (rateKey i) with Some e => value e | None => 0 end.
Proof.
  unfold getCurrentUsage, get. destruct (live t s (rateKey i)); reflexivity.
Qed.

(** First call of a window: the counter is created at 1 and expires
    [window] seconds later. *)
Lemma checkRateLimit_first t i limit window (s : gmap string entry) :
  0 < window -> live t s (rateKey i) = None ->
  checkRateLimit t i limit window s
  = (1 <=? limit,
     <[rateKey i := Entry 1 (Some (t + window * 1000))]> s).
Proof.
  intros Hw Hfree. unfold checkRateLimit, incr. rewrite Hfree. simpl.
  unfold expire. rewrite live_insert. simpl.
  destruct (window <=? 0) eqn:E; [apply Z.leb_le in E; lia|].
  simpl. rewrite insert_insert_eq. reflexivity.
Qed.

(** Later call of a window: the counter goes up, the expiry stays. *)
Lemma checkRateLimit_next t i limit window (s : gmap string entry) e :
  live t s (rateKey i) = Some e -> value e <> 0 ->
  checkRateLimit t i limit window s
  = (value e + 1 <=? limit,
     <[rateKey i := Entry (value e + 1) (expireAt e)]> s).
Proof.
  intros Hlive Hv. unfold checkRateLimit, incr. rewrite Hlive.
  destruct (value e + 1 =? 1) eqn:E; [apply Z.eqb_eq in E; lia|].
  reflexivity.
Qed.

(** A live counter that reads 0: the increment makes it 1 and the
    window is started anew. *)
Lemma checkRateLimit_zero t i limit window (s : gmap string entry) e :
  0 < window -> live t s (rateKey i) = Some e -> value e = 0 ->
  checkRateLimit t i limit window s
  = (1 <=? limit,
     <[rateKey i := Entry 1 (Some (t + window * 1000))]> s).
Proof.
  intros Hw Hlive Hv. apply live_Some in Hlive as Hl. destruct Hl as [_ Hex].
  unfold checkRateLimit, incr. rewrite Hlive, Hv.
  change (0 + 1) with 1. simpl.
  unfold expire. rewrite live_insert.
  replace (expired t {| value := 1; expireAt := expireAt e |})
    with false by (rewrite <- Hex; reflexivity).
  destruct (window <=? 0) eqn:E; [apply Z.leb_le in E; lia|].
  simpl. rewrite insert_insert_eq. reflexivity.
Qed.

Lemma checkRateLimit_result t i limit window (s : gmap string entry) :
  fst (checkRateLimit t i limit window s)
  = (getCurrentUsage t i s + 1 <=? limit).
Proof.
  rewrite getCurrentUsage_live. unfold checkRateLimit, incr.
  destruct (live t s (rateKey i)); reflexivity.
Qed.

Lemma checkRateLimit_frame t i limit window (s : gmap string entry) k :
  k <> rateKey i ->
  snd (checkRateLimit t i limit window s) !! k = s !! k.
Proof.
  intros Hk. unfold checkRateLimit, incr, expire.
  destruct (live t s (rateKey i)) as [e|]; simpl;
    repeat match goal with
           | |- context [if ?b then _ else _] => destruct b; simpl
           | |- context [match ?o with Some _ => _ | None => _ end] =>
               destruct o; simpl
           end;
    rewrite ?lookup_delete_ne, ?lookup_insert_ne by congruence; reflexivity.
Qed.

(** What one call does to the counter, by the three cases above. *)
Lemma checkRateLimit_counter t i limit window (s : gmap string entry) :
  0 < window ->
  let count := getCurrentUsage t i s + 1 in
  snd (checkRateLimit t i limit window s) !! rateKey i
  = Some (Entry count
            (if count =? 1 then Some (t + window * 1000)
             else match live t s (rateKey i) with
                  | Some e => expireAt e
                  | None => None
                  end)).
Proof.
  intros Hw. cbv zeta. rewrite getCurrentUsage_live.
  destruct (live t s (rateKey i)) as [e|] eqn:Hl.
  - destruct (Z.eq_dec (value e) 0) as [Hz|Hnz].
    + rewrite (checkRateLimit_zero _ _ _ _ _ e Hw Hl Hz). simpl.
      rewrite lookup_insert_eq, Hz. reflexivity.
    + rewrite (checkRateLimit_next _ _ _ _ _ e Hl Hnz). simpl.
      rewrite lookup_insert_eq.
      destruct (value e + 1 =? 1) eqn:E; [apply Z.eqb_eq in E; lia|].
      reflexivity.
  - rewrite (checkRateLimit_first _ _ _ _ _ Hw Hl). simpl.
    rewrite lookup_insert_eq. reflexivity.
Qed.

Lemma checkRateLimit_usage t i limit window (s : gmap string entry) :
  0 < window ->
  getCurrentUsage t i (snd (checkRateLimit t i limit window s))
  = getCurrentUsage t i s + 1.
Proof.
  intros Hw. pose proof (checkRateLimit_counter t i limit window s Hw) as Hc.
  cbv zeta in Hc. rewrite (getCurrentUsage_live t i (snd _)).
  unfold live at 1. rewrite Hc.
  destruct (getCurrentUsage t i s + 1 =? 1) eqn:E.
  - unfold expired. simpl.
    destruct (t + window * 1000 <? t) eqn:E1; [apply Z.ltb_lt in E1; lia|].
    reflexivity.
  - destruct (live t s (rateKey i)) as [e|] eqn:Hl.
    + apply live_Some in Hl as [_ Hex].
      replace (expired t {| value := getCurrentUsage t i s + 1;
                            expireAt := expireAt e |})
        with false by (rewrite <- Hex; reflexivity).
      reflexivity.
    + reflexivity.
Qed.

(** One more call inside the window opened at [until - window]. *)
Lemma checkRateLimit_within t i limit window (s : gmap string entry) c until :
  s !! rateKey i = Some (Entry c (Some until)) -> t <= until -> c <> 0 ->
  exists s',
    checkRateLimit t i limit window s = (c + 1 <=? limit, s')
    /\ s' !! rateKey i = Some (Entry (c + 1) (Some until)).
Proof.
  intros Hs Ht Hc. eexists. split.
  - apply (checkRateLimit_next t i limit window s (Entry c (Some until))).
    + apply live_lookup; assumption.
    + exact Hc.
  - simpl. apply lookup_insert_eq.
Qed.

(** Six calls inside one window of 60 s with limit 5, then one call
    after the window has lapsed. *)
Lemma six_calls_then_one (s : gmap string entry) (i : string)
    (t1 t2 t3 t4 t5 t6 t7 : Z) :
  live t1 s (rateKey i) = None ->
  t2 <= t1 + 60000 -> t3 <= t1 + 60000 -> t4 <= t1 + 60000 ->
  t5 <= t1 + 60000 -> t6 <= t1 + 60000 -> t1 + 60000 < t7 ->
  exists s6,
    checkRateLimitAt [t1; t2; t3; t4; t5; t6] i 5 60 s
    = ([true; true; true; true; true; false], s6)
    /\ s6 !! rateKey i = Some (Entry 6 (Some (t1 + 60000)))
    /\ fst (checkRateLimit t7 i 5 60 s6) = true
    /\ getCurrentUsage t7 i (snd (checkRateLimit t7 i 5 60 s6)) = 1.
Proof.
  intros Hfree H2 H3 H4 H5 H6 H7.
  pose proof (checkRateLimit_first t1 i 5 60 s ltac:(lia) Hfree) as C1.
  change (60 * 1000) with 60000 in C1.
  set (s1 := <[rateKey i := Entry 1 (Some (t1 + 60000))]> s) in *.
  assert (L1 : s1 !! rateKey i = Some (Entry 1 (Some (t1 + 60000))))
    by apply lookup_insert_eq.
  destruct (checkRateLimit_within t2 i 5 60 s1 1 _ L1 H2 ltac:(lia))
    as (s2 & C2 & L2).
  destruct (checkRateLimit_within t3 i 5 60 s2 (1 + 1) _ L2 H3 ltac:(lia))
    as (s3 & C3 & L3).
  destruct (checkRateLimit_within t4 i 5 60 s3 (1 + 1 + 1) _ L3 H4 ltac:(lia))
    as (s4 & C4 & L4).
  destruct (checkRateLimit_within t5 i 5 60 s4 (1 + 1 + 1 + 1) _ L4 H5
              ltac:(lia)) as (s5 & C5 & L5).
  destruct (checkRateLimit_within t6 i 5 60 s5 (1 + 1 + 1 + 1 + 1) _ L5 H6
              ltac:(lia)) as (s6 & C6 & L6).
  exists s6. split; [|split; [exact L6|]].
  - unfold checkRateLimitAt. rewrite C1, C2, C3, C4, C5, C6. reflexivity.
  - assert (Hl : live t7 s6 (rateKey i) = None)
      by (eapply live_lapsed; [exact L6|lia]).
    rewrite (checkRateLimit_first t7 i 5 60 s6 ltac:(lia) Hl). simpl.
    split; [reflexivity|].
    rewrite getCurrentUsage_live, live_insert. unfold expired. simpl.
    destruct (t7 + 60 * 1000 <? t7) eqn:E; [apply Z.ltb_lt in E; lia|].
    reflexivity.
Qed.

(** C3. checkRateLimit(identifier, limit, windowSeconds) always
    increments the identifier's counter, sets the expiry of the window
    only when the count after the increment is 1 (any other count keeps
    the expiry it had), touches no other key, and returns true exactly
    when the count after the increment is at most the limit.  For a fresh
    identifier with limit 5 and window 60, six calls inside the window
    answer true five times and then false, the rejected call being
    counted too; the first call after the window has lapsed answers true
    and the count is 1 again. *)
Theorem C3_rate_limit :
  (forall (t : Z) (i : string) (limit window : Z) (s : gmap string entry),
      let count := getCurrentUsage t i s + 1 in
      let s' := snd (checkRateLimit t i limit window s) in
      (fst (checkRateLimit t i limit window s) = true <-> count <= limit)
      /\ (forall k, k <> rateKey i -> s' !! k = s !! k)
      /\ (count <> 1 ->
          exists e,
            live t s (rateKey i) = Some e
            /\ s' !! rateKey i = Some (Entry count (expireAt e)))
      /\ (0 < window -> count = 1 ->
          s' !! rateKey i = Some (Entry 1 (Some (t + window * 1000))))
      /\ (0 < window -> getCurrentUsage t i s' = count))
  /\ (forall (s : gmap string entry) (i : string) (t1 t2 t3 t4 t5 t6 t7 : Z),
        live t1 s (rateKey i) = None ->
        t1 <= t2 <= t3 -> t3 <= t4 <= t5 -> t5 <= t6 <= t1 + 60000 ->
        t1 + 60000 < t7 ->
        exists s6,
          checkRateLimitAt [t1; t2; t3; t4; t5; t6] i 5 60 s
          = ([true; true; true; true; true; false], s6)
          /\ getCurrentUsage t6 i s6 = 6
          /\ fst (checkRateLimit t7 i 5 60 s6) = true
          /\ getCurrentUsage t7 i (snd (checkRateLimit t7 i 5 60 s6)) = 1).
Proof.
  split.
  - intros t i limit window s. cbv zeta.
    split; [rewrite checkRateLimit_result; apply Z.leb_le|].
    split; [intros k Hk; apply checkRateLimit_frame; exact Hk|].
    split; [|split].
    + intros Hcount. rewrite getCurrentUsage_live in *.
      destruct (live t s (rateKey i)) as [e|] eqn:Hl; [|lia].
      exists e. split; [reflexivity|].
      rewrite (checkRateLimit_next t i limit window s e Hl ltac:(lia)).
      simpl. apply lookup_insert_eq.
    + intros Hw Hcount.
      pose proof (checkRateLimit_counter t i limit window s Hw) as Hc.
      cbv zeta in Hc. rewrite Hc, Hcount. reflexivity.
    + intros Hw. apply checkRateLimit_usage. exact Hw.
  - intros s i t1 t2 t3 t4 t5 t6 t7 Hfree H12 H34 H56 H7.
    destruct (six_calls_then_one s i t1 t2 t3 t4 t5 t6 t7 Hfree
                ltac:(lia) ltac:(lia) ltac:(lia) ltac:(lia) ltac:(lia) H7)
      as (s6 & Hrun & L6 & Hok & Hone).
    exists s6. split; [exact Hrun|]. split; [|split; assumption].
    rewrite getCurrentUsage_live.
    rewrite (live_lookup t6 s6 _ 6 (t1 + 60000) L6 ltac:(lia)). reflexivity.
Qed.

Lemma C3_rate_limit_witness :
  exists s6,
    checkRateLimitAt [1000; 1001; 1002; 1003; 1004; 1005] "github:octo" 5 60 ∅
    = ([true; true; true; true; true; false], s6)
    /\ getCurrentUsage 1005 "github:octo" s6 = 6
    /\ fst (checkRateLimit 61001 "github:octo" 5 60 s6) = true
    /\ getCurrentUsage 61001 "github:octo"
         (snd (checkRateLimit 61001 "github:octo" 5 60 s6)) = 1.
Proof.
  destruct C3_rate_limit as [_ Hrun].
  apply (Hrun ∅ "github:octo" 1000 1001 1002 1003 1004 1005 61001);
    first [reflexivity | lia].
Defined.

End RateLimit.

(** ** Lock manager *)

Section Locks.
Import Redis ConcurrencyManagerService LockSystem.

Lemma acquireLock_cases t r ttl (s : gmap string entry) :
  (ttl <= 0 /\ exists e, acquireLock t r ttl s = (Throw e, s))
  \/ (0 < ttl /\ (exists e, live t s (lockKey r) = Some e)
      /\ acquireLock t r ttl s = (Ok false, s))
  \/ (0 < ttl /\ live t s (lockKey r) = None
      /\ acquireLock t r ttl s
         = (Ok true, <[lockKey r := Entry t (Some (t + ttl))]> s)).
Proof.
  destruct (Z_le_gt_dec ttl 0) as [Hle|Hgt].
  - left. split; [exact Hle|]. apply acquireLock_rejected. exact Hle.
  - right. destruct (live t s (lockKey r)) as [e|] eqn:Hl.
    + left. split; [lia|]. split; [eauto|].
      apply (acquireLock_held t r ttl s e); [lia|exact Hl].
    + right. split; [lia|]. split; [reflexivity|].
      apply acquireLock_free; [lia|exact Hl].
Qed.

Lemma acquireLock_frame t r ttl (s : gmap string entry) k :
  k <> lockKey r -> snd (acquireLock t r ttl s) !! k = s !! k.
Proof.
  intros Hk.
  destruct (acquireLock_cases t r ttl s)
    as [(_ & e & Hrun) | [(_ & _ & Hrun) | (_ & _ & Hrun)]];
    rewrite Hrun; simpl; [reflexivity|reflexivity|].
  apply lookup_insert_ne. congruence.
Qed.

(** While the lock record of [r] lives, acquiring [r] changes nothing
    and does not answer [true]. *)
Lemma acquireLock_while_held t r ttl (s : gmap string entry) v until :
  s !! lockKey r = Some (Entry v (Some until)) -> t <= until ->
  snd (acquireLock t r ttl s) = s /\ fst (acquireLock t r ttl s) <> Ok true.
Proof.
  intros Hs Ht. pose proof (live_lookup t s _ v until Hs Ht) as Hl.
  destruct (acquireLock_cases t r ttl s)
    as [(_ & e & Hrun) | [(_ & _ & Hrun) | (_ & Hfree & _)]].
  - rewrite Hrun. simpl. split; [reflexivity|discriminate].
  - rewrite Hrun. simpl. split; [reflexivity|discriminate].
  - congruence.
Qed.

Lemma step_store_acquire t w r ttl st :
  store (step t (Acquire w r ttl) st) = snd (acquireLock t r ttl (store st)).
Proof.
  simpl. destruct (acquireLock t r ttl (store st)) as [[[|]|] s']; reflexivity.
Qed.

(** A call that does not release [r] keeps a living lock record of [r]. *)
Lemma step_keeps_lock t o st r v until :
  store st !! lockKey r = Some (Entry v (Some until)) ->
  t <= until -> releases r o = false ->
  store (step t o st) !! lockKey r = Some (Entry v (Some until)).
Proof.
  intros Hs Ht Ho. destruct o as [w r' ttl | w r' | i limit window].
  - rewrite step_store_acquire.
    destruct (string_dec r' r) as [->|Hne].
    + destruct (acquireLock_while_held t r ttl _ v until Hs Ht) as [-> _].
      exact Hs.
    + rewrite acquireLock_frame; [exact Hs|].
      intros H. apply lockKey_inj in H. congruence.
  - simpl in *. rewrite releaseLock_delete.
    rewrite lookup_delete_ne; [exact Hs|].
    intros H. apply lockKey_inj in H. subst r'.
    rewrite String.eqb_refl in Ho. discriminate.
  - simpl. rewrite checkRateLimit_frame; [exact Hs|]. apply lockKey_rateKey.
Qed.

Lemma run_keeps_lock calls (s : gmap string entry) r v until :
  s !! lockKey r = Some (Entry v (Some until)) ->
  Forall (fun c => fst c <= until /\ releases r (snd c) = false) calls ->
  run calls s !! lockKey r = Some (Entry v (Some until)).
Proof.
  revert s. induction calls as [|[t o] calls IH]; intros s Hs Hall.
  - exact Hs.
  - inversion Hall as [|c cs [Ht Ho] Hrest]; subst. simpl in Ht, Ho.
    cbn [run]. apply IH; [|exact Hrest].
    apply (step_keeps_lock t o {| store := s; now := t; holders := [] |});
      assumption.
Qed.

(** *** One holder per resource *)

Lemma holdersOf_In t r hs h :
  In h (holdersOf t r hs) <-> In h hs /\ resource h = r /\ t <= until h.
Proof.
  unfold holdersOf. rewrite filter_In, andb_true_iff, String.eqb_eq, Z.leb_le.
  tauto.
Qed.

Lemma holdersOf_later t t' r hs :
  t <= t' -> (length (holdersOf t' r hs) <= length (holdersOf t r hs))%nat.
Proof.
  intros Ht. induction hs as [|h hs IH]; simpl; [lia|].
  destruct (String.eqb (resource h) r); simpl; [|exact IH].
  destruct (t' <=? until h) eqn:E'; destruct (t <=? until h) eqn:E; simpl;
    try lia; apply Z.leb_le in E'; apply Z.leb_gt in E; lia.
Qed.

Lemma holdersOf_filter t r (p : Holder -> bool) hs :
  (length (holdersOf t r (List.filter p hs)) <= length (holdersOf t r hs))%nat.
Proof.
  induction hs as [|h hs IH]; simpl; [lia|].
  destruct (p h); simpl;
    destruct (String.eqb (resource h) r && (t <=? until h)); simpl; lia.
Qed.

Lemma nobody_holds t r hs :
  (forall h, In h hs -> resource h = r -> t <= until h -> False) ->
  holdersOf t r hs = [].
Proof.
  intros H. destruct (holdersOf t r hs) as [|h l] eqn:E; [reflexivity|].
  assert (Hin : In h (holdersOf t r hs)) by (rewrite E; left; reflexivity).
  apply holdersOf_In in Hin as (Hin & Hr & Ht). exfalso. eauto.
Qed.

Lemma at_most_one (l : list Holder) (a b : Holder) :
  (length l <= 1)%nat -> In a l -> In b l -> a = b.
Proof.
  destruct l as [|x [|y l]]; simpl; intros Hlen Ha Hb.
  - destruct Ha.
  - destruct Ha as [<-|[]], Hb as [<-|[]]. reflexivity.
  - lia.
Qed.

(** Every holding that is still alive has its lock record, and no
    resource has two of them, as long as releases are the holder's own. *)
Lemma step_orderly st t o :
  recorded st ->
  (forall r, (length (holdersOf (now st) r (holders st)) <= 1)%nat) ->
  now st <= t -> ownRelease t o st ->
  recorded (step t o st)
  /\ forall r, (length (holdersOf t r (holders (step t o st))) <= 1)%nat.
Proof.
  intros Hrec Hone Ht Hown.
  assert (Hrec' : forall h, In h (holders st) -> t <= until h ->
            exists v, store st !! lockKey (resource h)
                      = Some (Entry v (Some (until h))))
    by (intros h Hin Hu; apply Hrec; [exact Hin|lia]).
  assert (Hone' : forall r, (length (holdersOf t r (holders st)) <= 1)%nat).
  { intros r. pose proof (holdersOf_later (now st) t r (holders st) Ht).
    specialize (Hone r). lia. }
  destruct o as [w r ttl | w r | i limit window].
  - destruct (acquireLock_cases t r ttl (store st))
      as [(_ & e & Hrun) | [(_ & _ & Hrun) | (Httl & Hfree & Hrun)]].
    + unfold recorded. simpl. rewrite Hrun. simpl. split; assumption.
    + unfold recorded. simpl. rewrite Hrun. simpl. split; assumption.
    + unfold recorded. simpl. rewrite Hrun. simpl. split.
      * intros h [<-|Hin] Hu; simpl.
        -- eexists. apply lookup_insert_eq.
        -- destruct (Hrec' h Hin Hu) as [v Hv].
           destruct (string_dec (resource h) r) as [Heq|Hne].
           ++ subst r. rewrite (live_lookup t _ _ v (until h) Hv Hu) in Hfree.
              discriminate.
           ++ exists v. rewrite lookup_insert_ne; [exact Hv|].
              intros H. apply lockKey_inj in H. congruence.
      * intros r0. destruct (String.eqb r r0) eqn:Er; simpl; [|apply Hone'].
        apply String.eqb_eq in Er. subst r0.
        rewrite (nobody_holds t r (holders st)).
        -- destruct (t <=? t + ttl); simpl; lia.
        -- intros h Hin Hr Hu. subst r.
           destruct (Hrec' h Hin Hu) as [v Hv].
           rewrite (live_lookup t _ _ v (until h) Hv Hu) in Hfree.
           discriminate.
  - simpl in Hown. destruct Hown as (h0 & Hh0 & Hw0).
    unfold recorded. simpl. split.
    + intros h Hin Hu. apply filter_In in Hin as [Hin Hkeep].
      destruct (Hrec' h Hin Hu) as [v Hv]. exists v.
      rewrite releaseLock_delete, lookup_delete_ne; [exact Hv|].
      intros H. apply lockKey_inj in H.
      assert (Hh : In h (holdersOf t r (holders st)))
        by (apply holdersOf_In; auto).
      pose proof (at_most_one _ h h0 (Hone' r) Hh Hh0) as Heq. subst h0.
      rewrite Hw0, Nat.eqb_refl, <- H, String.eqb_refl in Hkeep.
      discriminate.
    + intros r0.
      pose proof (holdersOf_filter t r0
        (fun h => negb ((worker h =? w)%nat && String.eqb (resource h) r))
        (holders st)).
      specialize (Hone' r0). lia.
  - unfold recorded. simpl. split; [|exact Hone'].
    intros h Hin Hu. destruct (Hrec' h Hin Hu) as [v Hv]. exists v.
    rewrite checkRateLimit_frame; [exact Hv|]. apply lockKey_rateKey.
Qed.

Lemma now_step t o st : now (step t o st) = t.
Proof.
  destruct o; simpl; try reflexivity.
  destruct (acquireLock _ _ _ _) as [[[|]|] ?]; reflexivity.
Qed.

Lemma orderly_one_holder st :
  orderly st ->
  recorded st
  /\ forall r, (length (holdersOf (now st) r (holders st)) <= 1)%nat.
Proof.
  induction 1 as [t0 | st t o Horderly [IHrec IHone] Ht Hown].
  - split; [intros h []|]. intros r. simpl. lia.
  - rewrite now_step. apply step_orderly; assumption.
Qed.

(** C1, as stated, fails: releaseLock deletes the record whoever calls
    it, and the handler calls it on every exit, also when its own acquire
    was refused.  Worker 1 takes the lock of a pull request for five
    minutes; worker 2 finds it taken and releases it ten milliseconds
    later; worker 3 then takes it.  Two acquires within one TTL have
    returned true, and workers 1 and 3 both hold the resource. *)
Theorem C1_foreign_release_counterexample :
  let r := "pr:o/r:1" in
  let st0 := {| store := ∅; now := 0; holders := [] |} in
  let st1 := step 0 (Acquire 1 r 300000) st0 in
  let st2 := step 5 (Acquire 2 r 300000) st1 in
  let st3 := step 10 (Release 2 r) st2 in
  let st4 := step 20 (Acquire 3 r 300000) st3 in
  reachable st4
  /\ fst (acquireLock 0 r 300000 (store st0)) = Ok true
  /\ fst (acquireLock 5 r 300000 (store st1)) = Ok false
  /\ fst (acquireLock 20 r 300000 (store st3)) = Ok true
  /\ 20 <= 0 + 300000
  /\ map worker (holdersOf (now st4) r (holders st4)) = [3; 1]%nat.
Proof.
  intros r st0 st1 st2 st3 st4. split.
  - unfold st4, st3, st2, st1, st0.
    repeat (apply reach_step; [|rewrite ?now_step; simpl; lia]).
    apply reach_init.
  - vm_compute. repeat split. discriminate.
Qed.

(** C1, amended. acquire(resourceKey, ttlMs) returns true only when no
    unexpired lock exists for the key at the time of the call, and then
    the lock record is created; when an unexpired lock exists the call
    does not return true and leaves the store, that lock included,
    unchanged.  For a positive TTL these are the only two outcomes: true
    with the record written, or false.  As long as a lock is released
    only by the worker that holds it, each resource has at most one
    unexpired holder in every state that is reached; and after an acquire
    that returned true no other acquire on the same key returns true
    within the TTL, unless the key is released in between. *)
Theorem C1_lock_acquire :
  (forall (t : Z) (r : string) (ttl : Z) (s : gmap string entry),
      (fst (acquireLock t r ttl s) = Ok true ->
       live t s (lockKey r) = None
       /\ snd (acquireLock t r ttl s)
          = <[lockKey r := Entry t (Some (t + ttl))]> s)
      /\ (forall e, live t s (lockKey r) = Some e ->
          fst (acquireLock t r ttl s) <> Ok true
          /\ snd (acquireLock t r ttl s) = s)
      /\ (0 < ttl ->
          (live t s (lockKey r) = None ->
           acquireLock t r ttl s
           = (Ok true, <[lockKey r := Entry t (Some (t + ttl))]> s))
          /\ (forall e, live t s (lockKey r) = Some e ->
              acquireLock t r ttl s = (Ok false, s))))
  /\ (forall st, orderly st ->
        forall r, (length (holdersOf (now st) r (holders st)) <= 1)%nat)
  /\ (forall (s s1 : gmap string entry) (t1 : Z) (r : string) (ttl : Z),
        acquireLock t1 r ttl s = (Ok true, s1) ->
        forall (calls : list (Z * Op)) (t2 ttl2 : Z),
          Forall (fun c => fst c <= t1 + ttl /\ releases r (snd c) = false)
                 calls ->
          t2 <= t1 + ttl ->
          fst (acquireLock t2 r ttl2 (run calls s1)) <> Ok true).
Proof.
  split; [|split].
  - intros t r ttl s.
    destruct (acquireLock_cases t r ttl s)
      as [(Hle & e & Hrun) | [(Httl & [e He] & Hrun) | (Httl & Hfree & Hrun)]];
      rewrite Hrun; simpl.
    + split; [discriminate|]. split; [|lia].
      intros e' _. split; [discriminate|reflexivity].
    + split; [discriminate|]. split.
      * intros e' _. split; [discriminate|reflexivity].
      * intros _. split; [congruence|reflexivity].
    + split; [intros _; split; [exact Hfree|reflexivity]|].
      split; [congruence|].
      intros _. split; [reflexivity|congruence].
  - intros st Horderly r. apply orderly_one_holder. exact Horderly.
  - intros s s1 t1 r ttl Hacq calls t2 ttl2 Hcalls Ht2.
    assert (Hs1 : s1 !! lockKey r = Some (Entry t1 (Some (t1 + ttl)))).
    { destruct (acquireLock_cases t1 r ttl s)
        as [(_ & e & Hrun) | [(_ & _ & Hrun) | (_ & _ & Hrun)]];
        rewrite Hrun in Hacq; try discriminate.
      injection Hacq as <-. apply lookup_insert_eq. }
    pose proof (run_keeps_lock calls s1 r t1 (t1 + ttl) Hs1 Hcalls) as Hkept.
    apply (acquireLock_while_held t2 r ttl2 _ t1 (t1 + ttl) Hkept Ht2).
Qed.

Lemma C1_lock_acquire_witness :
  acquireLock 0 "pr:o/r:1" 300000 ∅
  = (Ok true, <[lockKey "pr:o/r:1" := Entry 0 (Some (0 + 300000))]> ∅)
  /\ (length
        (holdersOf 30 "pr:o/r:1"
           (holders
              (step 30 (Acquire 2 "pr:o/r:1" 1000)
                 (step 20 (Release 1 "pr:o/r:1")
                    (step 10 (Acquire 2 "pr:o/r:1" 1000)
                       (step 0 (Acquire 1 "pr:o/r:1" 300000)
                          {| store := ∅; now := 0; holders := [] |}))))))
      <= 1)%nat
  /\ fst (acquireLock 300000 "pr:o/r:1" 300000
            (run [(5, Acquire 2 "pr:o/r:1" 1000);
                  (7, Release 2 "pr:o/r:2");
                  (9, CheckRate "github:o" 100 3600)]
                 (<[lockKey "pr:o/r:1" := Entry 0 (Some (0 + 300000))]> ∅)))
     <> Ok true.
Proof.
  destruct C1_lock_acquire as (Hacq & Hone & Htwice).
  assert (H : acquireLock 0 "pr:o/r:1" 300000 ∅
              = (Ok true,
                 <[lockKey "pr:o/r:1" := Entry 0 (Some (0 + 300000))]> ∅)).
  { destruct (Hacq 0 "pr:o/r:1" 300000 ∅) as (_ & _ & Hpos).
    apply Hpos; [lia|reflexivity]. }
  split; [exact H|]. split.
  - assert (Horderly :
      orderly
        (step 30 (Acquire 2 "pr:o/r:1" 1000)
           (step 20 (Release 1 "pr:o/r:1")
              (step 10 (Acquire 2 "pr:o/r:1" 1000)
                 (step 0 (Acquire 1 "pr:o/r:1" 300000)
                    {| store := ∅; now := 0; holders := [] |}))))).
    { apply orderly_step; [|vm_compute; discriminate|exact I].
      apply orderly_step; [|vm_compute; discriminate|].
      - apply orderly_step; [|vm_compute; discriminate|exact I].
        apply orderly_step; [|vm_compute; discriminate|exact I].
        apply orderly_init.
      - vm_compute. eexists. split; [left; reflexivity|reflexivity]. }
    exact (Hone _ Horderly "pr:o/r:1").
  - apply (Htwice ∅ _ 0 "pr:o/r:1" 300000 H); [|lia].
    repeat constructor; simpl; lia.
Defined.

End Locks.

(** ** Code analysis *)

Section Analysis.
Import JsString Heuristics CodeAnalysisService.

Lemma dropWhile_nil p s :
  dropWhile p s = [] <-> Forall (fun c => p c = true) s.
Proof.
  induction s as [|c s IH]; simpl.
  - split; [constructor|reflexivity].
  - destruct (p c) eqn:E.
    + rewrite IH. split.
      * intros H. constructor; assumption.
      * intros H. inversion H; assumption.
    + split; [discriminate|].
      intros H. inversion H; congruence.
Qed.

Lemma dropWhile_stops p s c rest : dropWhile p s = c :: rest -> p c = false.
Proof.
  induction s as [|a s IH]; simpl; [discriminate|].
  destruct (p a) eqn:E; [exact IH|].
  intros H. injection H as -> _. exact E.
Qed.

Lemma trim_nil s : trim s = [] <-> blank s.
Proof.
  unfold trim, trimEnd, trimStart, blank. split.
  - intros H.
    assert (Hrev : dropWhile isWhiteSpace (rev (dropWhile isWhiteSpace s)) = []).
    { apply (f_equal (@rev N)) in H. rewrite rev_involutive in H. exact H. }
    apply dropWhile_nil in Hrev. apply Forall_rev in Hrev.
    rewrite rev_involutive in Hrev.
    destruct (dropWhile isWhiteSpace s) as [|c rest] eqn:E.
    + apply dropWhile_nil. exact E.
    + apply dropWhile_stops in E. inversion Hrev; congruence.
  - intros H. apply dropWhile_nil in H. rewrite H. reflexivity.
Qed.

Lemma blank_test s : (length (trim s) =? 0)%nat = true <-> blank s.
Proof.
  rewrite <- trim_nil, Nat.eqb_eq. split.
  - apply nil_length_inv.
  - intros ->. reflexivity.
Qed.

(** C10. analyzeCode(diff) never throws: every call returns a result.
    For an empty or white-space-only diff the result is the fixed
    'No code changes detected' one, with no issues and no positives,
    and no request is sent (the world is unchanged, whatever the AI
    service would answer).  Whenever the AI analysis is called and
    throws, the result is the degraded one: summary 'Analysis completed
    with basic checks only (AI analysis unavailable)', issues exactly
    the heuristic analysis of the diff, no positives. *)
Theorem C10_analyzeCode_never_throws :
  forall (analyzeCodeDiff : jsstring -> Ext AiAnalysis) (diff : jsstring)
         (w : World),
    (exists result w', analyzeCode analyzeCodeDiff diff w = (Ok result, w'))
    /\ (blank diff -> analyzeCode analyzeCodeDiff diff w = (Ok noChanges, w))
    /\ (~ blank diff ->
        forall thrown dt,
          analyzeCodeDiff diff w = (Throw thrown, dt) ->
          analyzeCode analyzeCodeDiff diff w
          = (Ok (basicChecksOnly diff), requested dt w)).
Proof.
  intros ai diff w. unfold analyzeCode, tryCatch.
  destruct (length (trim diff) =? 0)%nat eqn:Eb.
  - apply blank_test in Eb. simpl.
    split; [eexists _, _; reflexivity|].
    split; [reflexivity|]. intros Hn. contradiction.
  - assert (Hnb : ~ blank diff)
      by (intros Hb; apply blank_test in Hb; congruence).
    unfold bind, call.
    destruct (ai diff w) as [[analysis|thrown] dt] eqn:Eai.
    + split; [|split; [intros Hb; contradiction|intros _ ? ? [=]]].
      unfold combine. destruct (aiIssues analysis); simpl;
        eexists _, _; reflexivity.
    + split; [eexists _, _; reflexivity|].
      split; [intros Hb; contradiction|].
      intros _ thrown' dt' [= <- <-]. reflexivity.
Qed.

Lemma C10_analyzeCode_never_throws_witness :
  CodeAnalysisService.analyzeCode
    (fun _ _ => (Throw (Error "Failed to analyze code with OpenAI"), 250%N))
    (lit "+ console.log(1)") (freshWorld 0)
  = (Ok (basicChecksOnly (lit "+ console.log(1)")),
     requested 250 (freshWorld 0))
  /\ CodeAnalysisService.analyzeCode
       (fun _ _ => (Throw (Error "Failed to analyze code with OpenAI"), 250%N))
       (lit "  ") (freshWorld 0)
     = (Ok noChanges, freshWorld 0).
Proof.
  split.
  - apply (C10_analyzeCode_never_throws
             (fun _ _ => (Throw (Error "Failed to analyze code with OpenAI"),
                          250%N))
             (lit "+ console.log(1)") (freshWorld 0))
      with (thrown := Error "Failed to analyze code with OpenAI").
    + intros Hb. inversion Hb as [|c l Hc _]. discriminate Hc.
    + reflexivity.
  - apply (C10_analyzeCode_never_throws
             (fun _ _ => (Throw (Error "Failed to analyze code with OpenAI"),
                          250%N))
             (lit "  ") (freshWorld 0)).
    repeat constructor.
Defined.

End Analysis.

(** ** The enhanced processor and the lock *)

Section Duplicate.
Import Redis ConcurrencyManagerService EnhancedCodeReviewProcessor.

Variable processCodeReview : Bull.Job -> M (option JsObj).

(** C2. When handleCodeReview finds the lock taken (acquireLock returns
    false) and returns the 'duplicate' outcome, its finally block still
    calls releaseLock on the same resource key: the lock record held by
    the worker that is processing the pull request is deleted instead
    of being left alone, and an acquire on that key right afterwards
    returns true although the first job is still running. *)
Theorem C2_duplicate_releases_foreign_lock :
  forall (job : Bull.Job) (w : World) (held : entry),
    live (clock w) (redis w) (lockKey (lockResource job)) = Some held ->
    getCurrentUsage (clock w) (rateIdentifier job) (redis w) < 100 ->
    exists w',
      handleCodeReview processCodeReview job w = (Ok (Some duplicate), w')
      /\ redis w !! lockKey (lockResource job) = Some held
      /\ redis w' !! lockKey (lockResource job) = None
      /\ clock w' = clock w
      /\ jobMetrics w' = jobMetrics w
      /\ jobProgress w' = jobProgress w
      /\ (forall ttl, 0 < ttl ->
            fst (Concurrency.acquireLock (lockResource job) ttl w')
            = Ok true).
Proof.
  intros job w held Hheld Hrate.
  pose proof (checkRateLimit_result (clock w) (rateIdentifier job) 100 3600
                (redis w)) as Hres.
  pose proof (fun k => checkRateLimit_frame (clock w) (rateIdentifier job)
                100 3600 (redis w) k) as Hframe.
  destruct (checkRateLimit (clock w) (rateIdentifier job) 100 3600 (redis w))
    as [ok s1] eqn:Echeck. simpl in Hres, Hframe.
  assert (Hok : ok = true) by (rewrite Hres; apply Z.leb_le; lia).
  subst ok.
  assert (Hheld1 : live (clock w) s1 (lockKey (lockResource job)) = Some held).
  { unfold live in *. rewrite Hframe; [exact Hheld|apply lockKey_rateKey]. }
  pose proof (acquireLock_held (clock w) (lockResource job) 300000 s1 held
                ltac:(lia) Hheld1) as Hacq.
  eexists. split.
  - unfold handleCodeReview, bind, dateNow, tryFinally, tryCatch,
      Concurrency.checkRateLimit, Concurrency.acquireLock,
      Concurrency.releaseLock.
    rewrite Echeck, Hok. simpl. rewrite Hacq. simpl. reflexivity.
  - simpl. split; [apply (live_Some _ _ _ _ Hheld)|].
    split; [rewrite releaseLock_delete; apply lookup_delete_eq|].
    do 3 (split; [reflexivity|]).
    intros ttl Httl. unfold Concurrency.acquireLock. simpl.
    rewrite releaseLock_delete.
    rewrite acquireLock_free; [reflexivity|exact Httl|apply live_delete].
Qed.

End Duplicate.

Lemma C2_duplicate_releases_foreign_lock_witness :
  let job :=
    {| Bull.id := 2; Bull.name := "analyze-pull-request";
       Bull.data := {[ "owner" := JsStr "octo"; "repo" := JsStr "app";
                       "pullNumber" := JsNum 7 ]};
       Bull.opts := {| Bull.priority := None; Bull.attempts := Some (Bull.Number 3);
                       Bull.backoff := None; Bull.removeOnComplete := None;
                       Bull.removeOnFail := None |} |} in
  let w :=
    {| clock := 1000;
       redis := {[ "lock:pr:octo/app:7" := Redis.Entry 900 (Some 300900) ]};
       jobMetrics := []; reviews := []; reviewComments := [];
       jobProgress := ∅; externalCalls := 0 |} in
  exists w',
    EnhancedCodeReviewProcessor.handleCodeReview
      EnhancedCodeReviewProcessor.placeholder job w
    = (Ok (Some EnhancedCodeReviewProcessor.duplicate), w')
    /\ redis w' !! "lock:pr:octo/app:7" = None
    /\ fst (Concurrency.acquireLock "pr:octo/app:7" 300000 w') = Ok true.
Proof.
  intros job w.
  destruct (C2_duplicate_releases_foreign_lock
              EnhancedCodeReviewProcessor.placeholder job w
              (Redis.Entry 900 (Some 300900)))
    as (w' & Hrun & _ & Hgone & _ & _ & _ & Hagain).
  - vm_compute. reflexivity.
  - vm_compute. reflexivity.
  - exists w'. split; [exact Hrun|]. split; [exact Hgone|].
    apply (Hagain 300000). lia.
Defined.

(** ** What the actions leave alone *)

Section Preservation.
Context {B : Type} (f : World -> B).

Lemma preserves_ret {A} (a : A) : preserves f (ret a).
Proof. intros w. reflexivity. Qed.

Lemma preserves_throw {A} e : preserves f (@throw A e).
Proof. intros w. reflexivity. Qed.

Lemma preserves_bind {A C} (m : M A) (k : A -> M C) :
  preserves f m -> (forall a, preserves f (k a)) -> preserves f (bind m k).
Proof.
  intros Hm Hk w. unfold bind. specialize (Hm w).
  destruct (m w) as [[a|e] w1]; simpl in *.
  - rewrite Hk. exact Hm.
  - exact Hm.
Qed.

Lemma preserves_tryCatch {A} (m : M A) (h : exn -> M A) :
  preserves f m -> (forall e, preserves f (h e)) ->
  preserves f (tryCatch m h).
Proof.
  intros Hm Hh w. unfold tryCatch. specialize (Hm w).
  destruct (m w) as [[a|e] w1]; simpl in *.
  - exact Hm.
  - rewrite Hh. exact Hm.
Qed.

Lemma preserves_call {A} (c : Ext A) :
  (forall dt w, f (requested dt w) = f w) -> preserves f (call c).
Proof.
  intros Hf w. unfold call. destruct (c w) as [r dt]. simpl. apply Hf.
Qed.

End Preservation.

Section Processors.
Import DatabaseService.

Variable analyzeCodeDiff : jsstring -> Ext AiAnalysis.
Variable getPullRequestDiff :
  option JsVal -> option JsVal -> option JsVal -> Ext jsstring.
Variable postReviewComments :
  option JsVal -> option JsVal -> option JsVal -> option JsVal ->
  list CodeIssue -> Ext unit.
Variable postReviewSummary :
  option JsVal -> option JsVal -> option JsVal -> option JsVal ->
  jsstring -> Ext unit.

Local Abbreviation pipeline :=
  (CodeReviewProcessor.pipeline analyzeCodeDiff getPullRequestDiff
     postReviewComments postReviewSummary).
Local Abbreviation basicHandler :=
  (CodeReviewProcessor.handleCodeReview analyzeCodeDiff getPullRequestDiff
     postReviewComments postReviewSummary).

Lemma analyzeCode_preserves {B} (f : World -> B) diff :
  (forall dt w, f (requested dt w) = f w) ->
  preserves f (CodeAnalysisService.analyzeCode analyzeCodeDiff diff).
Proof.
  intros Hf. unfold CodeAnalysisService.analyzeCode.
  apply preserves_tryCatch; [|intros e; apply preserves_ret].
  destruct (_ =? _)%nat; [apply preserves_ret|].
  apply preserves_bind; [apply preserves_call; exact Hf|].
  intros a. apply preserves_bind; [|intros l; apply preserves_ret].
  unfold CodeAnalysisService.combine.
  destruct (aiIssues a);
    first [apply preserves_ret | apply preserves_throw].
Qed.

(** The pipeline leaves alone whatever the database writes and the
    external requests leave alone. *)
Lemma pipeline_preserves {B} (f : World -> B) job review :
  (forall dt w, f (requested dt w) = f w) ->
  (forall rs w, length rs = length (reviews w) -> f (setReviews rs w) = f w) ->
  (forall cs w, f (setReviewComments cs w) = f w) ->
  preserves f (pipeline job review).
Proof.
  intros Hreq Hrev Hcom.
  assert (Hupd : forall id st, preserves f (updateReviewStatus id st)).
  { intros id st w. simpl. apply Hrev. apply length_alter. }
  assert (Hadd : forall id l, preserves f (addReviewComments id l)).
  { intros id l w. simpl. apply Hcom. }
  unfold CodeReviewProcessor.pipeline.
  apply preserves_bind; [apply Hupd|intros _].
  apply preserves_bind; [apply preserves_call; exact Hreq|intros diff].
  apply preserves_bind; [apply analyzeCode_preserves; exact Hreq|].
  intros analysis.
  apply preserves_bind.
  - destruct (issues analysis); [apply preserves_ret|].
    apply preserves_bind; [apply Hadd|intros _].
    apply preserves_call; exact Hreq.
  - intros _. apply preserves_bind; [apply Hupd|intros _].
    apply preserves_call; exact Hreq.
Qed.

Lemma pipeline_keeps_metrics job review w :
  jobMetrics (snd (pipeline job review w)) = jobMetrics w.
Proof. apply (pipeline_preserves jobMetrics); reflexivity. Qed.

Lemma pipeline_keeps_review_count job review w :
  length (reviews (snd (pipeline job review w))) = length (reviews w).
Proof.
  apply (pipeline_preserves (fun w => length (reviews w)));
    [reflexivity| |reflexivity].
  intros rs w' H. exact H.
Qed.

(** A review that was saved is the last row of the table. *)
Lemma createReview_ok owner repo pullNumber commitSha summary w review w0 :
  createReview owner repo pullNumber commitSha summary w = (Ok review, w0) ->
  review = length (reviews w)
  /\ w0 = setReviews
            (reviews w
             ++ [ Build_Review owner repo pullNumber commitSha summary
                    "pending" ]) w.
Proof.
  unfold createReview.
  destruct owner, repo, pullNumber, commitSha; intros [= <- <-];
    split; reflexivity.
Qed.

Lemma createReview_stored data summary w :
  storable data = true ->
  createReview (data !! "owner") (data !! "repo") (data !! "pullNumber")
    (data !! "headSha") summary w
  = (Ok (length (reviews w)),
     setReviews
       (reviews w
        ++ [ Build_Review (data !! "owner") (data !! "repo")
               (data !! "pullNumber") (data !! "headSha") summary
               "pending" ]) w).
Proof.
  unfold storable, isString, isInt32, createReview. intros H.
  destruct (data !! "owner") as [[]|]; cbn [andb] in H; try discriminate.
  destruct (data !! "repo") as [[]|]; cbn [andb] in H; try discriminate.
  destruct (data !! "pullNumber") as [[]|]; cbn [andb] in H;
    try discriminate.
  destruct (data !! "headSha") as [[]|];
    rewrite ?andb_false_r in H; try discriminate.
  reflexivity.
Qed.

Lemma createReview_refused data summary w :
  incomplete data ->
  exists e,
    createReview (data !! "owner") (data !! "repo") (data !! "pullNumber")
      (data !! "headSha") summary w
    = (Throw e, w).
Proof.
  unfold incomplete, createReview. intros H.
  destruct (data !! "owner"), (data !! "repo"), (data !! "pullNumber"),
    (data !! "headSha"); try (eexists; reflexivity).
  destruct H as [H|[H|[H|H]]]; discriminate.
Qed.

(** The basic processor: a pipeline exception marks the review failed
    and goes on to the queue. *)
Lemma basic_handler_failure job w review w0 caught w1 :
  createReview (Bull.data job !! "owner") (Bull.data job !! "repo")
    (Bull.data job !! "pullNumber") (Bull.data job !! "headSha")
    "Processing..." w = (Ok review, w0) ->
  pipeline job review w0 = (Throw caught, w1) ->
  basicHandler job w
  = (Throw caught,
     setReviews (alter (withStatus "failed") review (reviews w1)) w1)
  /\ (exists r,
        alter (withStatus "failed") review (reviews w1) !! review = Some r
        /\ reviewStatus r = "failed")
  /\ jobMetrics w1 = jobMetrics w.
Proof.
  intros Hcreate Hpipe.
  pose proof (pipeline_keeps_metrics job review w0) as Hm.
  pose proof (pipeline_keeps_review_count job review w0) as Hlen.
  rewrite Hpipe in Hm, Hlen. simpl in Hm, Hlen.
  split; [|split].
  - unfold CodeReviewProcessor.handleCodeReview, bind, tryCatch.
    rewrite Hcreate, Hpipe. reflexivity.
  - apply createReview_ok in Hcreate as [-> ->]. simpl in Hlen.
    rewrite length_app in Hlen. simpl in Hlen.
    destruct (lookup_lt_is_Some_2 (reviews w1) (length (reviews w)))
      as [r Hr]; [lia|].
    exists (withStatus "failed" r). split; [|reflexivity].
    rewrite list_lookup_alter_eq, Hr. reflexivity.
  - apply createReview_ok in Hcreate as [-> ->]. rewrite Hm. reflexivity.
Qed.

End Processors.

Section EnhancedFailure.
Import ConcurrencyManagerService EnhancedCodeReviewProcessor.

Variable processCodeReview : Bull.Job -> M (option JsObj).

(** The enhanced processor: an exception of the pipeline is recorded as
    an error metric, the lock is released, and the exception goes on
    to the queue. *)
Lemma enhanced_handler_failure job w wa wb caught w1 :
  Concurrency.checkRateLimit (rateIdentifier job) 100 3600 w = (Ok true, wa) ->
  Concurrency.acquireLock (lockResource job) 300000 wa = (Ok true, wb) ->
  processCodeReview job
    (setJobProgress (<[Bull.id job := 10]> (jobProgress wb)) wb)
  = (Throw caught, w1) ->
  handleCodeReview processCodeReview job w
  = (Throw caught,
     setRedis (releaseLock (clock w1) (lockResource job) (redis w1))
       (setJobMetrics (jobMetrics w1 ++ [errorMetric (clock w) (clock w1)])
          w1)).
Proof.
  intros Hrate Hlock Hpipe.
  unfold handleCodeReview, bind, tryFinally, tryCatch, dateNow.
  rewrite Hrate. cbn [negb]. rewrite Hlock. cbn [negb].
  unfold jobProgressTo at 1. rewrite Hpipe.
  reflexivity.
Qed.

End EnhancedFailure.

(** ** Pipeline failures *)

Section Failures.
Import ConcurrencyManagerService DatabaseService.

(** C9, as stated, fails: no handler does both.  When GitHub refuses
    the diff, the basic processor marks the review failed and re-throws
    but records no metric; when its pipeline throws, the enhanced
    processor records an error metric and re-throws but leaves the
    review record as it was. *)
Lemma C9_failure_bookkeeping_counterexample :
  (exists w2,
      CodeReviewProcessor.handleCodeReview aiUnavailable diffUnavailable
        postNothing postNoSummary sampleJob (freshWorld 0)
      = (Throw fetchError, w2)
      /\ map reviewStatus (reviews w2) = ["failed"]
      /\ jobMetrics w2 = [])
  /\ (exists w2,
        EnhancedCodeReviewProcessor.handleCodeReview
          (fun _ => throw fetchError) sampleJob reviewUnderWay
        = (Throw fetchError, w2)
        /\ map status (jobMetrics w2) = [error]
        /\ map reviewStatus (reviews w2) = ["in_progress"]).
Proof.
  split; eexists; (split; [vm_compute; reflexivity|]);
    split; reflexivity.
Qed.

(** C9, amended. No exception of the pipeline is swallowed: each
    handler re-throws the same exception to the queue after its own
    bookkeeping.  CodeReviewProcessor.handleCodeReview first sets the
    owning review record's status to 'failed' (and records no metric);
    EnhancedCodeReviewProcessor.handleCodeReview first records an
    'error' metric and releases the lock (and updates no review record
    itself); when the enhanced processor runs the basic one as its
    pipeline, the review is marked failed and the error metric is
    recorded before the exception reaches the queue. *)
Theorem C9_failure_bookkeeping :
  forall (analyzeCodeDiff : jsstring -> Ext AiAnalysis)
         (getPullRequestDiff :
            option JsVal -> option JsVal -> option JsVal -> Ext jsstring)
         (postReviewComments :
            option JsVal -> option JsVal -> option JsVal -> option JsVal ->
            list CodeIssue -> Ext unit)
         (postReviewSummary :
            option JsVal -> option JsVal -> option JsVal -> option JsVal ->
            jsstring -> Ext unit)
         (processCodeReview : Bull.Job -> M (option JsObj))
         (job : Bull.Job) (caught : exn),
    (forall w review w0 w1,
        createReview (Bull.data job !! "owner") (Bull.data job !! "repo")
          (Bull.data job !! "pullNumber") (Bull.data job !! "headSha")
          "Processing..." w = (Ok review, w0) ->
        CodeReviewProcessor.pipeline analyzeCodeDiff getPullRequestDiff
          postReviewComments postReviewSummary job review w0
        = (Throw caught, w1) ->
        exists w2 r,
          CodeReviewProcessor.handleCodeReview analyzeCodeDiff
            getPullRequestDiff postReviewComments postReviewSummary job w
          = (Throw caught, w2)
          /\ reviews w2 !! review = Some r
          /\ reviewStatus r = "failed"
          /\ jobMetrics w2 = jobMetrics w)
    /\ (forall w wa wb w1,
          Concurrency.checkRateLimit
            (EnhancedCodeReviewProcessor.rateIdentifier job) 100 3600 w
          = (Ok true, wa) ->
          Concurrency.acquireLock
            (EnhancedCodeReviewProcessor.lockResource job) 300000 wa
          = (Ok true, wb) ->
          processCodeReview job
            (setJobProgress (<[Bull.id job := 10]> (jobProgress wb)) wb)
          = (Throw caught, w1) ->
          exists w2,
            EnhancedCodeReviewProcessor.handleCodeReview processCodeReview
              job w
            = (Throw caught, w2)
            /\ jobMetrics w2
               = jobMetrics w1 ++ [errorMetric (clock w) (clock w1)]
            /\ reviews w2 = reviews w1
            /\ redis w2
               !! lockKey (EnhancedCodeReviewProcessor.lockResource job)
               = None)
    /\ (forall w wa wb review w0 w1,
          Concurrency.checkRateLimit
            (EnhancedCodeReviewProcessor.rateIdentifier job) 100 3600 w
          = (Ok true, wa) ->
          Concurrency.acquireLock
            (EnhancedCodeReviewProcessor.lockResource job) 300000 wa
          = (Ok true, wb) ->
          createReview (Bull.data job !! "owner") (Bull.data job !! "repo")
            (Bull.data job !! "pullNumber") (Bull.data job !! "headSha")
            "Processing..."
            (setJobProgress (<[Bull.id job := 10]> (jobProgress wb)) wb)
          = (Ok review, w0) ->
          CodeReviewProcessor.pipeline analyzeCodeDiff getPullRequestDiff
            postReviewComments postReviewSummary job review w0
          = (Throw caught, w1) ->
          exists w2 r,
            composedHandler analyzeCodeDiff getPullRequestDiff
              postReviewComments postReviewSummary job w
            = (Throw caught, w2)
            /\ reviews w2 !! review = Some r
            /\ reviewStatus r = "failed"
            /\ jobMetrics w2
               = jobMetrics w ++ [errorMetric (clock w) (clock w1)]).
Proof.
  intros ai diffOf postComments postSummary processCodeReview job caught.
  split; [|split].
  - intros w review w0 w1 Hcreate Hpipe.
    destruct (basic_handler_failure ai diffOf postComments postSummary
                job w review w0 caught w1 Hcreate Hpipe)
      as (Hrun & (r & Hr & Hst) & Hm).
    eexists _, r. split; [exact Hrun|].
    split; [exact Hr|]. split; [exact Hst|exact Hm].
  - intros w wa wb w1 Hrate Hlock Hpipe.
    eexists. split.
    + apply (enhanced_handler_failure processCodeReview job w wa wb caught w1);
        assumption.
    + split; [reflexivity|]. split; [reflexivity|].
      simpl. rewrite releaseLock_delete. apply lookup_delete_eq.
  - intros w wa wb review w0 w1 Hrate Hlock Hcreate Hpipe.
    destruct (basic_handler_failure ai diffOf postComments postSummary
                job _ review w0 caught w1 Hcreate Hpipe)
      as (Hrun & (r & Hr & Hst) & Hm).
    eexists _, r. split.
    + unfold composedHandler.
      apply (enhanced_handler_failure _ job w wa wb caught).
      * exact Hrate.
      * exact Hlock.
      * unfold bind at 1. cbv zeta in Hrun. rewrite Hrun. reflexivity.
    + split; [exact Hr|]. split; [exact Hst|].
      simpl. rewrite Hm. simpl.
      unfold Concurrency.checkRateLimit in Hrate.
      destruct (checkRateLimit _ _ _ _ _) in Hrate.
      injection Hrate as _ <-.
      unfold Concurrency.acquireLock in Hlock.
      destruct (acquireLock _ _ _ _) in Hlock.
      injection Hlock as _ <-. reflexivity.
Qed.

Lemma C9_failure_bookkeeping_witness :
  exists w2 r,
    composedHandler aiUnavailable diffUnavailable postNothing postNoSummary
      sampleJob (freshWorld 1000)
    = (Throw fetchError, w2)
    /\ reviews w2 !! 0%nat = Some r
    /\ reviewStatus r = "failed"
    /\ jobMetrics w2 = [errorMetric 1000 1040].
Proof.
  destruct (C9_failure_bookkeeping aiUnavailable diffUnavailable postNothing
              postNoSummary EnhancedCodeReviewProcessor.placeholder
              sampleJob fetchError) as (_ & _ & Hboth).
  edestruct (Hboth (freshWorld 1000)) as (w2 & r & Hrun & Hr & Hst & Hm).
  - reflexivity.
  - reflexivity.
  - reflexivity.
  - reflexivity.
  - exists w2, r. split; [exact Hrun|]. split; [exact Hr|].
    split; [exact Hst|exact Hm].
Defined.

End Failures.

(** * Further properties of the services *)

(** ** Lock expiry and the rate limiter in general *)

Section LockExpiry.
Import Redis ConcurrencyManagerService LockSystem.

(** X1. A lock that nobody releases can be taken again once its TTL has
    elapsed: after an acquire that returned true at [t1], and whatever
    calls other than a release of that key came in between (within the
    TTL), an acquire with a positive TTL at any time after [t1 + ttl]
    returns true and writes a new record. *)
Theorem lock_expires_without_release :
  forall (s s1 : gmap string entry) (t1 : Z) (r : string) (ttl : Z),
    acquireLock t1 r ttl s = (Ok true, s1) ->
    forall (calls : list (Z * Op)) (t2 ttl2 : Z),
      Forall (fun c => fst c <= t1 + ttl /\ releases r (snd c) = false) calls ->
      t1 + ttl < t2 -> 0 < ttl2 ->
      acquireLock t2 r ttl2 (run calls s1)
      = (Ok true,
         <[lockKey r := Entry t2 (Some (t2 + ttl2))]> (run calls s1)).
Proof.
  intros s s1 t1 r ttl Hacq calls t2 ttl2 Hcalls Ht2 Httl2.
  assert (Hs1 : s1 !! lockKey r = Some (Entry t1 (Some (t1 + ttl)))).
  { destruct (acquireLock_cases t1 r ttl s)
      as [(_ & e & Hrun) | [(_ & _ & Hrun) | (_ & _ & Hrun)]];
      rewrite Hrun in Hacq; try discriminate.
    injection Hacq as <-. apply lookup_insert_eq. }
  pose proof (run_keeps_lock calls s1 r t1 (t1 + ttl) Hs1 Hcalls) as Hkept.
  apply acquireLock_free; [exact Httl2|].
  apply (live_lapsed t2 _ _ t1 (t1 + ttl) Hkept Ht2).
Qed.

Lemma lock_expires_without_release_witness :
  fst (acquireLock 300001 "pr:o/r:1" 300000
         (run [(5, Acquire 2 "pr:o/r:1" 1000); (9, CheckRate "github:o" 100 3600)]
              (<[lockKey "pr:o/r:1" := Entry 0 (Some (0 + 300000))]> ∅)))
  = Ok true.
Proof.
  rewrite (lock_expires_without_release ∅ _ 0 "pr:o/r:1" 300000).
  - reflexivity.
  - reflexivity.
  - repeat constructor; simpl; lia.
  - lia.
  - lia.
Defined.

(** Calls inside a window opened earlier: the counter stands at [c] and
    expires at [until]. *)
Lemma checkRateLimitAt_within times i limit window (s : gmap string entry) c until :
  s !! rateKey i = Some (Entry c (Some until)) -> 0 < c ->
  Forall (fun t => t <= until) times ->
  exists s',
    checkRateLimitAt times i limit window s
    = (map (fun k => c + Z.of_nat k <=? limit) (seq 1 (length times)), s')
    /\ s' !! rateKey i = Some (Entry (c + Z.of_nat (length times)) (Some until)).
Proof.
  revert s c. induction times as [|t times IH]; intros s c Hs Hc Hall.
  - exists s. split; [reflexivity|]. simpl. rewrite Z.add_0_r. exact Hs.
  - inversion Hall as [|t' ts Ht Hrest]; subst.
    destruct (checkRateLimit_within t i limit window s c until Hs Ht ltac:(lia))
      as (s1 & Hcall & Hs1).
    destruct (IH s1 (c + 1) Hs1 ltac:(lia) Hrest) as (s' & Hrun & Hs').
    exists s'. split.
    + cbn [checkRateLimitAt]. rewrite Hcall, Hrun. cbn [length seq map].
      f_equal. f_equal.
      rewrite <- (seq_shift (length times) 1), map_map. apply map_ext.
      intros k. f_equal. lia.
    + rewrite Hs'. f_equal. f_equal. cbn [length]. lia.
Qed.

Lemma admitted_count limit n :
  length (List.filter (fun k => Z.of_nat k <=? limit) (seq 1 n))
  = Nat.min n (Z.to_nat limit).
Proof.
  induction n as [|n IH]; [reflexivity|].
  rewrite seq_S, List.filter_app, length_app, IH. cbn [List.filter].
  destruct (Z.of_nat (1 + n) <=? limit) eqn:E; cbn [length].
  - apply Z.leb_le in E. lia.
  - apply Z.leb_gt in E. lia.
Qed.

(** X2. The limiter admits exactly the first [limit] calls of a window:
    for a fresh identifier and any number of calls made within
    [window] seconds of the first, the k-th call returns true exactly
    when k <= limit, so min(n, limit) of n calls are admitted; every
    call is counted (the usage reads n), and once the window has lapsed
    the usage reads 0 again. *)
Theorem rate_limit_admits_first_calls :
  forall (s : gmap string entry) (i : string) (limit window t1 : Z)
         (times : list Z),
    0 < window ->
    live t1 s (rateKey i) = None ->
    Forall (fun t => t <= t1 + window * 1000) times ->
    exists s',
      checkRateLimitAt (t1 :: times) i limit window s
      = (map (fun k => Z.of_nat k <=? limit) (seq 1 (S (length times))), s')
      /\ length (List.filter (fun ok => ok)
                   (fst (checkRateLimitAt (t1 :: times) i limit window s)))
         = Nat.min (S (length times)) (Z.to_nat limit)
      /\ (forall t, t <= t1 + window * 1000 ->
            getCurrentUsage t i s' = Z.of_nat (S (length times)))
      /\ (forall t, t1 + window * 1000 < t -> getCurrentUsage t i s' = 0).
Proof.
  intros s i limit window t1 times Hw Hfree Hall.
  pose proof (checkRateLimit_first t1 i limit window s Hw Hfree) as Hcall.
  set (s1 := <[rateKey i := Entry 1 (Some (t1 + window * 1000))]> s) in *.
  assert (Hs1 : s1 !! rateKey i = Some (Entry 1 (Some (t1 + window * 1000))))
    by apply lookup_insert_eq.
  destruct (checkRateLimitAt_within times i limit window s1 1 _ Hs1 ltac:(lia) Hall)
    as (s' & Hrun & Hs').
  assert (Heq : checkRateLimitAt (t1 :: times) i limit window s
                = (map (fun k => Z.of_nat k <=? limit)
                       (seq 1 (S (length times))), s')).
  { cbn [checkRateLimitAt]. rewrite Hcall, Hrun. cbn [seq map].
    f_equal. f_equal.
    rewrite <- (seq_shift (length times) 1), map_map. apply map_ext.
    intros k. f_equal. lia. }
  exists s'. split; [exact Heq|]. split; [|split].
  - rewrite Heq. cbn [fst].
    rewrite <- (admitted_count limit (S (length times))).
    generalize (seq 1 (S (length times))). intros l.
    induction l as [|k l IHl]; [reflexivity|]. cbn [map List.filter].
    destruct (Z.of_nat k <=? limit); cbn [length]; rewrite IHl; reflexivity.
  - intros t Ht. rewrite getCurrentUsage_live.
    rewrite (live_lookup t s' _ _ _ Hs' Ht). simpl. lia.
  - intros t Ht. rewrite getCurrentUsage_live.
    rewrite (live_lapsed t s' _ _ _ Hs' Ht). reflexivity.
Qed.

Lemma rate_limit_admits_first_calls_witness :
  exists s',
    checkRateLimitAt [1000; 1001; 1002; 1003] "github:octo" 2 3600 ∅
    = ([true; true; false; false], s')
    /\ getCurrentUsage 2000 "github:octo" s' = 4
    /\ getCurrentUsage 3601001 "github:octo" s' = 0.
Proof.
  destruct (rate_limit_admits_first_calls ∅ "github:octo" 2 3600 1000
              [1001; 1002; 1003])
    as (s' & Hrun & _ & Hin & Hout).
  - lia.
  - reflexivity.
  - repeat constructor; lia.
  - exists s'. split; [exact Hrun|]. split; [apply Hin; lia|apply Hout; lia].
Defined.

(** X3. Locks and rate counters do not interfere: checkRateLimit leaves
    every lock record as it is, and acquireLock and releaseLock leave the
    usage of every identifier as it is. *)
Theorem locks_and_counters_independent :
  forall (t t' : Z) (s : gmap string entry) (r i : string)
         (limit window ttl : Z),
    live t' (snd (checkRateLimit t i limit window s)) (lockKey r)
    = live t' s (lockKey r)
    /\ getCurrentUsage t' i (snd (acquireLock t r ttl s))
       = getCurrentUsage t' i s
    /\ getCurrentUsage t' i (releaseLock t r s) = getCurrentUsage t' i s.
Proof.
  intros t t' s r i limit window ttl.
  assert (Hne : rateKey i <> lockKey r)
    by (intros H; symmetry in H; exact (lockKey_rateKey _ _ H)).
  split; [|split].
  - unfold live. rewrite checkRateLimit_frame; [reflexivity|].
    apply lockKey_rateKey.
  - rewrite !getCurrentUsage_live. unfold live.
    rewrite acquireLock_frame; [reflexivity|exact Hne].
  - rewrite !getCurrentUsage_live. unfold live.
    rewrite releaseLock_delete, lookup_delete_ne; [reflexivity|].
    intros H. apply Hne. symmetry. exact H.
Qed.

End LockExpiry.

(** ** The enhanced processor on its other paths *)

Section EnhancedPaths.
Import Redis ConcurrencyManagerService EnhancedCodeReviewProcessor.

Variable processCodeReview : Bull.Job -> M (option JsObj).

(** The start of a run that is let through: the pipeline is called in
    the world [admitted job w]. *)
Lemma enhanced_admission job w :
  getCurrentUsage (clock w) (rateIdentifier job) (redis w) < 100 ->
  live (clock w) (redis w) (lockKey (lockResource job)) = None ->
  exists wa wb,
    Concurrency.checkRateLimit (rateIdentifier job) 100 3600 w = (Ok true, wa)
    /\ Concurrency.acquireLock (lockResource job) 300000 wa = (Ok true, wb)
    /\ setJobProgress (<[Bull.id job := 10]> (jobProgress wb)) wb
       = admitted job w.
Proof.
  intros Hrate Hfree.
  pose proof (checkRateLimit_result (clock w) (rateIdentifier job) 100 3600
                (redis w)) as Hres.
  pose proof (fun k => checkRateLimit_frame (clock w) (rateIdentifier job)
                100 3600 (redis w) k) as Hframe.
  unfold admitted, Concurrency.checkRateLimit, Concurrency.acquireLock.
  destruct (checkRateLimit (clock w) (rateIdentifier job) 100 3600 (redis w))
    as [ok s1] eqn:Echeck. cbn [fst snd] in *.
  assert (Hok : ok = true) by (rewrite Hres; apply Z.leb_le; lia).
  assert (Hfree1 : live (clock w) s1 (lockKey (lockResource job)) = None).
  { unfold live in *. rewrite Hframe; [exact Hfree|apply lockKey_rateKey]. }
  eexists _, _. split; [rewrite Hok; reflexivity|].
  cbn [clock redis setRedis].
  rewrite (acquireLock_free (clock w) (lockResource job) 300000 s1
             ltac:(lia) Hfree1).
  split; reflexivity.
Qed.

(** A run that finds the lock taken is a duplicate. *)
Lemma enhanced_duplicate_run job w held :
  live (clock w) (redis w) (lockKey (lockResource job)) = Some held ->
  getCurrentUsage (clock w) (rateIdentifier job) (redis w) < 100 ->
  fst (handleCodeReview processCodeReview job w) = Ok (Some duplicate).
Proof.
  intros Hheld Hrate.
  pose proof (checkRateLimit_result (clock w) (rateIdentifier job) 100 3600
                (redis w)) as Hres.
  pose proof (fun k => checkRateLimit_frame (clock w) (rateIdentifier job)
                100 3600 (redis w) k) as Hframe.
  destruct (checkRateLimit (clock w) (rateIdentifier job) 100 3600 (redis w))
    as [ok s1] eqn:Echeck. cbn [fst snd] in *.
  assert (Hok : ok = true) by (rewrite Hres; apply Z.leb_le; lia).
  clear Hres. subst ok.
  assert (Hheld1 : live (clock w) s1 (lockKey (lockResource job)) = Some held).
  { unfold live in *. rewrite Hframe; [exact Hheld|apply lockKey_rateKey]. }
  pose proof (acquireLock_held (clock w) (lockResource job) 300000 s1 held
                ltac:(lia) Hheld1) as Hacq.
  unfold handleCodeReview, bind, dateNow, tryFinally, tryCatch,
    Concurrency.checkRateLimit, Concurrency.acquireLock,
    Concurrency.releaseLock.
  rewrite Echeck. simpl. rewrite Hacq. reflexivity.
Qed.

(** X4. The lock is free whenever handleCodeReview has settled: whatever
    the pipeline does and however the run ends (result, duplicate, rate
    limit, exception), the store holds no lock record for the job's
    resource afterwards. *)
Theorem enhanced_handler_always_releases :
  forall (job : Bull.Job) (w : World),
    redis (snd (handleCodeReview processCodeReview job w))
    !! lockKey (lockResource job) = None.
Proof.
  intros job w. unfold handleCodeReview, bind at 1, dateNow, tryFinally.
  match goal with
  | |- context [let (r, w') := ?m w in _] => destruct (m w) as [r w1]
  end.
  unfold Concurrency.releaseLock. cbn [snd redis setRedis].
  rewrite releaseLock_delete. apply lookup_delete_eq.
Qed.

(** X5. A job over the rate limit (100 requests already counted for the
    owner in the window) is failed with 'Rate limit exceeded' without the
    pipeline being run, so with the same outcome whatever the pipeline
    is: the rejected attempt is counted, one error metric is recorded
    whose duration is the time from the start of the handler to the
    answer of the limiter, no progress is reported, and the finally
    block deletes the lock record of the resource although this run
    never acquired it. *)
Theorem enhanced_handler_rate_limited :
  forall (job : Bull.Job) (w wa : World) (allowed : bool),
    100 <= getCurrentUsage (clock w) (rateIdentifier job) (redis w) ->
    Concurrency.checkRateLimit (rateIdentifier job) 100 3600 w
    = (Ok allowed, wa) ->
    allowed = false
    /\ exists w',
         handleCodeReview processCodeReview job w
         = (Throw (Error "Rate limit exceeded"), w')
         /\ (forall pipeline,
                handleCodeReview pipeline job w
                = handleCodeReview processCodeReview job w)
         /\ jobMetrics w' = jobMetrics wa ++ [errorMetric (clock w) (clock wa)]
         /\ jobProgress w' = jobProgress w
         /\ reviews w' = reviews w
         /\ getCurrentUsage (clock wa) (rateIdentifier job) (redis w')
            = getCurrentUsage (clock w) (rateIdentifier job) (redis w) + 1
         /\ redis w' !! lockKey (lockResource job) = None.
Proof.
  intros job w wa allowed Hrate Hcheck.
  pose proof (checkRateLimit_result (clock w) (rateIdentifier job) 100 3600
                (redis w)) as Hres.
  pose proof (checkRateLimit_usage (clock w) (rateIdentifier job) 100 3600
                (redis w) ltac:(lia)) as Huse.
  assert (Hrun : forall pipeline,
            handleCodeReview pipeline job w
            = match Concurrency.checkRateLimit (rateIdentifier job) 100 3600 w
              with
              | (Ok true, _) => handleCodeReview pipeline job w
              | (Ok false, wa) =>
                  (Throw (Error "Rate limit exceeded"),
                   setRedis
                     (releaseLock (clock wa) (lockResource job) (redis wa))
                     (setJobMetrics
                        (jobMetrics wa ++ [errorMetric (clock w) (clock wa)])
                        wa))
              | (Throw _, _) => handleCodeReview pipeline job w
              end).
  { intros pipeline.
    unfold handleCodeReview, bind, dateNow, tryFinally, tryCatch.
    destruct (Concurrency.checkRateLimit (rateIdentifier job) 100 3600 w)
      as [[[|]|e] w0]; reflexivity. }
  unfold Concurrency.checkRateLimit in Hcheck.
  destruct (checkRateLimit (clock w) (rateIdentifier job) 100 3600 (redis w))
    as [ok s1] eqn:Echeck. cbn [fst snd] in *.
  injection Hcheck as <- <-.
  assert (Hok : ok = false) by (rewrite Hres; apply Z.leb_gt; lia).
  clear Hres. subst ok. split; [reflexivity|].
  assert (Hcall : Concurrency.checkRateLimit (rateIdentifier job) 100 3600 w
                  = (Ok false, setRedis s1 w)).
  { unfold Concurrency.checkRateLimit. rewrite Echeck. reflexivity. }
  eexists. split; [rewrite (Hrun processCodeReview), Hcall; reflexivity|].
  split.
  { intros pipeline. rewrite (Hrun pipeline), (Hrun processCodeReview), Hcall.
    reflexivity. }
  cbn [jobMetrics jobProgress reviews clock redis setRedis setJobMetrics].
  split; [reflexivity|]. do 2 (split; [reflexivity|]).
  split.
  - rewrite <- Huse. rewrite !getCurrentUsage_live. unfold live.
    rewrite releaseLock_delete, lookup_delete_ne; [reflexivity|].
    apply lockKey_rateKey.
  - rewrite releaseLock_delete. apply lookup_delete_eq.
Qed.

(** X6. A job that is let through and whose pipeline returns: the result
    of the pipeline is returned, one success metric is recorded with the
    time from the start of the handler to the end of the pipeline as its
    duration, progress is 100, and the lock is released. *)
Theorem enhanced_handler_success :
  forall (job : Bull.Job) (w w1 : World) (result : option JsObj),
    getCurrentUsage (clock w) (rateIdentifier job) (redis w) < 100 ->
    live (clock w) (redis w) (lockKey (lockResource job)) = None ->
    processCodeReview job (admitted job w) = (Ok result, w1) ->
    exists w',
      handleCodeReview processCodeReview job w = (Ok result, w')
      /\ jobMetrics w' = jobMetrics w1 ++ [successMetric (clock w) (clock w1)]
      /\ jobProgress w' !! Bull.id job = Some 100
      /\ redis w' !! lockKey (lockResource job) = None
      /\ reviews w' = reviews w1.
Proof.
  intros job w w1 result Hrate Hfree Hpipe.
  destruct (enhanced_admission job w Hrate Hfree) as (wa & wb & Ha & Hb & Hc).
  eexists. split.
  - unfold handleCodeReview, bind, tryFinally, tryCatch, dateNow.
    rewrite Ha. cbn [negb]. rewrite Hb. cbn [negb].
    unfold jobProgressTo at 1. rewrite Hc, Hpipe. reflexivity.
  - cbn [jobMetrics jobProgress reviews clock redis setRedis setJobMetrics
           setJobProgress].
    split; [reflexivity|]. split; [apply lookup_insert_eq|].
    split; [|reflexivity].
    rewrite releaseLock_delete. apply lookup_delete_eq.
Qed.

(** X7. The pipeline of a job that is let through (the limiter answers
    true, then the lock is acquired) is run while the job holds the
    lock.  Whatever the pipeline is, the handler returns or throws what
    the pipeline returns or throws when it is started in the world left
    by the acquire with progress set to 10; the store of that world has
    the lock record of the resource, written by the acquire with 300000
    ms to live, and every acquire of the resource on that store within
    those 300000 ms is refused. *)
Theorem enhanced_pipeline_runs_under_lock :
  forall (job : Bull.Job) (w wa wb : World),
    Concurrency.checkRateLimit (rateIdentifier job) 100 3600 w
    = (Ok true, wa) ->
    Concurrency.acquireLock (lockResource job) 300000 wa = (Ok true, wb) ->
    let started :=
      setJobProgress (<[Bull.id job := 10]> (jobProgress wb)) wb in
    (forall pipeline : Bull.Job -> M (option JsObj),
        fst (handleCodeReview pipeline job w) = fst (pipeline job started))
    /\ (forall t, t <= clock wa + 300000 ->
          live t (redis started) (lockKey (lockResource job))
          = Some (Entry (clock wa) (Some (clock wa + 300000)))
          /\ forall ttl, 0 < ttl ->
               acquireLock t (lockResource job) ttl (redis started)
               = (Ok false, redis started))
    /\ jobProgress started !! Bull.id job = Some 10.
Proof.
  intros job w wa wb Ha Hb started.
  assert (Hlock : forall t, t <= clock wa + 300000 ->
            live t (redis started) (lockKey (lockResource job))
            = Some (Entry (clock wa) (Some (clock wa + 300000)))).
  { intros t Ht. unfold started. cbn [redis setJobProgress].
    unfold Concurrency.acquireLock in Hb.
    destruct (acquireLock_cases (clock wa) (lockResource job) 300000
                (redis wa))
      as [(_ & e & Hrun) | [(_ & _ & Hrun) | (_ & _ & Hrun)]];
      rewrite Hrun in Hb; try discriminate.
    injection Hb as <-. cbn [redis setRedis].
    apply live_lookup; [apply lookup_insert_eq|exact Ht]. }
  split; [|split].
  - intros pipeline.
    unfold handleCodeReview, bind, tryFinally, tryCatch, dateNow.
    rewrite Ha. cbn [negb]. rewrite Hb. cbn [negb].
    unfold jobProgressTo at 1. fold started.
    destruct (pipeline job started) as [[result|e] w1]; reflexivity.
  - intros t Ht. split; [apply Hlock; exact Ht|].
    intros ttl Httl.
    apply (acquireLock_held t (lockResource job) ttl _
             (Entry (clock wa) (Some (clock wa + 300000))) Httl).
    apply Hlock. exact Ht.
  - unfold started. cbn [jobProgress setJobProgress].
    apply lookup_insert_eq.
Qed.

End EnhancedPaths.

Lemma enhanced_handler_rate_limited_witness :
  exists w',
    EnhancedCodeReviewProcessor.handleCodeReview
      EnhancedCodeReviewProcessor.placeholder sampleJob budgetSpent
    = (Throw (Error "Rate limit exceeded"), w')
    /\ map status (jobMetrics w') = [error]
    /\ ConcurrencyManagerService.getCurrentUsage 1000 "github:octo" (redis w')
       = 101.
Proof.
  destruct (enhanced_handler_rate_limited
              EnhancedCodeReviewProcessor.placeholder sampleJob budgetSpent
              (snd (Concurrency.checkRateLimit "github:octo" 100 3600
                      budgetSpent))
              false)
    as (_ & w' & Hrun & _ & Hm & _ & _ & Hu & _).
  - vm_compute. discriminate.
  - reflexivity.
  - exists w'. split; [exact Hrun|]. split; [rewrite Hm; reflexivity|exact Hu].
Defined.

Lemma enhanced_handler_success_witness :
  exists w',
    EnhancedCodeReviewProcessor.handleCodeReview
      EnhancedCodeReviewProcessor.placeholder sampleJob (freshWorld 1000)
    = (Ok (Some {[ "status" := JsStr "completed" ]}), w')
    /\ jobMetrics w' = [successMetric 1000 1000]
    /\ jobProgress w' !! 2 = Some 100.
Proof.
  destruct (enhanced_handler_success
              EnhancedCodeReviewProcessor.placeholder sampleJob
              (freshWorld 1000) (admitted sampleJob (freshWorld 1000))
              (Some {[ "status" := JsStr "completed" ]}))
    as (w' & Hrun & Hm & Hp & _).
  - vm_compute. reflexivity.
  - reflexivity.
  - reflexivity.
  - exists w'. split; [exact Hrun|]. split; [exact Hm|exact Hp].
Defined.

Lemma enhanced_pipeline_runs_under_lock_witness :
  fst (EnhancedCodeReviewProcessor.handleCodeReview
         EnhancedCodeReviewProcessor.placeholder sampleJob (freshWorld 1000))
  = Ok (Some {[ "status" := JsStr "completed" ]})
  /\ Redis.live 1500 (redis (admitted sampleJob (freshWorld 1000)))
       "lock:pr:octo/app:7"
     = Some (Redis.Entry 1000 (Some 301000)).
Proof.
  destruct (enhanced_pipeline_runs_under_lock sampleJob (freshWorld 1000)
              (snd (Concurrency.checkRateLimit "github:octo" 100 3600
                      (freshWorld 1000)))
              (snd (Concurrency.acquireLock "pr:octo/app:7" 300000
                      (snd (Concurrency.checkRateLimit "github:octo" 100 3600
                              (freshWorld 1000))))))
    as (Hrun & Hlock & _).
  - reflexivity.
  - reflexivity.
  - split; [apply (Hrun EnhancedCodeReviewProcessor.placeholder)|].
    destruct (Hlock 1500) as [Hlive _]; [vm_compute; discriminate|].
    exact Hlive.
Defined.

(** ** The basic processor and its review record *)

Section BasicPaths.
Import DatabaseService.

Variable analyzeCodeDiff : jsstring -> Ext AiAnalysis.
Variable getPullRequestDiff :
  option JsVal -> option JsVal -> option JsVal -> Ext jsstring.
Variable postReviewComments :
  option JsVal -> option JsVal -> option JsVal -> option JsVal ->
  list CodeIssue -> Ext unit.
Variable postReviewSummary :
  option JsVal -> option JsVal -> option JsVal -> option JsVal ->
  jsstring -> Ext unit.

Local Abbreviation pipeline :=
  (CodeReviewProcessor.pipeline analyzeCodeDiff getPullRequestDiff
     postReviewComments postReviewSummary).
Local Abbreviation basicHandler :=
  (CodeReviewProcessor.handleCodeReview analyzeCodeDiff getPullRequestDiff
     postReviewComments postReviewSummary).

(** The pipeline leaves alone whatever the status updates of its own
    review, the comment rows and the external requests leave alone. *)
Lemma pipeline_preserves_but_status {B} (f : World -> B) job review :
  (forall dt w, f (requested dt w) = f w) ->
  (forall st w, f (snd (updateReviewStatus review st w)) = f w) ->
  (forall cs w, f (setReviewComments cs w) = f w) ->
  preserves f (pipeline job review).
Proof.
  intros Hreq Hupd Hcom.
  assert (Hadd : forall id l, preserves f (addReviewComments id l)).
  { intros id l w. simpl. apply Hcom. }
  unfold CodeReviewProcessor.pipeline.
  apply preserves_bind; [intros w; apply Hupd|intros _].
  apply preserves_bind; [apply preserves_call; exact Hreq|intros diff].
  apply preserves_bind; [apply analyzeCode_preserves; exact Hreq|].
  intros analysis.
  apply preserves_bind.
  - destruct (issues analysis); [apply preserves_ret|].
    apply preserves_bind; [apply Hadd|intros _].
    apply preserves_call; exact Hreq.
  - intros _. apply preserves_bind; [intros w; apply Hupd|intros _].
    apply preserves_call; exact Hreq.
Qed.

Lemma alter_twice (f g : Review -> Review) (l : list Review) i :
  alter f i (alter g i l) = alter (fun x => f (g x)) i l.
Proof.
  revert i. induction l as [|x l IH]; intros [|i]; simpl; try reflexivity.
  f_equal. apply IH.
Qed.

Lemma alter_last_inv (f : Review -> Review) (l l1 : list Review) (r0 : Review) :
  alter f (length l) l1 = l ++ [r0] ->
  exists r1, l1 = l ++ [r1] /\ f r1 = r0.
Proof.
  intros H.
  assert (Hlen : length l1 = S (length l)).
  { apply (f_equal (@length Review)) in H.
    rewrite length_alter, length_app in H. simpl in H. lia. }
  destruct (lookup_lt_is_Some_2 l1 (length l)) as [r1 Hr1]; [lia|].
  exists r1. split.
  - rewrite <- (take_drop_middle l1 (length l) r1 Hr1).
    rewrite (drop_ge l1) by lia.
    f_equal.
    rewrite <- (take_alter_ge f l1 (length l) (length l)) by lia.
    rewrite H. rewrite take_app_length. reflexivity.
  - apply (f_equal (fun x => x !! length l)) in H.
    rewrite list_lookup_alter_eq, Hr1 in H.
    rewrite lookup_app_r in H by lia.
    rewrite Nat.sub_diag in H. simpl in H. congruence.
Qed.

(** A pipeline that returns has set the status to completed last. *)
Lemma pipeline_ok_completed job review w w1 r :
  pipeline job review w = (Ok tt, w1) ->
  reviews w1 !! review = Some r -> reviewStatus r = "completed".
Proof.
  unfold CodeReviewProcessor.pipeline, bind. cbn [updateReviewStatus].
  destruct (call _ _) as [[diff|e] w2]; [|discriminate].
  destruct (CodeAnalysisService.analyzeCode _ _ _) as [[analysis|e] w3];
    [|discriminate].
  assert (Hlast : forall w4,
            (let (r0, w') := updateReviewStatus review "completed" w4 in
             match r0 with
             | Ok _ =>
                 call (postReviewSummary (Bull.data job !! "owner")
                         (Bull.data job !! "repo")
                         (Bull.data job !! "pullNumber")
                         (Bull.data job !! "headSha") (summary analysis)) w'
             | Throw e => (Throw e, w')
             end) = (Ok tt, w1) ->
            reviews w1 !! review = Some r -> reviewStatus r = "completed").
  { intros w4. cbn [updateReviewStatus]. unfold call.
    destruct (postReviewSummary _ _ _ _ _ _) as [[[]|e] dt]; [|discriminate].
    intros [= <-]. cbn [reviews requested setReviews].
    rewrite list_lookup_alter_eq.
    destruct (reviews w4 !! review) as [r4|]; [|discriminate].
    intros [= <-]. reflexivity. }
  destruct (issues analysis) as [|issue rest].
  - cbn [ret]. apply Hlast.
  - cbn [addReviewComments]. unfold call at 1.
    destruct (postReviewComments _ _ _ _ _ _) as [[[]|e] dt]; [|discriminate].
    apply Hlast.
Qed.

(** The review row of one run of the basic handler. *)
Lemma basic_handler_appends_row :
  forall (job : Bull.Job) (w : World),
    storable (Bull.data job) = true ->
    exists r,
      reviews (snd (basicHandler job w)) = reviews w ++ [r]
      /\ reviewStatus r
         = match fst (basicHandler job w) with
           | Ok _ => "completed"
           | Throw _ => "failed"
           end
      /\ owner r = Bull.data job !! "owner"
      /\ repo r = Bull.data job !! "repo"
      /\ pullNumber r = Bull.data job !! "pullNumber"
      /\ commitSha r = Bull.data job !! "headSha"
      /\ reviewSummary r = "Processing..."
      /\ jobMetrics (snd (basicHandler job w)) = jobMetrics w
      /\ redis (snd (basicHandler job w)) = redis w.
Proof.
  intros job w Hstorable.
  set (r0 := {| owner := Bull.data job !! "owner";
                repo := Bull.data job !! "repo";
                pullNumber := Bull.data job !! "pullNumber";
                commitSha := Bull.data job !! "headSha";
                reviewSummary := "Processing...";
                reviewStatus := "pending" |}).
  set (id := length (reviews w)).
  set (w0 := setReviews (reviews w ++ [r0]) w).
  pose proof (pipeline_preserves_but_status
                (fun w => alter (withStatus EmptyString) id (reviews w)) job id
                ltac:(reflexivity)) as Htab.
  pose proof (pipeline_preserves_but_status jobMetrics job id
                ltac:(reflexivity) ltac:(reflexivity) ltac:(reflexivity) w0)
    as Hmet.
  pose proof (pipeline_preserves_but_status redis job id
                ltac:(reflexivity) ltac:(reflexivity) ltac:(reflexivity) w0)
    as Hred.
  assert (Htab' : alter (withStatus EmptyString) id
                    (reviews (snd (pipeline job id w0)))
                  = reviews w ++ [withStatus EmptyString r0]).
  { rewrite (Htab); [| |reflexivity].
    - unfold w0, id. cbn [reviews setReviews].
      rewrite <- (Nat.add_0_r (length (reviews w))).
      rewrite alter_app_r. reflexivity.
    - intros st w'. cbn [updateReviewStatus snd reviews setReviews].
      rewrite alter_twice. reflexivity. }
  apply alter_last_inv in Htab' as (r1 & Hr1 & Hfields).
  assert (Hrun : basicHandler job w
                 = match pipeline job id w0 with
                   | (Ok a, w') => (Ok a, w')
                   | (Throw e, w') =>
                       (Throw e,
                        setReviews (alter (withStatus "failed") id (reviews w'))
                          w')
                   end).
  { unfold CodeReviewProcessor.handleCodeReview, bind at 1, tryCatch.
    rewrite (createReview_stored _ _ _ Hstorable). fold r0 id w0.
    destruct (pipeline job id w0) as [[a|e] w']; reflexivity. }
  rewrite Hrun. clear Hrun.
  destruct (pipeline job id w0) as [[[]|e] w1] eqn:Hpipe;
    cbn [fst snd] in *.
  - exists r1. split; [exact Hr1|]. split.
    + apply (pipeline_ok_completed job id w0 w1 r1 Hpipe).
      rewrite Hr1. rewrite lookup_app_r by (unfold id; lia).
      unfold id. rewrite Nat.sub_diag. reflexivity.
    + destruct r1; injection Hfields as -> -> -> -> ->.
      repeat split; assumption.
  - exists (withStatus "failed" r1).
    cbn [reviews setReviews jobMetrics redis].
    split.
    + rewrite Hr1. unfold id.
      rewrite <- (Nat.add_0_r (length (reviews w))).
      rewrite alter_app_r. reflexivity.
    + split; [reflexivity|].
      destruct r1; injection Hfields as -> -> -> -> ->.
      repeat split; assumption.
Qed.

(** X8. For a payload whose review row the table takes (owner, repo and
    head commit strings, the pull request number a 32-bit integer), a
    run of the basic handleCodeReview adds exactly one review row and
    leaves the earlier rows as they were.  The new row carries the
    owner, repo, pull number and head commit of the payload; its status
    is 'completed' when the handler returns and 'failed' when it throws,
    never 'pending' or 'in_progress'; and its summary stays the
    placeholder 'Processing...' also for a completed review.  The
    handler records no metric and touches no lock or counter.  For a
    payload that lacks one of the four values the insert is refused
    before the try block: the handler throws and leaves everything as it
    was, with no row added and no service called. *)
Theorem basic_handler_review_row :
  forall (job : Bull.Job) (w : World),
    (storable (Bull.data job) = true ->
     exists r,
       reviews (snd (basicHandler job w)) = reviews w ++ [r]
       /\ reviewStatus r
          = match fst (basicHandler job w) with
            | Ok _ => "completed"
            | Throw _ => "failed"
            end
       /\ owner r = Bull.data job !! "owner"
       /\ repo r = Bull.data job !! "repo"
       /\ pullNumber r = Bull.data job !! "pullNumber"
       /\ commitSha r = Bull.data job !! "headSha"
       /\ reviewSummary r = "Processing..."
       /\ jobMetrics (snd (basicHandler job w)) = jobMetrics w
       /\ redis (snd (basicHandler job w)) = redis w)
    /\ (incomplete (Bull.data job) ->
        exists e, basicHandler job w = (Throw e, w)).
Proof.
  intros job w. split.
  - intros Hstorable.
    destruct (basic_handler_appends_row job w Hstorable)
      as (r & Hrows & Hstatus & Hfields).
    exists r. split; [exact Hrows|]. split; [exact Hstatus|exact Hfields].
  - intros Hmissing.
    destruct (createReview_refused (Bull.data job) "Processing..." w Hmissing)
      as [e He].
    exists e. unfold CodeReviewProcessor.handleCodeReview, bind at 1.
    rewrite He. reflexivity.
Qed.

(** X9. A pull request whose diff is empty or white space only, for a
    payload whose review row the table takes: when the diff fetch and
    the summary post succeed, the handler returns, stores no comment
    row, and makes exactly two calls to GithubService, the diff fetch
    and the post of the summary 'No code changes detected'; the AI
    service and postReviewComments are not called. *)
Theorem basic_handler_blank_diff :
  forall (job : Bull.Job) (w : World) (diff : jsstring),
    storable (Bull.data job) = true ->
    blank diff ->
    (forall w',
        fst (getPullRequestDiff (Bull.data job !! "owner")
               (Bull.data job !! "repo") (Bull.data job !! "pullNumber") w')
        = Ok diff) ->
    (forall w',
        fst (postReviewSummary (Bull.data job !! "owner")
               (Bull.data job !! "repo") (Bull.data job !! "pullNumber")
               (Bull.data job !! "headSha") (summary noChanges) w')
        = Ok tt) ->
    fst (basicHandler job w) = Ok tt
    /\ reviewComments (snd (basicHandler job w)) = reviewComments w
    /\ externalCalls (snd (basicHandler job w)) = S (S (externalCalls w)).
Proof.
  intros job w diff Hstorable Hblank Hdiff Hpost.
  apply blank_test in Hblank.
  cut (exists w', basicHandler job w = (Ok tt, w')
                  /\ reviewComments w' = reviewComments w
                  /\ externalCalls w' = S (S (externalCalls w))).
  { intros (w' & -> & Hc & He). repeat split; assumption. }
  unfold CodeReviewProcessor.handleCodeReview. unfold bind at 1.
  rewrite (createReview_stored _ _ _ Hstorable).
  unfold CodeReviewProcessor.pipeline,
    bind, tryCatch, CodeAnalysisService.analyzeCode.
  cbn [updateReviewStatus]. unfold call at 1.
  match goal with
  | |- context [getPullRequestDiff ?a ?b ?c ?x] =>
      pose proof (Hdiff x) as Hd;
      destruct (getPullRequestDiff a b c x) as [rd dt1]
  end.
  cbn [fst] in Hd. subst rd. rewrite Hblank.
  unfold tryCatch, ret. cbn [issues summary]. unfold call.
  change (lit "No code changes detected") with (summary noChanges).
  match goal with
  | |- context [postReviewSummary ?a ?b ?c ?d ?e ?x] =>
      pose proof (Hpost x) as Hp;
      destruct (postReviewSummary a b c d e x) as [rp dt2]
  end.
  cbn [fst] in Hp. subst rp. eexists. split; [reflexivity|]. split; reflexivity.
Qed.

End BasicPaths.

Lemma basic_handler_review_row_witness :
  (exists r,
     reviews (snd (CodeReviewProcessor.handleCodeReview aiUnavailable
                     diffUnavailable postNothing postNoSummary sampleJob
                     (freshWorld 0)))
     = [r]
     /\ reviewStatus r = "failed")
  /\ exists e,
       CodeReviewProcessor.handleCodeReview aiUnavailable diffUnavailable
         postNothing postNoSummary
         {| Bull.id := 3; Bull.name := "analyze-pull-request";
            Bull.data := {[ "owner" := JsStr "octo" ]};
            Bull.opts := Bull.opts sampleJob |}
         (freshWorld 0)
       = (Throw e, freshWorld 0).
Proof.
  split.
  - destruct (basic_handler_review_row aiUnavailable diffUnavailable
                postNothing postNoSummary sampleJob (freshWorld 0))
      as [Hrow _].
    destruct (Hrow ltac:(reflexivity)) as (r & Hrows & Hstatus & _).
    exists r. split; [exact Hrows|exact Hstatus].
  - destruct (basic_handler_review_row aiUnavailable diffUnavailable
                postNothing postNoSummary
                {| Bull.id := 3; Bull.name := "analyze-pull-request";
                   Bull.data := {[ "owner" := JsStr "octo" ]};
                   Bull.opts := Bull.opts sampleJob |}
                (freshWorld 0))
      as [_ Hrefused].
    apply Hrefused. right. left. reflexivity.
Defined.

Lemma basic_handler_blank_diff_witness :
  fst (CodeReviewProcessor.handleCodeReview aiUnavailable diffBlank
         postNothing postNoSummary sampleJob (freshWorld 0)) = Ok tt
  /\ externalCalls
       (snd (CodeReviewProcessor.handleCodeReview aiUnavailable diffBlank
               postNothing postNoSummary sampleJob (freshWorld 0)))
     = 2%nat.
Proof.
  destruct (basic_handler_blank_diff aiUnavailable diffBlank postNothing
              postNoSummary sampleJob (freshWorld 0) (lit "  "))
    as (Hok & _ & Hcalls).
  - reflexivity.
  - repeat constructor.
  - intros w'. reflexivity.
  - intros w'. reflexivity.
  - split; [exact Hok|exact Hcalls].
Defined.

(** ** The heuristic scan *)

Section HeuristicScan.
Import JsString Heuristics.

Lemma checkLine_issue lines i l issue :
  In issue (checkLine lines i l) ->
  startsWith (lit "+") l = true
  /\ line issue = Some (lineNumber i)
  /\ (type issue = security /\ severity issue = high
      \/ type issue = best_practice /\ severity issue = low
      \/ type issue = bug /\ severity issue = medium).
Proof.
  unfold checkLine. destruct (startsWith (lit "+") l); [|intros []].
  cbn [negb]. rewrite !in_app_iff.
  intros [H | [H | [H | H]]];
    repeat match type of H with
           | In _ (if ?b then _ else _) => destruct b
           end;
    try destruct H as [<- | []]; try destruct H;
    (split; [reflexivity|]; split; [reflexivity|]); tauto.
Qed.

Lemma checkLine_length lines i l :
  (length (checkLine lines i l)
   <= if startsWith (lit "+") l then 4 else 0)%nat.
Proof.
  unfold checkLine. destruct (startsWith (lit "+") l); cbn [negb length];
    [|lia].
  rewrite !length_app.
  repeat match goal with
         | |- context [if ?b then _ else _] => destruct b
         end; cbn [length]; lia.
Qed.

Lemma scan_issue lines i rest issue :
  In issue (scan lines i rest) ->
  exists j l,
    rest !! j = Some l
    /\ startsWith (lit "+") l = true
    /\ line issue = Some (lineNumber (i + j))
    /\ (type issue = security /\ severity issue = high
        \/ type issue = best_practice /\ severity issue = low
        \/ type issue = bug /\ severity issue = medium).
Proof.
  revert i. induction rest as [|l rest IH]; intros i; cbn [scan]; [intros []|].
  rewrite in_app_iff. intros [H|H].
  - apply checkLine_issue in H as (Hadd & Hline & Hkind).
    exists 0%nat, l. rewrite Nat.add_0_r. repeat split; assumption.
  - destruct (IH (S i) H) as (j & l' & Hj & Hadd & Hline & Hkind).
    exists (S j), l'. replace (i + S j)%nat with (S i + j)%nat by lia.
    repeat split; assumption.
Qed.

Lemma scan_length lines i rest :
  (length (scan lines i rest)
   <= 4 * length (List.filter (startsWith (lit "+")) rest))%nat.
Proof.
  revert i. induction rest as [|l rest IH]; intros i; cbn [scan List.filter];
    [simpl; lia|].
  rewrite length_app. specialize (IH (S i)).
  pose proof (checkLine_length lines i l) as Hl.
  destruct (startsWith (lit "+") l); cbn [length]; lia.
Qed.

(** X10. The heuristic analysis reports on added lines only: every issue
    it returns carries the 1-based number of a line of the diff that
    starts with '+', and is a security issue of severity high, a
    best-practice issue of severity low or a bug of severity medium
    (never critical, never of type performance or style); there are at
    most four issues per added line, so a diff without added lines has
    none. *)
Theorem heuristics_report_added_lines :
  forall (diff : jsstring),
    (forall issue,
        In issue (performHeuristicAnalysis diff) ->
        exists i l,
          split 10 diff !! i = Some l
          /\ startsWith (lit "+") l = true
          /\ line issue = Some (lit (toString (Z.of_nat i + 1)))
          /\ (type issue = security /\ severity issue = high
              \/ type issue = best_practice /\ severity issue = low
              \/ type issue = bug /\ severity issue = medium))
    /\ (length (performHeuristicAnalysis diff)
        <= 4 * length (List.filter (startsWith (lit "+")) (split 10 diff)))%nat
    /\ (Forall (fun l => startsWith (lit "+") l = false) (split 10 diff) ->
        performHeuristicAnalysis diff = []).
Proof.
  intros diff. unfold performHeuristicAnalysis.
  split; [|split].
  - intros issue H.
    destruct (scan_issue _ 0 _ issue H) as (j & l & Hj & Hadd & Hline & Hkind).
    exists j, l. split; [exact Hj|]. split; [exact Hadd|]. split; [|exact Hkind].
    rewrite Hline. unfold lineNumber. cbn [Nat.add].
    do 3 f_equal. lia.
  - apply scan_length.
  - intros Hnone.
    destruct (scan (split 10 diff) 0 (split 10 diff)) as [|issue rest] eqn:E;
      [reflexivity|].
    assert (Hin : In issue (scan (split 10 diff) 0 (split 10 diff)))
      by (rewrite E; left; reflexivity).
    destruct (scan_issue _ 0 _ issue Hin) as (j & l & Hj & Hadd & _).
    rewrite Forall_forall in Hnone.
    apply list_elem_of_lookup_2 in Hj.
    rewrite (Hnone l Hj) in Hadd. discriminate.
Qed.

Lemma heuristics_report_added_lines_witness :
  Heuristics.performHeuristicAnalysis
    (lit "- eval(x)" ++ [10%N] ++ lit "  console.log(1) // TODO")
  = [].
Proof.
  apply (heuristics_report_added_lines
           (lit "- eval(x)" ++ [10%N] ++ lit "  console.log(1) // TODO")).
  repeat constructor.
Defined.

Lemma In_slice (lines : list jsstring) (start n : nat) (x : jsstring) :
  In x (take n (drop start lines))
  <-> exists j, lines !! j = Some x /\ (start <= j < start + n)%nat.
Proof.
  rewrite <- list_elem_of_In, elem_of_take. split.
  - intros (k & Hk & Hlt). rewrite lookup_drop in Hk.
    exists (start + k)%nat. split; [exact Hk|lia].
  - intros (j & Hj & Hrange). exists (j - start)%nat.
    rewrite lookup_drop. replace (start + (j - start))%nat with j by lia.
    split; [exact Hj|lia].
Qed.

(** X11. The try/catch search around an awaited line looks at the ten
    lines before it, the line itself and the nine lines after it:
    hasErrorHandling(lines, i) holds exactly when some line j with
    i - 10 <= j < i + 10 contains 'try {' or 'catch'.  A marker ten lines
    below is not seen, one ten lines above is. *)
Theorem hasErrorHandling_window :
  forall (lines : list jsstring) (i : nat),
    hasErrorHandling lines i = true
    <-> exists j l,
          lines !! j = Some l
          /\ (i - 10 <= j < i + 10)%nat
          /\ (includes (lit "try {") (trim l)
              || includes (lit "catch") (trim l)) = true.
Proof.
  intros lines i. unfold hasErrorHandling. cbv zeta.
  rewrite existsb_exists. rewrite Nat.max_0_l. split.
  - intros (l & Hin & Hmark). apply In_slice in Hin as (j & Hj & Hrange).
    exists j, l. split; [exact Hj|]. split; [lia|exact Hmark].
  - intros (j & l & Hj & Hrange & Hmark). exists l. split; [|exact Hmark].
    apply In_slice. exists j. split; [exact Hj|].
    apply lookup_lt_Some in Hj. lia.
Qed.

End HeuristicScan.

(** ** The analyzer *)

Section AnalyzerIssues.
Import JsString Heuristics CodeAnalysisService.

(** X12. For a diff that is not blank the heuristic findings are never
    lost: analyzeCode makes exactly one request to the AI service and
    returns the issues of the AI answer (none when the answer has no
    usable issue list or the call throws) followed by the whole heuristic
    analysis of the diff; no store is written. *)
Theorem analyzeCode_keeps_heuristics :
  forall (analyzeCodeDiff : jsstring -> Ext AiAnalysis) (diff : jsstring)
         (w : World),
    ~ blank diff ->
    exists result,
      fst (analyzeCode analyzeCodeDiff diff w) = Ok result
      /\ issues result
         = match fst (analyzeCodeDiff diff w) with
           | Ok {| aiIssues := IssuesArray l |} => l
           | _ => []
           end ++ performHeuristicAnalysis diff
      /\ snd (analyzeCode analyzeCodeDiff diff w)
         = requested (snd (analyzeCodeDiff diff w)) w.
Proof.
  intros ai diff w Hnb. unfold analyzeCode, tryCatch.
  destruct (length (trim diff) =? 0)%nat eqn:Eb.
  - apply blank_test in Eb. contradiction.
  - unfold bind, call.
    destruct (ai diff w) as [[analysis|thrown] dt]; cbn [fst snd].
    + unfold combine. destruct analysis as [s [|l|] p]; cbn [aiIssues];
        eexists; (split; [reflexivity|]); split; reflexivity.
    + eexists. split; [reflexivity|]. split; reflexivity.
Qed.

End AnalyzerIssues.

Lemma analyzeCode_keeps_heuristics_witness :
  exists result,
    fst (CodeAnalysisService.analyzeCode aiAnswers sampleDiff (freshWorld 0))
    = Ok result
    /\ map type (issues result) = [performance; best_practice].
Proof.
  destruct (analyzeCode_keeps_heuristics aiAnswers sampleDiff (freshWorld 0))
    as (result & Hrun & Hissues & _).
  - intros Hb. inversion Hb as [|c l Hc _]. discriminate Hc.
  - exists result. split; [exact Hrun|]. rewrite Hissues. reflexivity.
Defined.

(** ** The autoscaler over time *)

Section ScalingRuns.
Import AutoScalerService.

Lemma scalingRun_bounds c obs :
  minWorkers <= c <= maxWorkers ->
  minWorkers <= scalingRun c obs <= maxWorkers.
Proof.
  revert c. induction obs as [|[q a] obs IH]; intros c Hc; cbn [scalingRun].
  - exact Hc.
  - apply IH. apply evaluateScaling_bounds. exact Hc.
Qed.

Lemma evaluateScaling_cases c q a :
  minWorkers <= c <= maxWorkers ->
  (50 < q /\ evaluateScaling c q a = Z.min (c + 2) maxWorkers)
  \/ (q <= 50 /\ 10 < q /\ 180000 < a
      /\ evaluateScaling c q a = Z.min (c + 1) maxWorkers)
  \/ (q = 0 /\ evaluateScaling c q a = Z.max (c - 1) minWorkers)
  \/ (q <= 50 /\ q <> 0 /\ (q <= 10 \/ a <= 180000)
      /\ evaluateScaling c q a = c).
Proof.
  intros Hc. unfold evaluateScaling, calculateOptimalWorkers,
    minWorkers, maxWorkers in *.
  destruct (50 <? q) eqn:E1;
    [| destruct ((180000 <? a) && (10 <? q)) eqn:E2;
       [| destruct ((q =? 0) && (1 <? c)) eqn:E3 ] ];
    repeat match goal with
           | H : (_ && _) = true |- _ => apply andb_true_iff in H; destruct H
           | H : (_ && _) = false |- _ => apply andb_false_iff in H
           | H : (_ <? _) = true |- _ => apply Z.ltb_lt in H
           | H : (_ <? _) = false |- _ => apply Z.ltb_ge in H
           | H : (_ =? _) = true |- _ => apply Z.eqb_eq in H
           | H : (_ =? _) = false |- _ => apply Z.eqb_neq in H
           end;
    match goal with
    | |- context [if negb (?x =? ?y) then _ else _] =>
        destruct (x =? y) eqn:E; cbn [negb];
        [apply Z.eqb_eq in E | apply Z.eqb_neq in E]
    end;
    lia.
Qed.

(** X13. Started at one worker, the autoscaler keeps the worker count
    within [minWorkers, maxWorkers] = [1, 10] after any sequence of
    evaluations, whatever queue depths and processing times it sees. *)
Theorem autoscaler_stays_in_range :
  forall (observations : list (Z * Z)),
    minWorkers <= scalingRun 1 observations <= maxWorkers.
Proof.
  intros obs. apply scalingRun_bounds. unfold minWorkers, maxWorkers. lia.
Qed.

(** X14. One evaluation moves the worker count by at most two up and one
    down; it goes down only when the queue is empty and up only when more
    than ten jobs wait, so with one to ten jobs waiting the count never
    changes. *)
Theorem autoscaler_step :
  forall (currentWorkers queueDepth avgProcessingTime : Z),
    minWorkers <= currentWorkers <= maxWorkers ->
    let next := evaluateScaling currentWorkers queueDepth avgProcessingTime in
    currentWorkers - 1 <= next <= currentWorkers + 2
    /\ (next < currentWorkers -> queueDepth = 0)
    /\ (currentWorkers < next -> 10 < queueDepth)
    /\ (1 <= queueDepth <= 10 -> next = currentWorkers).
Proof.
  intros c q a Hc. cbv zeta.
  destruct (evaluateScaling_cases c q a Hc)
    as [(H1 & ->) | [(H1 & H2 & H3 & ->) | [(H1 & ->) | (H1 & H2 & H3 & ->)]]];
    unfold minWorkers, maxWorkers in *; repeat split; lia.
Qed.

Lemma autoscaler_step_witness :
  evaluateScaling 4 7 999999 = 4 /\ 4 - 1 <= evaluateScaling 4 0 0 <= 4 + 2.
Proof.
  assert (H : minWorkers <= 4 <= maxWorkers)
    by (unfold minWorkers, maxWorkers; lia).
  split.
  - apply (autoscaler_step 4 7 999999 H). lia.
  - apply (autoscaler_step 4 0 0 H).
Defined.

Lemma scalingRun_backlog c obs :
  minWorkers <= c <= maxWorkers ->
  Forall (fun o => 50 < fst o) obs ->
  scalingRun c obs = Z.min (c + 2 * Z.of_nat (length obs)) maxWorkers.
Proof.
  revert c. induction obs as [|[q a] obs IH]; intros c Hc Hall;
    cbn [scalingRun length].
  - unfold minWorkers, maxWorkers in *. lia.
  - inversion Hall as [|o os Hq Hrest]; subst. cbn [fst] in Hq.
    rewrite IH; [|apply evaluateScaling_bounds; exact Hc|exact Hrest].
    destruct (evaluateScaling_cases c q a Hc)
      as [(H1 & ->) | [(H1 & H2 & H3 & ->) | [(H1 & ->) | (H1 & H2 & H3 & ->)]]];
      unfold minWorkers, maxWorkers in *; lia.
Qed.

Lemma scalingRun_idle c obs :
  minWorkers <= c <= maxWorkers ->
  Forall (fun o => fst o = 0) obs ->
  scalingRun c obs = Z.max (c - Z.of_nat (length obs)) minWorkers.
Proof.
  revert c. induction obs as [|[q a] obs IH]; intros c Hc Hall;
    cbn [scalingRun length].
  - unfold minWorkers, maxWorkers in *. lia.
  - inversion Hall as [|o os Hq Hrest]; subst. cbn [fst] in Hq.
    rewrite IH; [|apply evaluateScaling_bounds; exact Hc|exact Hrest].
    destruct (evaluateScaling_cases c q a Hc)
      as [(H1 & ->) | [(H1 & H2 & H3 & ->) | [(H1 & ->) | (H1 & H2 & H3 & ->)]]];
      unfold minWorkers, maxWorkers in *; lia.
Qed.

(** X15. Under a sustained backlog (more than 50 jobs waiting at every
    evaluation) the count after n evaluations is min(current + 2n, 10),
    so five evaluations always reach maxWorkers; with the queue empty at
    every evaluation it is max(current - n, 1), so nine evaluations
    always reach minWorkers. *)
Theorem autoscaler_saturates :
  forall (currentWorkers : Z) (observations : list (Z * Z)),
    minWorkers <= currentWorkers <= maxWorkers ->
    (Forall (fun o => 50 < fst o) observations ->
     scalingRun currentWorkers observations
     = Z.min (currentWorkers + 2 * Z.of_nat (length observations)) maxWorkers)
    /\ (Forall (fun o => fst o = 0) observations ->
        scalingRun currentWorkers observations
        = Z.max (currentWorkers - Z.of_nat (length observations)) minWorkers)
    /\ (Forall (fun o => 50 < fst o) observations ->
        (5 <= length observations)%nat ->
        scalingRun currentWorkers observations = maxWorkers)
    /\ (Forall (fun o => fst o = 0) observations ->
        (9 <= length observations)%nat ->
        scalingRun currentWorkers observations = minWorkers).
Proof.
  intros c obs Hc.
  split; [apply scalingRun_backlog; exact Hc|].
  split; [apply scalingRun_idle; exact Hc|]. split.
  - intros Hall Hlen. rewrite (scalingRun_backlog c obs Hc Hall).
    unfold minWorkers, maxWorkers in *. lia.
  - intros Hall Hlen. rewrite (scalingRun_idle c obs Hc Hall).
    unfold minWorkers, maxWorkers in *. lia.
Qed.

Lemma autoscaler_saturates_witness :
  scalingRun 1 [(60, 0); (70, 0); (80, 0); (90, 0); (99, 0)] = maxWorkers
  /\ scalingRun 3 [(0, 5); (0, 5)] = Z.max (3 - 2) minWorkers.
Proof.
  assert (H1 : minWorkers <= 1 <= maxWorkers)
    by (unfold minWorkers, maxWorkers; lia).
  assert (H3 : minWorkers <= 3 <= maxWorkers)
    by (unfold minWorkers, maxWorkers; lia).
  split.
  - destruct (autoscaler_saturates 1
                [(60, 0); (70, 0); (80, 0); (90, 0); (99, 0)] H1)
      as (_ & _ & Hfive & _).
    apply Hfive; [repeat constructor; simpl; lia|simpl; lia].
  - destruct (autoscaler_saturates 3 [(0, 5); (0, 5)] H3) as (_ & Hidle & _).
    apply Hidle. repeat constructor.
Defined.

End ScalingRuns.

(** ** Metrics, health and alerts *)

Section Monitoring.
Import MetricsService MetricsQueries.







Lemma mathRound_le (x : Q) (n : Z) : (x <= inject_Z n)%Q -> mathRound x <= n.
Proof.
  intros H. unfold mathRound.
  pose proof (Qfloor_le (x + (1 # 2))) as Hf.
  assert (Hlt : (inject_Z (Qfloor (x + (1 # 2))) < inject_Z (n + 1))%Q)
    by (rewrite inject_Z_plus; change (inject_Z 1) with 1%Q; lra).
  rewrite <- Zlt_Qlt in Hlt. lia.
Qed.

Lemma mathRound_ge (x : Q) (n : Z) : (inject_Z n <= x)%Q -> n <= mathRound x.
Proof.
  intros H. unfold mathRound.
  pose proof (Qlt_floor (x + (1 # 2))) as Hf.
  rewrite inject_Z_plus in Hf. change (inject_Z 1) with 1%Q in Hf.
  assert (Hlt : (inject_Z (n - 1) < inject_Z (Qfloor (x + (1 # 2))))%Q).
  { unfold Z.sub. rewrite inject_Z_plus.
    change (inject_Z (- (1))) with (- (1))%Q. lra. }
  rewrite <- Zlt_Qlt in Hlt. lia.
Qed.

Lemma mathRound_above (x : Q) (n : Z) : n < mathRound x -> (inject_Z n < x)%Q.
Proof.
  unfold mathRound. intros H.
  pose proof (Qfloor_le (x + (1 # 2))) as Hf.
  assert (Hle : (inject_Z (n + 1) <= inject_Z (Qfloor (x + (1 # 2))))%Q)
    by (rewrite <- Zle_Qle; lia).
  rewrite inject_Z_plus in Hle. change (inject_Z 1) with 1%Q in Hle. lra.
Qed.

End Monitoring.

Section Alerts.
Import MetricsService MetricsQueries Dashboard AlertingService.

(** What getSystemHealth computes from the metrics and the queue. *)
Lemma getSystemHealth_runs (q : JobLists) (w : World) :
  exists h,
    getSystemHealth q w = (Ok h, w)
    /\ queue h = getQueueStatistics q
    /\ health h
       = DashboardService.calculateHealthScore
           (successRateOf (clock w) 24 (jobMetrics w))
           (averageOf (clock w) 24 (jobMetrics w))
           (counts (getQueueStatistics q))
    /\ avgProcessingTime (performance h)
       = mathRound (averageOf (clock w) 24 (jobMetrics w))
    /\ successRate (performance h)
       = (inject_Z (mathRound (successRateOf (clock w) 24 (jobMetrics w) * 100))
          / 100)%Q.
Proof. eexists. repeat split. Qed.

(** X17. A system with no metric sample in the last 24 hours is reported
    critical, whatever the queue holds: its success rate reads 0, so the
    health check sends 'System Critical' first and a critical
    'Low success rate' alert as well. *)
Theorem no_samples_is_critical :
  forall (q : JobLists) (w : World),
    countTotal (clock w) 24 (jobMetrics w) = 0 ->
    exists h,
      getSystemHealth q w = (Ok h, w)
      /\ health h = critical_health
      /\ (successRate (performance h) == 0)%Q
      /\ hd_error (alertsFor h)
         = Some {| title := "System Critical"; level := levelCritical |}
      /\ In {| title := "Low success rate"; level := levelCritical |}
            (alertsFor h).
Proof.
  intros q w Hnone.
  destruct (getSystemHealth_runs q w) as (h & Hrun & Hq & Hh & Ha & Hs).
  assert (Hsr : successRateOf (clock w) 24 (jobMetrics w) = 0%Q)
    by (unfold successRateOf; rewrite Hnone; reflexivity).
  rewrite Hsr in Hh, Hs.
  assert (Hcrit : health h = critical_health).
  { rewrite Hh. unfold DashboardService.calculateHealthScore.
    replace (Qltb 0 80) with true by reflexivity. reflexivity. }
  exists h. split; [exact Hrun|]. split; [exact Hcrit|].
  split; [rewrite Hs; reflexivity|].
  unfold alertsFor, checkSpecificThresholds. rewrite Hcrit, Hs.
  split; [reflexivity|].
  replace (Qltb (inject_Z (mathRound (0 * 100)) / 100) 90) with true
    by reflexivity.
  rewrite !in_app_iff. right. right. right. left. reflexivity.
Qed.

Lemma no_samples_is_critical_witness :
  exists h,
    getSystemHealth
      {| waitingList := []; activeList := []; completedList := [];
         failedList := []; delayedList := [] |} (freshWorld 0)
    = (Ok h, freshWorld 0)
    /\ health h = critical_health.
Proof.
  destruct (no_samples_is_critical
              {| waitingList := []; activeList := []; completedList := [];
                 failedList := []; delayedList := [] |} (freshWorld 0))
    as (h & Hrun & Hcrit & _).
  - reflexivity.
  - exists h. split; [exact Hrun|exact Hcrit].
Defined.

(** X18. The alerts of a health check agree with the health class: no
    alert is sent exactly when the system is healthy; otherwise the first
    alert is 'System Critical' or 'System Warning' according to the
    class; and the 'High queue depth' and 'Slow processing' alerts are
    only ever sent for a critical system. *)
Theorem alerts_follow_health :
  forall (q : JobLists) (w : World),
    exists h,
      getSystemHealth q w = (Ok h, w)
      /\ (alertsFor h = [] <-> health h = healthy)
      /\ (health h = critical_health ->
          hd_error (alertsFor h)
          = Some {| title := "System Critical"; level := levelCritical |})
      /\ (health h = warning ->
          hd_error (alertsFor h)
          = Some {| title := "System Warning"; level := levelWarning |})
      /\ (forall a,
            In a (alertsFor h) ->
            title a = "High queue depth" \/ title a = "Slow processing" ->
            health h = critical_health).
Proof.
  intros q w.
  destruct (getSystemHealth_runs q w) as (h & Hrun & Hq & Hh & Ha & Hs).
  set (sr := successRateOf (clock w) 24 (jobMetrics w)) in *.
  set (av := averageOf (clock w) 24 (jobMetrics w)) in *.
  set (qs := counts (getQueueStatistics q)) in *.
  pose proof (critical_test sr av qs) as Hc.
  pose proof (warning_test sr av qs) as Hw.
  assert (Hwait : waiting (counts (queue h)) = waiting qs)
    by (rewrite Hq; reflexivity).
  exists h. split; [exact Hrun|].
  unfold alertsFor, checkSpecificThresholds.
  rewrite Hwait, Ha, Hs. rewrite Hh.
  unfold DashboardService.calculateHealthScore.
  destruct (Qltb sr 80 || Qltb 300000 av || (100 <? waiting qs)) eqn:Ec;
    [| destruct (Qltb sr 95 || Qltb 120000 av || (50 <? waiting qs)) eqn:Ew ].
  - split; [split; discriminate|]. split; [reflexivity|].
    split; [discriminate|]. reflexivity.
  - split; [split; discriminate|]. split; [discriminate|].
    split; [reflexivity|].
    assert (Hnc : ~ isCritical sr av qs)
      by (intros Hn; apply Hc in Hn; congruence).
    unfold isCritical in Hnc.
    intros a Hin Htitle. exfalso. cbn [app] in Hin.
    destruct Hin as [<-|Hin]; [cbn in Htitle; destruct Htitle; discriminate|].
    rewrite !in_app_iff in Hin.
    destruct Hin as [Hin|[Hin|Hin]].
    + destruct (200 <? waiting qs) eqn:E; [|destruct Hin].
      apply Z.ltb_lt in E. apply Hnc. right. right. lia.
    + destruct (300000 <? mathRound av) eqn:E; [|destruct Hin].
      apply Z.ltb_lt in E. apply mathRound_above in E.
      apply Hnc. right. left. exact E.
    + destruct (Qltb _ 90); [|destruct Hin].
      destruct Hin as [<-|[]]. cbn in Htitle. destruct Htitle; discriminate.
  - assert (Hnc : ~ isCritical sr av qs)
      by (intros Hn; apply Hc in Hn; congruence).
    assert (Hnw : ~ isWarning sr av qs)
      by (intros Hn; apply Hw in Hn; congruence).
    unfold isCritical in Hnc. unfold isWarning in Hnw.
    assert (H1 : (200 <? waiting qs) = false) by (apply Z.ltb_ge; lia).
    assert (H2 : (300000 <? mathRound av) = false).
    { apply Z.ltb_ge.
      assert (Hav : (av <= inject_Z 120000)%Q)
        by (apply Qnot_lt_le; intros Hlt; apply Hnw; right; left; exact Hlt).
      pose proof (mathRound_le av 120000 Hav). lia. }
    assert (H3 : Qltb (inject_Z (mathRound (sr * 100)) / 100) 90 = false).
    { destruct (Qltb _ 90) eqn:E; [|reflexivity]. exfalso.
      apply Qltb_lt in E.
      assert (Hsr : (inject_Z 9500 <= sr * 100)%Q).
      { assert (Hge : (95 <= sr)%Q)
          by (apply Qnot_lt_le; intros Hlt; apply Hnw; left; exact Hlt).
        change (inject_Z 9500) with 9500%Q. lra. }
      pose proof (mathRound_ge (sr * 100) 9500 Hsr) as Hr.
      rewrite Zle_Qle in Hr. change (inject_Z 9500) with 9500%Q in Hr.
      assert (Hdiv : (95 <= inject_Z (mathRound (sr * 100)) / 100)%Q).
      { apply Qle_shift_div_l; [reflexivity|]. lra. }
      lra. }
    rewrite H1, H2, H3. cbn [app].
    split; [split; reflexivity|]. split; [discriminate|].
    split; [discriminate|]. intros a [].
Qed.

End Alerts.

(** ** Review statistics *)

Section ReviewStatistics.
Import DatabaseService.

Lemma count_le (p : Review -> bool) (w : World) :
  0 <= count p w <= Z.of_nat (length (reviews w)).
Proof.
  unfold count. split; [lia|]. apply inj_le.
  induction (reviews w) as [|r l IH]; simpl; [lia|].
  destruct (p r); simpl; lia.
Qed.

Lemma count_disjoint (p q : Review -> bool) (l : list Review) :
  (forall r, p r = true -> q r = true -> False) ->
  (length (List.filter p l) + length (List.filter q l) <= length l)%nat.
Proof.
  intros Hpq. induction l as [|r l IH]; simpl; [lia|].
  destruct (p r) eqn:Ep; destruct (q r) eqn:Eq; simpl; try lia.
  exfalso. exact (Hpq r Ep Eq).
Qed.

Lemma filter_all (l : list Review) : List.filter (fun _ => true) l = l.
Proof. induction l as [|r l IH]; simpl; [reflexivity|]. rewrite IH. reflexivity. Qed.

Lemma count_app (p : Review -> bool) (l : list Review) (r : Review) :
  length (List.filter p (l ++ [r]))
  = (length (List.filter p l) + if p r then 1 else 0)%nat.
Proof.
  rewrite List.filter_app, length_app. cbn [List.filter].
  destruct (p r); reflexivity.
Qed.

(** X19. getReviewStats reads the table without changing it: total is
    the number of reviews, completed and failed count disjoint rows
    (completed + failed <= total), and the success rate is 0 for an empty
    table and otherwise completed / total * 100, between 0 and 100. *)
Theorem review_stats_consistent :
  forall (w : World),
    exists s,
      getReviewStats w = (Ok s, w)
      /\ total s = Z.of_nat (length (reviews w))
      /\ 0 <= completed s /\ 0 <= failed s
      /\ completed s + failed s <= total s
      /\ (0 <= successRate s <= 100)%Q
      /\ (reviews w = [] -> (successRate s == 0)%Q)
      /\ (reviews w <> [] ->
          (successRate s
           == inject_Z (completed s) / inject_Z (total s) * 100)%Q).
Proof.
  intros w. eexists. split; [reflexivity|].
  cbn [total completed failed successRate].
  pose proof (count_le (fun r => String.eqb (reviewStatus r) "completed") w)
    as [Hc0 Hc1].
  pose proof (count_le (fun r => String.eqb (reviewStatus r) "failed") w)
    as [Hf0 Hf1].
  assert (Htot : count (fun _ => true) w = Z.of_nat (length (reviews w)))
    by (unfold count; rewrite filter_all; reflexivity).
  rewrite Htot.
  split; [reflexivity|]. split; [exact Hc0|]. split; [exact Hf0|].
  split.
  { unfold count.
    pose proof (count_disjoint
                  (fun r => String.eqb (reviewStatus r) "completed")
                  (fun r => String.eqb (reviewStatus r) "failed")
                  (reviews w)) as Hd.
    assert (Hx : forall r,
               String.eqb (reviewStatus r) "completed" = true ->
               String.eqb (reviewStatus r) "failed" = true -> False).
    { intros r H1 H2. apply String.eqb_eq in H1, H2. congruence. }
    specialize (Hd Hx). lia. }
  set (c := count (fun r => String.eqb (reviewStatus r) "completed") w) in *.
  set (t := Z.of_nat (length (reviews w))) in *.
  destruct (0 <? t) eqn:Et.
  - apply Z.ltb_lt in Et.
    assert (Hq : (0 < inject_Z t)%Q) by (unfold Qlt; simpl; lia).
    split; [split|split].
    + apply Qmult_le_0_compat; [|discriminate].
      apply Qle_shift_div_l; [exact Hq|].
      rewrite Qmult_0_l. unfold Qle; simpl; lia.
    + apply Qle_trans with (1 * 100)%Q; [|vm_compute; discriminate].
      apply Qmult_le_compat_r; [|discriminate].
      apply Qle_shift_div_r; [exact Hq|].
      rewrite Qmult_1_l. unfold Qle; simpl; lia.
    + intros Hnil. unfold t in Et. rewrite Hnil in Et. simpl in Et. lia.
    + intros _. reflexivity.
  - apply Z.ltb_ge in Et.
    split; [split; discriminate|]. split; [reflexivity|].
    intros Hne. exfalso. destruct (reviews w); [congruence|].
    unfold t in Et. simpl in Et. lia.
Qed.

Variable analyzeCodeDiff : jsstring -> Ext AiAnalysis.
Variable getPullRequestDiff :
  option JsVal -> option JsVal -> option JsVal -> Ext jsstring.
Variable postReviewComments :
  option JsVal -> option JsVal -> option JsVal -> option JsVal ->
  list CodeIssue -> Ext unit.
Variable postReviewSummary :
  option JsVal -> option JsVal -> option JsVal -> option JsVal ->
  jsstring -> Ext unit.

(** X20. Every attempt whose review row the table takes shows in the
    statistics: after one run of the basic handleCodeReview for such a
    payload the total is one higher, and exactly one of completed and
    failed is one higher, completed when the handler returned and failed
    when it threw.  A job retried after a failure so leaves its failed
    review counted beside the later one. *)
Theorem review_stats_after_run :
  forall (job : Bull.Job) (w : World),
    storable (Bull.data job) = true ->
    let run :=
      CodeReviewProcessor.handleCodeReview analyzeCodeDiff getPullRequestDiff
        postReviewComments postReviewSummary job w in
    let isCompleted := fun r => String.eqb (reviewStatus r) "completed" in
    let isFailed := fun r => String.eqb (reviewStatus r) "failed" in
    count (fun _ => true) (snd run) = count (fun _ => true) w + 1
    /\ count isCompleted (snd run)
       = count isCompleted w
         + match fst run with Ok _ => 1 | Throw _ => 0 end
    /\ count isFailed (snd run)
       = count isFailed w
         + match fst run with Ok _ => 0 | Throw _ => 1 end.
Proof.
  intros job w Hstorable. cbv zeta.
  destruct (basic_handler_appends_row analyzeCodeDiff getPullRequestDiff
              postReviewComments postReviewSummary job w Hstorable)
    as (r & Hrows & Hstatus & _).
  unfold count. rewrite Hrows, !count_app, Hstatus.
  destruct (fst _); cbn; repeat split; lia.
Qed.

End ReviewStatistics.

Lemma review_stats_after_run_witness :
  let run :=
    CodeReviewProcessor.handleCodeReview aiUnavailable diffUnavailable
      postNothing postNoSummary sampleJob reviewUnderWay in
  DatabaseService.count (fun _ => true) (snd run)
  = DatabaseService.count (fun _ => true) reviewUnderWay + 1
  /\ DatabaseService.count
       (fun r => String.eqb (reviewStatus r) "failed") (snd run)
     = DatabaseService.count
         (fun r => String.eqb (reviewStatus r) "failed") reviewUnderWay + 1.
Proof.
  destruct (review_stats_after_run aiUnavailable diffUnavailable postNothing
              postNoSummary sampleJob reviewUnderWay)
    as (Htotal & _ & Hfailed).
  - reflexivity.
  - split; [exact Htotal|exact Hfailed].
Defined.

(** ** The webhook *)

Section Webhook.
Import WebhookService.

Variable hmac : string -> Payload -> string.

Lemma verifySignature_secret (s : string) payload signature :
  s <> EmptyString ->
  verifySignature (Some s) hmac payload signature
  = timingSafeEqual signature ("sha256=" +:+ hmac s payload).
Proof. intros Hs. destruct s; [congruence|reflexivity]. Qed.

Lemma timingSafeEqual_true a b :
  timingSafeEqual a b = Ok true <-> a = Some b.
Proof.
  unfold timingSafeEqual. destruct a as [a|]; [|split; discriminate].
  destruct (Nat.eqb (String.length a) (String.length b)) eqn:El.
  - split.
    + intros [= H]. apply String.eqb_eq in H. congruence.
    + intros [= ->]. rewrite String.eqb_refl. reflexivity.
  - split; [discriminate|].
    intros [= ->]. rewrite Nat.eqb_refl in El. discriminate.
Qed.

(** X21. With a webhook secret configured, a request is let through only
    when its signature header is exactly 'sha256=' followed by the HMAC
    of the payload: with any other signature, or none, the call throws
    and the queue is unchanged.  Without a secret (unset or empty) the
    check is skipped: every request is handled as a correctly signed one
    would be. *)
Theorem webhook_signature_gate :
  forall (payload : Payload) (signature : option string) (q : Bull.Queue)
         (s : string),
    s <> EmptyString ->
    (signature <> Some ("sha256=" +:+ hmac s payload) ->
     exists e,
       processGithubWebhook (Some s) hmac payload signature q = (Throw e, q))
    /\ processGithubWebhook None hmac payload signature q
       = processGithubWebhook (Some s) hmac payload
           (Some ("sha256=" +:+ hmac s payload)) q
    /\ processGithubWebhook (Some EmptyString) hmac payload signature q
       = processGithubWebhook None hmac payload signature q.
Proof.
  intros payload signature q s Hs. split; [|split].
  - intros Hsig. unfold processGithubWebhook.
    rewrite (verifySignature_secret s payload signature Hs).
    destruct (timingSafeEqual signature ("sha256=" +:+ hmac s payload))
      as [[|]|e] eqn:E.
    + apply timingSafeEqual_true in E. contradiction.
    + eexists. reflexivity.
    + eexists. reflexivity.
  - unfold processGithubWebhook.
    rewrite (verifySignature_secret s payload _ Hs).
    replace (timingSafeEqual (Some ("sha256=" +:+ hmac s payload))
               ("sha256=" +:+ hmac s payload)) with (@Ok bool true)
      by (symmetry; apply timingSafeEqual_true; reflexivity).
    reflexivity.
  - reflexivity.
Qed.

(** X22. Only 'opened' and 'synchronize' events are queued: a request
    that passes the signature check with any other action, or none,
    is answered 'Webhook processed successfully' and leaves the queue
    unchanged. *)
Theorem webhook_ignores_other_actions :
  forall (secret : option string) (payload : Payload)
         (signature : option string) (q : Bull.Queue),
    verifySignature secret hmac payload signature = Ok true ->
    action payload <> Some "opened" ->
    action payload <> Some "synchronize" ->
    processGithubWebhook secret hmac payload signature q
    = (Ok "Webhook processed successfully", q).
Proof.
  intros secret payload signature q Hv Ho Hs.
  unfold processGithubWebhook. rewrite Hv.
  replace (isPullRequestEvent (action payload)) with false; [reflexivity|].
  unfold isPullRequestEvent. destruct (action payload) as [a|]; [|reflexivity].
  destruct (String.eqb a "opened") eqn:E1;
    [apply String.eqb_eq in E1; congruence|].
  destruct (String.eqb a "synchronize") eqn:E2;
    [apply String.eqb_eq in E2; congruence|].
  reflexivity.
Qed.

(** X23. An 'opened' or 'synchronize' event that passes the signature
    check and has its repository, owner, pull request, head and base
    parts is queued as exactly one job named 'analyze-pull-request'
    whose payload holds the five values under owner, repo, pullNumber,
    headSha and baseSha; a value that is missing is simply absent from
    the payload (nothing is rejected), and the job carries no attempts
    or backoff options.  When one of the parts is missing the call
    throws and the queue is unchanged. *)
Theorem webhook_queues_pull_request :
  forall (secret : option string) (payload : Payload)
         (signature : option string) (q : Bull.Queue),
    verifySignature secret hmac payload signature = Ok true ->
    isPullRequestEvent (action payload) = true ->
    (forall r o pr h b,
        repository payload = Some r -> owner r = Some o ->
        pull_request payload = Some pr -> head pr = Some h ->
        base pr = Some b ->
        exists job,
          processGithubWebhook secret hmac payload signature q
          = (Ok "Webhook processed successfully",
             {| Bull.jobs := Bull.jobs q ++ [job];
                Bull.nextId := Bull.nextId q + 1 |})
          /\ Bull.name job = "analyze-pull-request"
          /\ Bull.opts job = noOptions
          /\ Bull.data job !! "owner" = login o
          /\ Bull.data job !! "repo" = name r
          /\ Bull.data job !! "pullNumber" = number pr
          /\ Bull.data job !! "headSha" = sha h
          /\ Bull.data job !! "baseSha" = sha b
          /\ (missingKey (Bull.data job) = false
              <-> is_Some (login o) /\ is_Some (name r)
                  /\ is_Some (number pr) /\ is_Some (sha h)
                  /\ is_Some (sha b)))
    /\ ((repository payload = None
         \/ (exists r, repository payload = Some r /\ owner r = None)
         \/ pull_request payload = None
         \/ (exists pr, pull_request payload = Some pr
                        /\ (head pr = None \/ base pr = None))) ->
        exists e,
          processGithubWebhook secret hmac payload signature q = (Throw e, q)).
Proof.
  intros secret payload signature q Hv Hact.
  unfold processGithubWebhook. rewrite Hv, Hact.
  unfold handlePullRequestEvent. split.
  - intros r o pr h b -> -> -> -> ->. cbn [Bull.add].
    eexists. split; [reflexivity|].
    cbn [Bull.name Bull.opts Bull.data].
    split; [reflexivity|]. split; [reflexivity|].
    destruct (login o) as [v1|], (name r) as [v2|], (number pr) as [v3|],
      (sha h) as [v4|], (sha b) as [v5|];
      (repeat (split; [reflexivity|]));
      (split;
       [ intros Hm; try discriminate Hm; repeat split; eexists; reflexivity
       | intros (H1 & H2 & H3 & H4 & H5);
         try reflexivity;
         repeat match goal with
                | H : is_Some None |- _ => destruct H; discriminate
                end ]).
  - intros [-> | [(r & -> & ->) | [Hpr | (pr & Hpr & Hparts)]]].
    + eexists. reflexivity.
    + eexists. reflexivity.
    + rewrite Hpr. destruct (repository payload) as [r|];
        [destruct (owner r)|]; eexists; reflexivity.
    + rewrite Hpr. destruct (repository payload) as [r|];
        [destruct (owner r)|]; try (eexists; reflexivity).
      destruct Hparts as [-> | Hb].
      * eexists. reflexivity.
      * rewrite Hb. destruct (head pr); eexists; reflexivity.
Qed.

End Webhook.

Lemma webhook_signature_gate_witness :
  exists e,
    WebhookService.processGithubWebhook (Some "s3cret") sampleHmac sampleEvent
      (Some "sha256=0000s3cret") Bull.empty
    = (Throw e, Bull.empty).
Proof.
  apply (webhook_signature_gate sampleHmac sampleEvent
           (Some "sha256=0000s3cret") Bull.empty "s3cret").
  - discriminate.
  - discriminate.
Defined.

Lemma webhook_ignores_other_actions_witness :
  WebhookService.processGithubWebhook (Some "s3cret") sampleHmac closedEvent
    (Some "sha256=5f2bs3cret") Bull.empty
  = (Ok "Webhook processed successfully", Bull.empty).
Proof.
  apply (webhook_ignores_other_actions sampleHmac).
  - reflexivity.
  - discriminate.
  - discriminate.
Defined.

Lemma webhook_queues_pull_request_witness :
  exists job,
    WebhookService.processGithubWebhook None sampleHmac sampleEvent None
      Bull.empty
    = (Ok "Webhook processed successfully",
       {| Bull.jobs := Bull.jobs Bull.empty ++ [job];
          Bull.nextId := Bull.nextId Bull.empty + 1 |})
    /\ Bull.data job !! "owner" = Some (JsStr "octo")
    /\ missingKey (Bull.data job) = false.
Proof.
  destruct (webhook_queues_pull_request sampleHmac None sampleEvent None
              Bull.empty) as (Hqueued & _).
  - reflexivity.
  - reflexivity.
  - edestruct Hqueued as (job & Hrun & _ & _ & Ho & _ & _ & _ & _ & Hm);
      try reflexivity.
    exists job. split; [exact Hrun|]. split; [exact Ho|].
    apply Hm. repeat split; eexists; reflexivity.
Defined.

(** ** Security helpers *)

Section Security.
Import SecurityService.

(** What timingSafeEqual answers for a header and the expected text:
    true for the expected text itself, false for another text of the
    same length, an error for a text of another length or no header. *)
Lemma timingSafeEqual_cases signature expected :
  (timingSafeEqual signature expected = Ok true
   <-> signature = Some expected)
  /\ (forall given,
        signature = Some given ->
        String.length given = String.length expected ->
        given <> expected ->
        timingSafeEqual signature expected = Ok false)
  /\ (forall given,
        signature = Some given ->
        String.length given <> String.length expected ->
        exists e, timingSafeEqual signature expected = Throw e)
  /\ (signature = None ->
      exists e, timingSafeEqual signature expected = Throw e).
Proof.
  split; [apply timingSafeEqual_true|]. split; [|split].
  - intros given -> Hlen Hne. unfold timingSafeEqual.
    rewrite Hlen, Nat.eqb_refl. f_equal.
    apply String.eqb_neq. exact Hne.
  - intros given -> Hlen. unfold timingSafeEqual.
    destruct (Nat.eqb _ _) eqn:E; [apply Nat.eqb_eq in E; contradiction|].
    eexists. reflexivity.
  - intros ->. eexists. reflexivity.
Qed.

(** X24. The two signature checks differ when no secret is configured:
    WebhookService.verifySignature then accepts every request, while
    SecurityService.validateWebhookSignature rejects every request.
    With a secret each of the two compares the header with 'sha256='
    followed by its HMAC (of the payload as JSON for the first, of the
    text for the second): true for exactly that header, false for
    another header of the same length, and an error when the header is
    missing or of another length; so the two agree on every header
    whenever the two HMACs are the same. *)
Theorem signature_checks_compared :
  forall (hmacOfPayload : string -> WebhookService.Payload -> string)
         (hmacOfText : string -> string -> string)
         (payload : WebhookService.Payload) (text : string)
         (signature : option string),
    WebhookService.verifySignature None hmacOfPayload payload signature
    = Ok true
    /\ validateWebhookSignature None hmacOfText text signature = Ok false
    /\ WebhookService.verifySignature (Some EmptyString) hmacOfPayload payload
         signature = Ok true
    /\ validateWebhookSignature (Some EmptyString) hmacOfText text signature
       = Ok false
    /\ (forall s,
          s <> EmptyString ->
          let verified :=
            WebhookService.verifySignature (Some s) hmacOfPayload payload
              signature in
          let validated :=
            validateWebhookSignature (Some s) hmacOfText text signature in
          let digest := "sha256=" +:+ hmacOfPayload s payload in
          let expected := "sha256=" +:+ hmacOfText s text in
          (verified = Ok true <-> signature = Some digest)
          /\ (validated = Ok true <-> signature = Some expected)
          /\ (forall given,
                signature = Some given ->
                (String.length given = String.length digest ->
                 given <> digest -> verified = Ok false)
                /\ (String.length given = String.length expected ->
                    given <> expected -> validated = Ok false)
                /\ (String.length given <> String.length digest ->
                    exists e, verified = Throw e)
                /\ (String.length given <> String.length expected ->
                    exists e, validated = Throw e))
          /\ (signature = None ->
              (exists e, verified = Throw e)
              /\ (exists e, validated = Throw e))
          /\ (hmacOfPayload s payload = hmacOfText s text ->
              verified = validated)).
Proof.
  intros hp ht payload text signature.
  do 4 (split; [reflexivity|]).
  intros s Hs verified validated digest expected.
  assert (Hv : verified = timingSafeEqual signature digest)
    by (unfold verified; destruct s; [congruence|reflexivity]).
  assert (Hw : validated = timingSafeEqual signature expected)
    by (unfold validated; destruct s; [congruence|reflexivity]).
  rewrite Hv, Hw.
  destruct (timingSafeEqual_cases signature digest)
    as (Htrue & Hfalse & Hlength & Hnone).
  destruct (timingSafeEqual_cases signature expected)
    as (Htrue' & Hfalse' & Hlength' & Hnone').
  split; [exact Htrue|]. split; [exact Htrue'|]. split; [|split].
  - intros given Hgiven. repeat split.
    + apply Hfalse. exact Hgiven.
    + apply Hfalse'. exact Hgiven.
    + apply Hlength. exact Hgiven.
    + apply Hlength'. exact Hgiven.
  - intros Hmissing. split; [apply Hnone|apply Hnone']; exact Hmissing.
  - intros Hsame. unfold digest, expected. rewrite Hsame. reflexivity.
Qed.

Lemma signature_checks_compared_witness :
  WebhookService.verifySignature (Some "s3cret") sampleHmac sampleEvent
    (Some "sha256=5f2bs3cret")
  = validateWebhookSignature (Some "s3cret") (fun secret _ => "5f2b" +:+ secret)
      "{}" (Some "sha256=5f2bs3cret")
  /\ validateWebhookSignature (Some "s3cret")
       (fun secret _ => "5f2b" +:+ secret) "{}" (Some "sha256=5f2bs3cret")
     = Ok true.
Proof.
  destruct (signature_checks_compared sampleHmac
              (fun secret _ => "5f2b" +:+ secret) sampleEvent "{}"
              (Some "sha256=5f2bs3cret"))
    as (_ & _ & _ & _ & Hsecret).
  destruct (Hsecret "s3cret" ltac:(discriminate))
    as (_ & Hvalid & _ & _ & Hagree).
  split; [apply Hagree; reflexivity|].
  apply Hvalid. reflexivity.
Defined.

Lemma sanitize_clean (input : jsstring) :
  Forall (fun c => dangerous c = false) (sanitizeUserInput input).
Proof.
  unfold sanitizeUserInput. induction input as [|c l IH]; simpl; [constructor|].
  destruct (dangerous c) eqn:E; simpl; [exact IH|].
  constructor; assumption.
Qed.

Lemma sanitize_id (input : jsstring) :
  Forall (fun c => dangerous c = false) input -> sanitizeUserInput input = input.
Proof.
  unfold sanitizeUserInput. induction 1 as [|c l Hc _ IH]; simpl; [reflexivity|].
  rewrite Hc, IH. reflexivity.
Qed.

(** X25. sanitizeUserInput removes every occurrence of the five
    characters less-than, greater-than, double quote, apostrophe and
    ampersand and nothing else: none of them is left in the output, the
    other characters keep their order, an input without them is returned
    as it is, and sanitizing twice is the same as sanitizing once. *)
Theorem sanitize_removes_dangerous :
  forall (input : jsstring),
    Forall (fun c => c <> 60 /\ c <> 62 /\ c <> 34 /\ c <> 39 /\ c <> 38)%N
           (sanitizeUserInput input)
    /\ (forall c, ~ In c [60; 62; 34; 39; 38]%N ->
          count_occ N.eq_dec (sanitizeUserInput input) c
          = count_occ N.eq_dec input c)
    /\ sublist (sanitizeUserInput input) input
    /\ (Forall (fun c => ~ In c [60; 62; 34; 39; 38]%N) input ->
        sanitizeUserInput input = input)
    /\ sanitizeUserInput (sanitizeUserInput input) = sanitizeUserInput input.
Proof.
  intros input.
  assert (Hd : forall c, dangerous c = false
                         <-> ~ In c [60; 62; 34; 39; 38]%N).
  { intros c. unfold dangerous. cbn [In].
    rewrite !orb_false_iff, !N.eqb_neq. intuition congruence. }
  split; [|split; [|split; [|split]]].
  - eapply Forall_impl; [apply sanitize_clean|].
    intros c Hc. apply Hd in Hc. cbn [In] in Hc. intuition congruence.
  - intros c Hc. apply Hd in Hc. unfold sanitizeUserInput.
    induction input as [|a l IH]; [reflexivity|]. cbn [List.filter].
    destruct (dangerous a) eqn:Ea; cbn [negb count_occ].
    + destruct (N.eq_dec a c) as [->|Hne]; [congruence|exact IH].
    + destruct (N.eq_dec a c); rewrite IH; reflexivity.
  - unfold sanitizeUserInput. induction input as [|a l IH]; simpl.
    + constructor.
    + destruct (dangerous a); simpl; constructor; exact IH.
  - intros Hall. apply sanitize_id.
    eapply Forall_impl; [exact Hall|]. intros c Hc. apply Hd. exact Hc.
  - apply sanitize_id. apply sanitize_clean.
Qed.

Lemma sanitize_removes_dangerous_witness :
  SecurityService.sanitizeUserInput (lit "a-b c") = lit "a-b c".
Proof.
  destruct (sanitize_removes_dangerous (lit "a-b c")) as (_ & _ & _ & Hsame & _).
  apply Hsame.
  repeat (constructor; [intros H; cbn [In] in H; intuition discriminate|]).
  constructor.
Defined.

End Security.

(** ** Locating a line in a patch *)

Section PatchLines.
Import JsString GithubService.

Example parseInt_samples :
  map parseInt [lit "42"; lit "  -7px"; lit "0x1F"; lit "x1"; lit "+"; []]
  = [Some 42; Some (-7); Some 31; None; None; None].
Proof. vm_compute. reflexivity. Qed.

Example isLineInFile_sample :
  map (fun n => isLineInFile samplePatch (Some n)) [4; 5; 6; 7; 8; 9]
  = [false; false; true; true; true; false].
Proof. vm_compute. reflexivity. Qed.

Lemma digitValue_decimal c : isDigit c = true ->
  exists d, digitValue 10 c = Some d /\ 0 <= d.
Proof.
  unfold isDigit, digitValue. intros H. rewrite H.
  apply andb_true_iff in H as [H1 H2].
  apply N.leb_le in H1, H2.
  destruct (Z.of_N c - 48 <? 10) eqn:E.
  - eexists. split; [reflexivity|]. lia.
  - apply Z.ltb_ge in E. lia.
Qed.

Lemma numberOf_decimal_nonneg ds acc :
  Forall (fun c => isDigit c = true) ds -> 0 <= acc ->
  0 <= fold_left
         (fun acc c =>
            acc * 10 + match digitValue 10 c with Some d => d | None => 0 end)
         ds acc.
Proof.
  intros Hall. revert acc. induction Hall as [|c ds Hc _ IH]; intros acc Hacc.
  - exact Hacc.
  - cbn [fold_left]. apply IH.
    destruct (digitValue_decimal c Hc) as (d & -> & Hd). lia.
Qed.

Lemma takeWhile_all p s : Forall (fun c => p c = true) (takeWhile p s).
Proof.
  induction s as [|c s IH]; simpl; [constructor|].
  destruct (p c) eqn:E; constructor; assumption.
Qed.

Lemma takeWhile_id p s : Forall (fun c => p c = true) s -> takeWhile p s = s.
Proof.
  induction 1 as [|c s Hc _ IH]; simpl; [reflexivity|].
  rewrite Hc, IH. reflexivity.
Qed.

(** parseInt of a non-empty run of decimal digits is its value. *)
Lemma parseInt_digits ds :
  ds <> [] -> Forall (fun c => isDigit c = true) ds ->
  parseInt ds = Some (numberOf 10 ds) /\ 0 <= numberOf 10 ds.
Proof.
  intros Hne Hall. split; [|apply numberOf_decimal_nonneg; [exact Hall|lia]].
  assert (Hin : Forall (fun c => isDigitIn 10 c = true) ds).
  { eapply Forall_impl; [exact Hall|]. intros c Hc. unfold isDigitIn.
    destruct (digitValue_decimal c Hc) as (d & -> & _). reflexivity. }
  destruct ds as [|c ds]; [congruence|].
  inversion Hall as [|c' ds' Hc Hrest]; subst.
  assert (Hcases : In c [48; 49; 50; 51; 52; 53; 54; 55; 56; 57]%N).
  { unfold isDigit in Hc. apply andb_true_iff in Hc as [H1 H2].
    apply N.leb_le in H1, H2. simpl.
    assert (c = 48 \/ c = 49 \/ c = 50 \/ c = 51 \/ c = 52 \/ c = 53
            \/ c = 54 \/ c = 55 \/ c = 56 \/ c = 57)%N by lia.
    intuition auto. }
  assert (Htake : takeWhile (isDigitIn 10) (c :: ds) = c :: ds)
    by (apply takeWhile_id; exact Hin).
  simpl in Hcases.
  destruct Hcases as [<-|Hcases].
  { unfold parseInt.
    change (dropWhile isWhiteSpace (48%N :: ds)) with (48%N :: ds).
    destruct ds as [|x t].
    - reflexivity.
    - inversion Hrest as [|x' t' Hx _]; subst.
      assert (Hx' : ((x =? 120) || (x =? 88))%N = false).
      { unfold isDigit in Hx. apply andb_true_iff in Hx as [H1 H2].
        apply N.leb_le in H1, H2.
        apply orb_false_iff. split; apply N.eqb_neq; lia. }
      cbv beta iota zeta. rewrite Hx'. cbv beta iota zeta.
      rewrite Htake. reflexivity. }
  repeat (destruct Hcases as [<-|Hcases];
          [unfold parseInt;
           match goal with
           | |- context [dropWhile isWhiteSpace (?d :: ds)] =>
               change (dropWhile isWhiteSpace (d :: ds)) with (d :: ds)
           end;
           cbv beta iota zeta; rewrite Htake; reflexivity|]).
  destruct Hcases.
Qed.

Lemma plusDigits_digits line ds :
  plusDigits line = Some ds ->
  ds <> [] /\ Forall (fun c => isDigit c = true) ds.
Proof.
  induction line as [|c t IH]; simpl; [discriminate|].
  destruct ((c =? 43)%N && match t with d :: _ => isDigit d | [] => false end)
    eqn:E; [|exact IH].
  intros [= <-]. apply andb_true_iff in E as [_ E].
  split; [|apply takeWhile_all].
  destruct t as [|d t']; [discriminate|]. simpl. rewrite E. discriminate.
Qed.

(** The line number read from a hunk header is a natural number. *)
Lemma header_start line ds :
  plusDigits line = Some ds ->
  parseInt ds = Some (numberOf 10 ds) /\ 0 <= numberOf 10 ds.
Proof.
  intros H. destruct (plusDigits_digits line ds H) as [Hne Hall].
  apply parseInt_digits; assumption.
Qed.

Lemma walk_not_a_number lines cur : walk lines cur None = false.
Proof.
  revert cur. induction lines as [|line rest IH]; intros cur; cbn [walk];
    [reflexivity|].
  destruct (startsWith (lit "@@") line).
  - destruct (plusDigits line); apply IH.
  - destruct (startsWith (lit "+") line || startsWith (lit " ") line);
      [|apply IH].
    destruct cur; cbn [fmap option_fmap option_map]; apply IH.
Qed.

Lemma walk_nonpositive lines cur n :
  n <= 0 ->
  match cur with Some c => 0 <= c | None => True end ->
  walk lines cur (Some n) = false.
Proof.
  intros Hn. revert cur.
  induction lines as [|line rest IH]; intros cur Hcur; cbn [walk];
    [reflexivity|].
  destruct (startsWith (lit "@@") line).
  - destruct (plusDigits line) as [ds|] eqn:E; [|apply IH; exact Hcur].
    destruct (header_start line ds E) as [-> Hds]. apply IH. exact Hds.
  - destruct (startsWith (lit "+") line || startsWith (lit " ") line);
      [|apply IH; exact Hcur].
    destruct cur as [c|]; cbn [fmap option_fmap option_map].
    + destruct (Z.eqb_spec (Z.succ c) n); [lia|]. apply IH. lia.
    + apply IH. exact I.
Qed.

(** Below the header of a hunk, the lines counted are the added and the
    context lines. *)
Lemma walk_hunk body c n :
  Forall (fun l => startsWith (lit "@@") l = false) body ->
  walk body (Some c) (Some n) = true
  <-> c < n <= c + Z.of_nat (length (List.filter counted body)).
Proof.
  intros Hbody. revert c.
  induction Hbody as [|line rest Hline _ IH]; intros c;
    cbn [walk List.filter].
  - cbn [length]. split; [discriminate|lia].
  - rewrite Hline. unfold counted at 1.
    destruct (startsWith (lit "+") line || startsWith (lit " ") line);
      cbn [fmap option_fmap option_map length].
    + destruct (Z.eqb_spec (Z.succ c) n) as [Heq|Hneq].
      * split; [intros _; lia|reflexivity].
      * rewrite IH. lia.
    + apply IH.
Qed.

Lemma isLineInFile_positive patch n :
  isLineInFile patch n = true -> exists k, n = Some k /\ 0 < k.
Proof.
  unfold isLineInFile. intros H. destruct n as [k|].
  - exists k. split; [reflexivity|].
    destruct (Z_lt_le_dec 0 k) as [Hk|Hk]; [exact Hk|].
    rewrite walk_nonpositive in H; [discriminate|exact Hk|simpl; lia].
  - rewrite walk_not_a_number in H. discriminate.
Qed.

(** X26. isLineInFile on a patch of one hunk: the header line starts with
    the two at signs and carries a plus sign followed by digits, and no
    later line is a header. Within the range where numbers are exact
    integers, line [n] is found exactly when it lies after the start
    line read from the header and within as many lines as the hunk has
    added and context lines; removed lines are not counted. *)
Theorem isLineInFile_single_hunk :
  forall (patch header : jsstring) (body : list jsstring) (ds : jsstring)
         (n : Z),
    split 10 patch = header :: body ->
    startsWith (lit "@@") header = true ->
    plusDigits header = Some ds ->
    Forall (fun l => startsWith (lit "@@") l = false) body ->
    numberOf 10 ds + Z.of_nat (length (List.filter counted body)) < 2 ^ 53 ->
    isLineInFile patch (Some n) = true
    <-> numberOf 10 ds < n
        <= numberOf 10 ds + Z.of_nat (length (List.filter counted body)).
Proof.
  intros patch header body ds n Hsplit Hheader Hplus Hbody _.
  unfold isLineInFile. rewrite Hsplit. cbn [walk]. rewrite Hheader, Hplus.
  destruct (header_start header ds Hplus) as [-> _].
  apply walk_hunk. exact Hbody.
Qed.

Lemma isLineInFile_single_hunk_witness :
  isLineInFile samplePatch (Some 8) = true
  <-> 5 < 8 <= 5 + 3.
Proof.
  apply (isLineInFile_single_hunk samplePatch (lit "@@ -3,3 +5,4 @@")
           [lit " keep"; lit "-old"; lit "+new"; lit "+more"] (lit "5") 8).
  - reflexivity.
  - reflexivity.
  - reflexivity.
  - repeat constructor.
  - vm_compute. reflexivity.
Defined.

(** ** Review comments *)

Example collectComments_sample :
  map (fun c => (path c, commentLine c))
    (collectComments
       [ {| filename := lit "README.md"; patch := None |};
         {| filename := lit "src/app.ts"; patch := Some samplePatch |} ]
       [ styleIssue;
         {| type := bug; severity := high; message := lit "m";
            suggestion := lit "s"; line := Some (lit "7") |};
         {| type := bug; severity := high; message := lit "m";
            suggestion := lit "s"; line := Some (lit "12") |};
         {| type := security; severity := critical; message := lit "m";
            suggestion := lit "s"; line := None |} ])
  = [(lit "src/app.ts", Some 7)].
Proof. vm_compute. reflexivity. Qed.

Lemma findFile_found files n file :
  findFile files n = Some file ->
  In file files
  /\ exists p k, patch file = Some p /\ isLineInFile p n = true
                 /\ n = Some k /\ 0 < k.
Proof.
  unfold findFile. intros H. apply find_some in H as [Hin Hp].
  split; [exact Hin|].
  destruct (patch file) as [[|c p]|] eqn:E; try discriminate.
  destruct (isLineInFile_positive _ _ Hp) as (k & Hk & Hpos).
  exists (c :: p), k. auto.
Qed.

(** X27. Every comment that postReviewComments builds is grounded: it
    belongs to an issue that has a line and is not a style issue, its
    line is that issue's line read as a positive integer, its path is the
    name of a listed file whose patch contains that line, and its body is
    the formatted issue. There are no more comments than such issues. *)
Theorem review_comments_grounded :
  forall (files : list File) (issues : list CodeIssue),
    Forall
      (fun c =>
         exists issue file text p k,
           In issue issues /\ type issue <> style
           /\ line issue = Some text /\ parseInt text = Some k /\ 0 < k
           /\ In file files /\ patch file = Some p
           /\ isLineInFile p (Some k) = true
           /\ c = {| path := filename file; commentLine := Some k;
                     body := formatReviewComment issue |})
      (collectComments files issues)
    /\ (length (collectComments files issues)
        <= length (List.filter commentable issues))%nat.
Proof.
  intros files issues. induction issues as [|issue rest [IHall IHlen]].
  - split; [constructor|simpl; lia].
  - cbn [collectComments List.filter].
    assert (Hrest :
              Forall
                (fun c =>
                   exists issue0 file text p k,
                     In issue0 (issue :: rest) /\ type issue0 <> style
                     /\ line issue0 = Some text /\ parseInt text = Some k
                     /\ 0 < k
                     /\ In file files /\ patch file = Some p
                     /\ isLineInFile p (Some k) = true
                     /\ c = {| path := filename file; commentLine := Some k;
                               body := formatReviewComment issue0 |})
                (collectComments files rest)).
    { eapply Forall_impl; [exact IHall|].
      intros c (i & f & t & p & k & Hi & H). exists i, f, t, p, k.
      split; [right; exact Hi|exact H]. }
    destruct (commentable issue) eqn:Hc.
    + unfold commentable in Hc.
      destruct (line issue) as [[|u text]|] eqn:Hline; try discriminate.
      cbn [default id].
      destruct (findFile files (parseInt (u :: text))) as [file|] eqn:Hfind.
      * destruct (findFile_found _ _ _ Hfind)
          as (Hin & p & k & Hp & Hfound & Hk & Hpos).
        split.
        -- cbn [app]. constructor; [|exact Hrest].
           exists issue, file, (u :: text), p, k. rewrite Hk in *.
           repeat split; auto; try (left; reflexivity).
           intros Hs. rewrite Hs in Hc. discriminate.
        -- cbn [app length]. lia.
      * split; [exact Hrest|]. cbn [app length]. lia.
    + split; [exact Hrest|]. cbn [app]. lia.
Qed.

Lemma collectComments_none files issues :
  Forall (fun issue => commentable issue = false) issues ->
  collectComments files issues = [].
Proof.
  induction 1 as [|issue rest Hc _ IH]; [reflexivity|].
  cbn [collectComments]. rewrite Hc, IH. reflexivity.
Qed.

(** X28. When every issue is a style issue or has no line,
    postReviewComments only lists the files of the pull request: no
    review is requested, so the call succeeds whenever the listing does,
    whatever creating a review would have answered, and takes the time of
    the listing alone. *)
Theorem no_review_without_comments :
  forall listFiles createReview (owner repo pullNumber commitSha : option JsVal)
         (issues : list CodeIssue) (w : World),
    Forall (fun issue => type issue = style \/ line issue = None
                         \/ line issue = Some [])
      issues ->
    postReviewComments listFiles createReview owner repo pullNumber commitSha
      issues w
    = match listFiles owner repo pullNumber w with
      | (Ok _, dt) => (Ok tt, dt)
      | (Throw _, dt) => (Throw (Error "Failed to post review comments"), dt)
      end.
Proof.
  intros listFiles createReview owner repo pullNumber commitSha issues w Hall.
  unfold postReviewComments.
  destruct (listFiles owner repo pullNumber w) as [[files|e] dt];
    [|reflexivity].
  rewrite collectComments_none; [reflexivity|].
  eapply Forall_impl; [exact Hall|].
  intros issue H. unfold commentable.
  destruct H as [H|[H|H]]; rewrite H; try reflexivity.
  destruct (line issue) as [[|]|]; reflexivity.
Qed.

Lemma no_review_without_comments_witness :
  postReviewComments listsSampleFile createReviewFails None None None None
    [styleIssue] (freshWorld 1000)
  = (Ok tt, 35%N).
Proof.
  apply (no_review_without_comments listsSampleFile createReviewFails
           None None None None [styleIssue] (freshWorld 1000)).
  repeat constructor.
Defined.

End PatchLines.

(** ** The basic processor over GithubService *)

Section ProcessorOverGithub.
Import GithubService.

Variable analyzeCodeDiff : jsstring -> Ext AiAnalysis.
Variable pullsGet :
  option JsVal -> option JsVal -> option JsVal -> Ext jsstring.
Variable listFiles :
  option JsVal -> option JsVal -> option JsVal -> Ext (list File).
Variable createReview :
  option JsVal -> option JsVal -> option JsVal -> option JsVal ->
  ReviewRequest -> Ext unit.

Local Abbreviation githubHandler :=
  (CodeReviewProcessor.handleCodeReview analyzeCodeDiff
     (getPullRequestDiff pullsGet)
     (postReviewComments listFiles createReview)
     (postReviewSummary createReview)).

(** X29. When Octokit cannot deliver the pull request, the basic handler
    fails, for a payload whose review row the table takes, with the
    error 'Failed to fetch pull request diff' whatever error Octokit
    raised: the original error does not reach the queue.  The failure
    comes after one call to GithubService, stores no comment, and leaves
    the new review row with status 'failed'. *)
Theorem failed_fetch_fails_job :
  forall (job : Bull.Job) (w : World),
    storable (Bull.data job) = true ->
    (forall owner repo pullNumber w',
        exists e, fst (pullsGet owner repo pullNumber w') = Throw e) ->
    fst (githubHandler job w)
    = Throw (Error "Failed to fetch pull request diff")
    /\ externalCalls (snd (githubHandler job w)) = S (externalCalls w)
    /\ reviewComments (snd (githubHandler job w)) = reviewComments w
    /\ exists r,
         reviews (snd (githubHandler job w)) = reviews w ++ [r]
         /\ reviewStatus r = "failed".
Proof.
  intros job w Hstorable Hfails.
  set (r0 := {| owner := Bull.data job !! "owner";
                repo := Bull.data job !! "repo";
                pullNumber := Bull.data job !! "pullNumber";
                commitSha := Bull.data job !! "headSha";
                reviewSummary := "Processing...";
                reviewStatus := "pending" |}).
  set (w1 := setReviews
               (alter (withStatus "in_progress") (length (reviews w))
                  (reviews w ++ [r0]))
               (setReviews (reviews w ++ [r0]) w)).
  destruct (Hfails (Bull.data job !! "owner") (Bull.data job !! "repo")
              (Bull.data job !! "pullNumber") w1) as [e He].
  destruct (pullsGet (Bull.data job !! "owner") (Bull.data job !! "repo")
              (Bull.data job !! "pullNumber") w1) as [got dt] eqn:Hget.
  cbn [fst] in He. subst got.
  assert (Hrun : githubHandler job w
                 = (Throw (Error "Failed to fetch pull request diff"),
                    setReviews
                      (alter (withStatus "failed") (length (reviews w))
                         (reviews (requested dt w1)))
                      (requested dt w1))).
  { unfold CodeReviewProcessor.handleCodeReview. unfold bind at 1.
    rewrite (createReview_stored _ _ _ Hstorable).
    unfold CodeReviewProcessor.pipeline,
      tryCatch, bind, call, getPullRequestDiff, throw.
    cbn [DatabaseService.updateReviewStatus reviews setReviews].
    fold r0. fold w1. rewrite Hget. reflexivity. }
  rewrite Hrun. cbn [fst snd]. split; [reflexivity|].
  split; [reflexivity|]. split; [reflexivity|].
  exists (withStatus "failed" (withStatus "in_progress" r0)).
  split; [|reflexivity].
  cbn [reviews setReviews requested w1].
  unfold w1. cbn [reviews setReviews requested].
  rewrite alter_twice.
  rewrite <- (Nat.add_0_r (length (reviews w))).
  rewrite alter_app_r. reflexivity.
Qed.

End ProcessorOverGithub.

Lemma failed_fetch_fails_job_witness :
  fst (CodeReviewProcessor.handleCodeReview aiUnavailable
         (GithubService.getPullRequestDiff pullsGetFails)
         (GithubService.postReviewComments listsSampleFile createReviewFails)
         (GithubService.postReviewSummary createReviewFails)
         sampleJob (freshWorld 1000))
  = Throw (Error "Failed to fetch pull request diff").
Proof.
  apply (failed_fetch_fails_job aiUnavailable pullsGetFails listsSampleFile
           createReviewFails sampleJob (freshWorld 1000)).
  - reflexivity.
  - intros owner repo pullNumber w'. exists (Error "Not Found"). reflexivity.
Defined.
